(** * word2vec_optimized: options, learning-rate schedule, analogy loading
      and scoring, vocabulary persistence, interactive queries

    A shallow embedding of [word2vec_optimized.py].  Python integers are [Z]
    (or [nat] for vocabulary ids, which come from [enumerate]); byte strings
    are [string]; dictionaries are [gmap]; exceptions are the [Raise] branch of
    [result].  The evaluation graph is written out op by op over a generic
    scalar type; the training kernels, the saver and Python's [%] on strings
    are parameters of the sections that call them.  Printing is not
    modelled: a function returns the numbers it prints. *)

From Stdlib Require Import ZArith QArith Qminmax String Ascii List Lia Bool.
From Stdlib Require Import Sorting.Sorted Sorting.Permutation.
From Stdlib Require Import DecimalString DecimalZ.
From stdpp Require Import base gmap strings list.

Local Open Scope string_scope.
Local Open Scope Z_scope.

(** ** Exceptions *)

Inductive exn : Type :=
| SystemExit (code : Z)
| IOError (path : string)
| KeyError
| IndexError
| ZeroDivisionError
| TypeError
| InvalidArgumentError
| UnicodeDecodeError.

(** [Timeout] is the embedding's own outcome for a loop that ran out of
    fuel; the program has no such exception. *)
Inductive result (A : Type) : Type :=
| Ok (a : A)
| Raise (e : exn)
| Timeout.
Arguments Ok {A} a.
Arguments Raise {A} e.
Arguments Timeout {A}.

Definition rbind {A B} (r : result A) (k : A -> result B) : result B :=
  match r with
  | Ok a => k a
  | Raise e => Raise e
  | Timeout => Timeout
  end.

#[export] Instance result_ret : MRet result := fun A a => Ok a.
#[export] Instance result_bind : MBind result := fun A B k r => rbind r k.

(** ** Flags and options *)

Record Flags : Type := {
  FLAGS_save_path : string;
  FLAGS_load_data : bool;
  FLAGS_resume : bool;
  FLAGS_dry_run : bool;
  FLAGS_train_data : option string;
  FLAGS_eval_data : option string;
  FLAGS_embedding_size : Z;
  FLAGS_epochs_to_train : Z;
  FLAGS_learning_rate : Q;
  FLAGS_num_neg_samples : Z;
  FLAGS_batch_size : Z;
  FLAGS_concurrent_steps : Z;
  FLAGS_window_size : Z;
  FLAGS_min_count : Z;
  FLAGS_subsample : Q;
  FLAGS_interactive : option bool
}.

Record Options : Type := {
  emb_dim : Z;
  train_data : option string;
  num_samples : Z;
  learning_rate : Q;
  epochs_to_train : Z;
  concurrent_steps : Z;
  batch_size : Z;
  window_size : Z;
  min_count : Z;
  subsample : Q;
  save_path : string;
  eval_data : option string;
  interactive : option bool;
  load_data : bool;
  resume : bool
}.

(** [Options.__init__]: the attributes are copied from the flags, then the
    two mode rules run in the order of the source. *)
Definition Options_init (F : Flags) : Options :=
  let load_data0 := FLAGS_load_data F in
  let resume0 := FLAGS_resume F in
  let turn_off := load_data0 && negb resume0 in
  {| emb_dim := FLAGS_embedding_size F;
     train_data := FLAGS_train_data F;
     num_samples := FLAGS_num_neg_samples F;
     learning_rate := FLAGS_learning_rate F;
     epochs_to_train := if turn_off then 0 else FLAGS_epochs_to_train F;
     concurrent_steps := FLAGS_concurrent_steps F;
     batch_size := FLAGS_batch_size F;
     window_size := FLAGS_window_size F;
     min_count := FLAGS_min_count F;
     subsample := FLAGS_subsample F;
     save_path := FLAGS_save_path F;
     eval_data := FLAGS_eval_data F;
     interactive :=
       if turn_off then
         match FLAGS_interactive F with
         | None => Some true
         | Some b => Some b
         end
       else FLAGS_interactive F;
     load_data := if resume0 then true else load_data0;
     resume := resume0 |}.

(** Python truthiness of an optional string flag and of the tri-state
    [interactive]. *)
Definition truthy_string (s : option string) : bool :=
  match s with
  | None => false
  | Some EmptyString => false
  | Some _ => true
  end.

Definition truthy_bool (b : option bool) : bool :=
  match b with
  | Some true => true
  | _ => false
  end.

(** ** The main program and the checkpoint store *)

Definition ends_with_slash (s : string) : bool :=
  match rev (list_ascii_of_string s) with
  | c :: _ => Ascii.eqb c "/"
  | [] => false
  end.

(** [os.path.join] on two components (POSIX). *)
Definition path_join (dir file : string) : string :=
  match file with
  | String c _ =>
      if Ascii.eqb c "/" then file
      else if String.eqb dir "" || ends_with_slash dir then dir ++ file
      else dir ++ "/" ++ file
  | EmptyString =>
      if String.eqb dir "" || ends_with_slash dir then dir
      else dir ++ "/"
  end.

Section Main.
(** The trained model (the session's variables) and the checkpoint
    storage are TensorFlow's; the script only calls into them. *)
Variable model : Type.
Variable ckpt_store : Type.

(** [Word2Vec(opts, session)] followed by [model.read_analogies()]; it
    writes [vocab.txt], not the checkpoint. *)
Variable Word2Vec_new : Options -> result model.
(** [model.saver.restore(session, model_path)]. *)
Variable saver_restore : ckpt_store -> string -> model -> result model.
(** [model.saver.save(session, model_path, global_step=...)]. *)
Variable saver_save : model -> string -> ckpt_store -> ckpt_store.
(** [model.eval()], [model.train()] and [_start_shell]. *)
Variable model_eval : model -> result unit.
Variable model_train : model -> result model.
Variable start_shell : model -> result unit.

(** A computation that may raise and that carries the checkpoint store;
    an exception leaves the store as it was when it was raised. *)
Definition prog (A : Type) : Type := ckpt_store -> result A * ckpt_store.

Definition pret {A} (a : A) : prog A := fun st => (Ok a, st).
Definition pbind {A B} (p : prog A) (k : A -> prog B) : prog B :=
  fun st =>
    match p st with
    | (Ok a, st') => k a st'
    | (Raise e, st') => (Raise e, st')
    | (Timeout, st') => (Timeout, st')
    end.
Definition plift {A} (r : result A) : prog A := fun st => (r, st).
Definition pget : prog ckpt_store := fun st => (Ok st, st).
Definition pmodify (f : ckpt_store -> ckpt_store) : prog unit :=
  fun st => (Ok tt, f st).

(** [for epoch in xrange(opts.epochs_to_train): train; eval]. *)
Fixpoint train_epochs (n : nat) (m : model) : prog model :=
  match n with
  | O => pret m
  | S n' =>
      pbind (plift (model_train m)) (fun m1 =>
      pbind (plift (model_eval m1)) (fun _ =>
      train_epochs n' m1))
  end.

(** [main]: the run from the flag check to the interactive shell.  Only
    [saver.save] is given the checkpoint store. *)
Definition main (F : Flags) : prog unit :=
  if negb (truthy_string (FLAGS_train_data F))
     || negb (truthy_string (FLAGS_eval_data F))
  then plift (Raise (SystemExit 1))
  else
    let opts := Options_init F in
    let model_path := path_join (save_path opts) "model.ckpt" in
    pbind (plift (Word2Vec_new opts)) (fun m0 =>
    pbind (if load_data opts
           then pbind pget (fun st => plift (saver_restore st model_path m0))
           else pret m0) (fun m1 =>
    pbind (plift (model_eval m1)) (fun _ =>
    pbind (train_epochs (Z.to_nat (epochs_to_train opts)) m1) (fun m2 =>
    pbind (if (0 <? epochs_to_train opts) && negb (FLAGS_dry_run F)
           then pmodify (saver_save m2 model_path)
           else pret tt) (fun _ =>
    if truthy_bool (interactive opts)
    then plift (start_shell m2)
    else pret tt))))).

End Main.

(** ** Learning-rate schedule ([build_graph]) *)

(** numpy [int64] arithmetic: a result outside [-2^63, 2^63) wraps around. *)
Definition wrap_int64 (z : Z) : Z := (z + 2 ^ 63) mod 2 ^ 64 - 2 ^ 63.

(** The schedule is a float32 computation in the source; the embedding
    evaluates the same expression tree in exact rational arithmetic.  A zero
    [words_to_train] (IEEE division by zero) has no rational value.
    [opts.words_per_epoch] is a numpy [int64] fetched from the session, so
    its product with [epochs_to_train] (a Python int, taken within the
    [int64] range) is an [int64] product. *)
Definition words_to_train (opts : Options) (words_per_epoch : Z) : Q :=
  inject_Z (wrap_int64 (words_per_epoch * epochs_to_train opts)).

Definition lr (opts : Options) (words_per_epoch total_words_processed : Z)
  : option Q :=
  let wtt := words_to_train opts words_per_epoch in
  if Qeq_bool wtt 0 then None
  else Some (learning_rate opts *
             Qmax (1 # 10000) (1 - inject_Z total_words_processed / wtt))%Q.

(** The schedule as the specification words it: the floor is applied after
    the multiplication by the initial rate. *)
Definition spec_lr (initial_lr : Q) (words_per_epoch epochs total : Z) : Q :=
  Qmax (1 # 10000)
       (initial_lr * (1 - inject_Z total / inject_Z (words_per_epoch * epochs)))%Q.

(** ** Analogy scoring ([Word2Vec.eval]) *)

Definition ANALOGY_COUNT : nat := 4.

(** [d[k] += 1] on a Python dict. *)
Definition dict_incr (d : gmap nat Z) (k : nat) : result (gmap nat Z) :=
  match d !! k with
  | Some v => Ok (<[k := v + 1]> d)
  | None => Raise KeyError
  end.

(** [{i: 0 for i in xrange(n)}]. *)
Definition dict_zeros (n : nat) : gmap nat Z :=
  list_to_map (map (fun i => (i, 0)) (seq 0 n)).

(** [row[j]] on an array row. *)
Definition index {A} (row : list A) (j : nat) : result A :=
  match row !! j with
  | Some x => Ok x
  | None => Raise IndexError
  end.

(** [x in row[:3]]. *)
Definition in_first3 (x : nat) (row : list nat) : bool :=
  existsb (Nat.eqb x) (firstn 3 row).

(** The body of [for j in xrange(ANALOGY_COUNT)] for one question, run over
    the remaining values of [j]; it returns the question's skip count and the
    updated [correct] dict.  The hit branch ends the loop ([break]). *)
Fixpoint scan (js : list nat) (idx_row sub_row : list nat)
    (prio skips : nat) (correct : gmap nat Z) : result (nat * gmap nat Z) :=
  match js with
  | [] => Ok (skips, correct)
  | j :: js' =>
      p ← index idx_row j;
      d ← index sub_row 3;
      if Nat.eqb p d then
        correct' ← dict_incr correct prio;
        Ok (skips, correct')
      else if in_first3 p sub_row then
        scan js' idx_row sub_row prio (S skips) correct
      else
        scan js' idx_row sub_row (S prio) skips correct
  end.

(** [for question in xrange(sub.shape[0])]: one pass over a batch. *)
Fixpoint score_batch (questions : list nat) (idx sub : list (list nat))
    (correct skips_map : gmap nat Z) : result (gmap nat Z * gmap nat Z) :=
  match questions with
  | [] => Ok (correct, skips_map)
  | question :: rest =>
      idx_row ← index idx question;
      sub_row ← index sub question;
      '(skips, correct') ← scan (seq 0 ANALOGY_COUNT) idx_row sub_row 0%nat 0%nat correct;
      skips_map' ← dict_incr skips_map skips;
      score_batch rest idx sub correct' skips_map'
  end.

(** [questions[start:limit, :]]. *)
Definition slice {A} (l : list A) (start limit : nat) : list A :=
  firstn (limit - start) (skipn start l).

(** What [eval] prints for one block, before the [%5.1f] formatting (the
    ratios are kept exact), together with the two dicts they come from. *)
Record block_report : Type := {
  rep_correct : gmap nat Z;
  rep_skips_map : gmap nat Z;
  rep_guessed : Z;
  rep_total : Z;
  rep_accuracy : Q;
  rep_accuracy_list : list Q;
  rep_skips_list : list Q
}.

(** [x * 100.0 / y] on Python numbers. *)
Definition percent (x y : Z) : result Q :=
  if Z.eqb y 0 then Raise ZeroDivisionError
  else Ok (inject_Z x * 100 / inject_Z y)%Q.

(** [sum(d.values())]. *)
Definition dict_sum (d : gmap nat Z) : Z :=
  map_fold (fun _ v acc => v + acc) 0 d.

(** [' '.join(f(d[i]) for i in ...)], element by element. *)
Fixpoint percent_list (d : gmap nat Z) (keys : list nat) (denom : Z)
  : result (list Q) :=
  match keys with
  | [] => Ok []
  | i :: keys' =>
      v ← match d !! i with Some v => Ok v | None => Raise KeyError end;
      q ← percent v denom;
      qs ← percent_list d keys' denom;
      Ok (q :: qs)
  end.

Section Eval.
(** [self._predict]: the top [ANALOGY_COUNT] ids for each row of a batch. *)
Variable _predict : list (list nat) -> result (list (list nat)).

(** [while start < total]: batches of 2500 questions. *)
Fixpoint eval_batches (fuel : nat) (questions : list (list nat))
    (total start : nat) (correct skips_map : gmap nat Z)
  : result (gmap nat Z * gmap nat Z) :=
  if Nat.ltb start total then
    match fuel with
    | O => Timeout
    | S fuel' =>
        let limit := (start + 2500)%nat in
        let sub := slice questions start limit in
        idx ← _predict sub;
        '(correct', skips_map') ←
           score_batch (seq 0 (length sub)) idx sub correct skips_map;
        eval_batches fuel' questions total limit correct' skips_map'
    end
  else Ok (correct, skips_map).

(** The body of [for i in range(len(self._analogy_questions))]. *)
Definition eval_block (questions : list (list nat)) : result block_report :=
  let correct0 := dict_zeros ANALOGY_COUNT in
  let skips_map0 := dict_zeros (ANALOGY_COUNT + 1) in
  let total := length questions in
  '(correct, skips_map) ←
     eval_batches total questions total 0%nat correct0 skips_map0;
  accuracy_list ← percent_list correct (seq 0 ANALOGY_COUNT) (Z.of_nat total);
  let total_skips := dict_sum skips_map in
  skips_list ← percent_list skips_map (seq 1 ANALOGY_COUNT) total_skips;
  let guessed := dict_sum correct in
  accuracy ← percent guessed (Z.of_nat total);
  Ok {| rep_correct := correct;
        rep_skips_map := skips_map;
        rep_guessed := guessed;
        rep_total := Z.of_nat total;
        rep_accuracy := accuracy;
        rep_accuracy_list := accuracy_list;
        rep_skips_list := skips_list |}.

Fixpoint eval_blocks (blocks : list (list (list nat)))
  : result (list block_report) :=
  match blocks with
  | [] => Ok []
  | questions :: rest =>
      r ← eval_block questions;
      rs ← eval_blocks rest;
      Ok (r :: rs)
  end.

(** [eval]: the per-block reports and, for several blocks, the global
    line [(global_guessed, global_total, percentage)]. *)
Definition eval (analogy_questions : list (list (list nat)))
  : result (list block_report * option (Z * Z * Q)) :=
  let multi_question := Nat.ltb 1 (length analogy_questions) in
  reports ← eval_blocks analogy_questions;
  let global_guessed := fold_left Z.add (map rep_guessed reports) 0 in
  let global_total := fold_left Z.add (map rep_total reports) 0 in
  if multi_question then
    g ← percent global_guessed global_total;
    Ok (reports, Some (global_guessed, global_total, g))
  else Ok (reports, None).

End Eval.

(** ** Byte-string helpers *)

(** The bytes removed by [bytes.strip()]: space, \t, \n, \v, \f, \r. *)
Definition is_space (c : ascii) : bool :=
  let n := nat_of_ascii c in
  (Nat.eqb n 32 || (Nat.leb 9 n && Nat.leb n 13)).

Fixpoint lstrip (s : string) : string :=
  match s with
  | EmptyString => EmptyString
  | String c s' => if is_space c then lstrip s' else s
  end.

Fixpoint rstrip (s : string) : string :=
  match s with
  | EmptyString => EmptyString
  | String c s' =>
      match rstrip s' with
      | EmptyString => if is_space c then EmptyString else String c EmptyString
      | r => String c r
      end
  end.

Definition strip (s : string) : string := lstrip (rstrip s).

(** [bytes.lower()]: only A-Z change. *)
Definition lower_ascii (c : ascii) : ascii :=
  let n := nat_of_ascii c in
  if Nat.leb 65 n && Nat.leb n 90 then ascii_of_nat (n + 32) else c.

Fixpoint lower (s : string) : string :=
  match s with
  | EmptyString => EmptyString
  | String c s' => String (lower_ascii c) (lower s')
  end.

Definition startswith (c : ascii) (s : string) : bool :=
  match s with
  | String c' _ => Ascii.eqb c' c
  | EmptyString => false
  end.

(** [s.split(sep)] for a one-byte separator: every occurrence cuts, so
    adjacent separators give empty pieces. *)
Fixpoint split (sep : ascii) (s : string) : list string :=
  match s with
  | EmptyString => [EmptyString]
  | String c s' =>
      if Ascii.eqb c sep then EmptyString :: split sep s'
      else match split sep s' with
           | w :: ws => String c w :: ws
           | [] => [String c EmptyString]
           end
  end.

Definition is_empty (s : string) : bool :=
  match s with EmptyString => true | _ => false end.

(** [pat in s]. *)
Fixpoint contains (pat s : string) : bool :=
  String.prefix pat s ||
  match s with
  | EmptyString => false
  | String _ s' => contains pat s'
  end.

(** ** Vocabulary lookup tables ([build_graph]) *)

(** [for i, w in enumerate(self._id2word): self._word2id[w] = i]. *)
Definition build_word2id (id2word : list string) : gmap string nat :=
  fold_left (fun m iw => <[iw.2 := iw.1]> m)
            (zip (seq 0 (length id2word)) id2word) ∅.

(** ** Reading analogy questions ([read_analogies]) *)

(** One iteration of [for line in analogy_f] on the pair
    [(questions, questions_skipped)]. *)
Definition read_line (word2id : gmap string nat) (line : string)
    (st : list (list nat) * Z) : list (list nat) * Z :=
  let '(questions, questions_skipped) := st in
  let line := strip line in
  if is_empty line || startswith ":" line then st
  else
    let words := split " " (lower line) in
    let ids := map (fun w => word2id !! strip w) words in
    if existsb (fun o => negb (bool_decide (is_Some o))) ids
       || negb (Nat.eqb (length ids) 4)
    then (questions, questions_skipped + 1)
    else ((questions ++ [omap id ids])%list, questions_skipped).

Definition read_lines (word2id : gmap string nat) (lines : list string)
  : list (list nat) * Z :=
  fold_left (fun st line => read_line word2id line st) lines ([], 0).

(** A file system: regular files (as the lines a binary-mode iteration
    yields) and directories. *)
Inductive node : Type :=
| File (lines : list string)
| Dir.

(** [os.path.exists] and [open(path, "rb")]. *)
Definition path_exists (fs : gmap string node) (path : string) : bool :=
  bool_decide (is_Some (fs !! path)).

Definition open_rb (fs : gmap string node) (path : string)
  : result (list string) :=
  match fs !! path with
  | Some (File lines) => Ok lines
  | _ => Raise (IOError path)
  end.

(** [read_file]: the question array, and the skip tally it prints. *)
Definition read_file (word2id : gmap string nat) (fs : gmap string node)
    (path : string) : result (list (list nat) * Z) :=
  lines ← open_rb fs path;
  Ok (read_lines word2id lines).

Section ReadAnalogies.
(** Python's [str % int]. *)
Variable percent_format : string -> Z -> result string.

(** [while os.path.exists(eval_data % idx)]. *)
Fixpoint read_numbered (fuel : nat) (word2id : gmap string nat)
    (fs : gmap string node) (pattern : string) (idx : Z)
    (blocks : list (list (list nat) * Z))
  : result (list (list (list nat) * Z)) :=
  match fuel with
  | O => Timeout
  | S fuel' =>
      path ← percent_format pattern idx;
      if path_exists fs path then
        path' ← percent_format pattern idx;
        block ← read_file word2id fs path';
        read_numbered fuel' word2id fs pattern (idx + 1) (blocks ++ [block])%list
      else Ok blocks
  end.

(** [read_analogies]: the value stored in [self._analogy_questions], each
    block paired with its skip tally. *)
Definition read_analogies (fuel : nat) (word2id : gmap string nat)
    (fs : gmap string node) (eval_data : string)
  : result (list (list (list nat) * Z)) :=
  if contains "%d" eval_data then
    read_numbered fuel word2id fs eval_data 1 []
  else
    block ← read_file word2id fs eval_data;
    Ok [block].

End ReadAnalogies.

(** ** Decimal output *)

(** ["%d" % n]. *)
Definition format_d (n : Z) : string := NilZero.string_of_int (Z.to_int n).

(** A fragment of [str % int]: literal bytes, [%%] and exactly one [%d];
    anything else raises. *)
Fixpoint percent_d_aux (s : string) (n : Z) (used : bool) : result string :=
  match s with
  | EmptyString => if used then Ok EmptyString else Raise TypeError
  | String "%" (String "d" s') =>
      if used then Raise TypeError
      else r ← percent_d_aux s' n true; Ok (format_d n ++ r)%string
  | String "%" (String "%" s') =>
      r ← percent_d_aux s' n used; Ok (String "%" r)
  | String "%" _ => Raise TypeError
  | String c s' => r ← percent_d_aux s' n used; Ok (String c r)
  end.

Definition percent_d (s : string) (n : Z) : result string :=
  percent_d_aux s n false.

(** ** UTF-8 ([tf.compat.as_text], [b2u])

    Text is modelled by its UTF-8 bytes.  Decoding a byte string gives the
    text when the bytes are well-formed UTF-8 and raises
    [UnicodeDecodeError] otherwise. *)

Definition byte_in (lo hi : nat) (c : ascii) : bool :=
  let n := nat_of_ascii c in
  Nat.leb lo n && Nat.leb n hi.

(** Well-formed UTF-8, as Python's strict decoder accepts it: no overlong
    forms, no surrogates, nothing above U+10FFFF. *)
Fixpoint utf8_valid (s : string) : bool :=
  match s with
  | EmptyString => true
  | String c0 s1 =>
      if byte_in 0 127 c0 then utf8_valid s1
      else
        match s1 with
        | EmptyString => false
        | String c1 s2 =>
            if byte_in 194 223 c0 then byte_in 128 191 c1 && utf8_valid s2
            else
              match s2 with
              | EmptyString => false
              | String c2 s3 =>
                  if byte_in 224 239 c0 then
                    (if byte_in 224 224 c0 then byte_in 160 191 c1
                     else if byte_in 237 237 c0 then byte_in 128 159 c1
                     else byte_in 128 191 c1)
                    && byte_in 128 191 c2 && utf8_valid s3
                  else
                    match s3 with
                    | EmptyString => false
                    | String c3 s4 =>
                        byte_in 240 244 c0
                        && (if byte_in 240 240 c0 then byte_in 144 191 c1
                            else if byte_in 244 244 c0 then byte_in 128 143 c1
                            else byte_in 128 191 c1)
                        && byte_in 128 191 c2 && byte_in 128 191 c3
                        && utf8_valid s4
                    end
              end
        end
  end.

Definition utf8_decode (b : string) : result string :=
  if utf8_valid b then Ok b else Raise UnicodeDecodeError.

(** [tf.compat.as_text] on a byte string. *)
Definition as_text (b : string) : result string := utf8_decode b.

(** [b2u] on a byte string: [six.text_type(b, 'utf8')]. *)
Definition b2u_bytes (b : string) : result string := utf8_decode b.

(** ** Saving the vocabulary ([save_vocab]) *)

Definition LF : ascii := ascii_of_nat 10.

(** The loop [for i in xrange(opts.vocab_size)] appending to the text file
    [f].  The file is opened in text mode with the encoding of the locale,
    taken to be UTF-8, so that the text of a word is written as its UTF-8
    bytes (for a word of ASCII text every ASCII-compatible encoding writes
    the same bytes). *)
Fixpoint save_vocab_loop (range : list nat) (vocab_words : list string)
    (vocab_counts : list Z) (f : string) : result string :=
  match range with
  | [] => Ok f
  | i :: range' =>
      word ← index vocab_words i;
      vocab_word ← as_text word;
      count ← index vocab_counts i;
      save_vocab_loop range' vocab_words vocab_counts
        (f ++ (vocab_word ++ " " ++ format_d count ++ String LF ""))%string
  end.

(** The contents of [vocab.txt] after [save_vocab]. *)
Definition save_vocab (vocab_words : list string) (vocab_counts : list Z)
  : result string :=
  let vocab_size := length vocab_words in
  save_vocab_loop (seq 0 vocab_size) vocab_words vocab_counts "".






(** [c] occurs in [s]. *)
Fixpoint has_char (c : ascii) (s : string) : bool :=
  match s with
  | EmptyString => false
  | String c' s' => Ascii.eqb c' c || has_char c s'
  end.

(** ** The evaluation graph ([build_eval_graph]) *)

(** The scalar arithmetic of the tensors.  The graph is float32 in the
    source; the embedding is generic in the scalar type so that it can be
    run on exact numbers. *)
Class Scalar (F : Type) : Type := {
  fzero : F;
  fadd : F -> F -> F;
  fsub : F -> F -> F;
  fmul : F -> F -> F;
  fmaximum : F -> F -> F;
  frsqrt : F -> F;
  fepsilon : F;
  fleb : F -> F -> bool
}.

(** The order facts the ranking needs (they hold for floats without NaN). *)
Class ScalarOrder (F : Type) `{Scalar F} : Prop := {
  fleb_total : forall x y : F, fleb x y = true \/ fleb y x = true;
  fleb_trans : forall x y z : F,
      fleb x y = true -> fleb y z = true -> fleb x z = true
}.

Section Graph.
Context {F : Type} `{Scalar F}.

Definition reduce_sum (v : list F) : F := fold_left fadd v fzero.

(** [tf.nn.l2_normalize(x, 1)] on one row:
    [x * rsqrt(maximum(sum(square(x)), epsilon))]. *)
Definition l2_normalize_row (row : list F) : list F :=
  let inv_norm :=
    frsqrt (fmaximum (reduce_sum (map (fun x => fmul x x) row)) fepsilon) in
  map (fun x => fmul x inv_norm) row.

Definition l2_normalize (m : list (list F)) : list (list F) :=
  map l2_normalize_row m.

(** [tf.gather(params, ids)]; an id out of range is an error. *)
Fixpoint gather (params : list (list F)) (ids : list nat)
  : result (list (list F)) :=
  match ids with
  | [] => Ok []
  | i :: ids' =>
      row ← match params !! i with
            | Some row => Ok row
            | None => Raise InvalidArgumentError
            end;
      rows ← gather params ids';
      Ok (row :: rows)
  end.

Definition vadd (u v : list F) : list F := zip_with fadd u v.
Definition vsub (u v : list F) : list F := zip_with fsub u v.
Definition dot (u v : list F) : F := reduce_sum (zip_with fmul u v).

(** [tf.matmul(a, b, transpose_b=True)]. *)
Definition matmul_transpose_b (a b : list (list F)) : list (list F) :=
  map (fun u => map (fun v => dot u v) b) a.

(** Descending insertion; on equal values the entry already present (the
    lower index) stays first. *)
Fixpoint insert_desc (x : nat * F) (l : list (nat * F)) : list (nat * F) :=
  match l with
  | [] => [x]
  | y :: l' =>
      if fleb x.2 y.2 then y :: insert_desc x l'
      else x :: l
  end.

Definition sort_desc (row : list F) : list (nat * F) :=
  fold_left (fun acc x => insert_desc x acc)
            (zip (seq 0 (length row)) row) [].

(** [tf.nn.top_k(row, k)]: values and indices of the [k] largest entries,
    largest first; fewer than [k] columns is an error. *)
Definition top_k_row (k : nat) (row : list F)
  : result (list F * list nat) :=
  if Nat.leb k (length row) then
    let best := firstn k (sort_desc row) in
    Ok (map snd best, map fst best)
  else Raise InvalidArgumentError.

Fixpoint top_k (k : nat) (m : list (list F))
  : result (list (list F) * list (list nat)) :=
  match m with
  | [] => Ok ([], [])
  | row :: m' =>
      '(v, i) ← top_k_row k row;
      '(vs, js) ← top_k k m';
      Ok (v :: vs, i :: js)
  end.

(** [analogy[:, j]]. *)
Fixpoint column (j : nat) (m : list (list nat)) : result (list nat) :=
  match m with
  | [] => Ok []
  | row :: m' =>
      x ← index row j;
      xs ← column j m';
      Ok (x :: xs)
  end.

(** The target of one batch: [c_emb + (b_emb - a_emb)], row by row. *)
Definition target_rows (a_emb b_emb c_emb : list (list F))
  : list (list F) :=
  zip_with vadd c_emb (zip_with vsub b_emb a_emb).

(** The fetch of [pred_idx] for fed [analogy_a], [analogy_b],
    [analogy_c]. *)
Definition analogy_pred_idx (w_in : list (list F))
    (analogy_a analogy_b analogy_c : list nat) : result (list (list nat)) :=
  let nemb := l2_normalize w_in in
  a_emb ← gather nemb analogy_a;
  b_emb ← gather nemb analogy_b;
  c_emb ← gather nemb analogy_c;
  let target := target_rows a_emb b_emb c_emb in
  let dist := matmul_transpose_b target nemb in
  '(_, pred_idx) ← top_k ANALOGY_COUNT dist;
  Ok pred_idx.

(** [_predict]. *)
Definition _predict (w_in : list (list F)) (analogy : list (list nat))
  : result (list (list nat)) :=
  a ← column 0 analogy;
  b ← column 1 analogy;
  c ← column 2 analogy;
  analogy_pred_idx w_in a b c.

(** The fetch of [(nearby_val, nearby_idx)] for a fed [nearby_word]. *)
Definition nearby_run (w_in : list (list F)) (vocab_size : nat)
    (nearby_word : list nat) : result (list (list F) * list (list nat)) :=
  let nemb := l2_normalize w_in in
  nearby_emb ← gather nemb nearby_word;
  let nearby_dist := matmul_transpose_b nearby_emb nemb in
  top_k (Nat.min 1000 vocab_size) nearby_dist.

(** The part of a [Word2Vec] object the queries read. *)
Record Word2Vec : Type := {
  _id2word : list string;
  _word2id : gmap string nat;
  _w_in : list (list F)
}.

(** [self._word2id.get(w, 0)]. *)
Definition word2id_get0 (m : Word2Vec) (w : string) : nat :=
  default 0%nat (_word2id m !! w).

Fixpoint id2word_all (m : Word2Vec) (ids : list nat) : result (list string) :=
  match ids with
  | [] => Ok []
  | i :: ids' =>
      w ← index (_id2word m) i;
      ws ← id2word_all m ids';
      Ok (w :: ws)
  end.

(** [[b2u(w) for w in words]]: the first word that is not UTF-8 raises. *)
Fixpoint b2u_all (words : list string) : result (list string) :=
  match words with
  | [] => Ok []
  | w :: words' =>
      t ← b2u_bytes w;
      ts ← b2u_all words';
      Ok (t :: ts)
  end.

(** [analogy]: the returned pair [(id_list, words)].  The query words are
    byte strings, as in the usage the flags describe
    ([model.analogy(b'france', b'paris', b'russia')]): [u2b] returns byte
    strings as they are, and a word given as text is its UTF-8 bytes (text
    that cannot be encoded is outside the model).  The predicted words are
    decoded for printing and once more for the result. *)
Definition analogy (m : Word2Vec) (w0 w1 w2 : string)
  : result (list nat * list string) :=
  let wid := [map (word2id_get0 m) [w0; w1; w2]] in
  idx ← _predict (_w_in m) wid;
  id_list ← index idx 0%nat;
  words ← id2word_all m id_list;
  _ ← b2u_all words;
  texts ← b2u_all words;
  Ok (id_list, texts).

(** The lines [nearby] prints for one word: the first [num] (neighbour,
    distance) pairs, every neighbour decoded by [b2u]. *)
Fixpoint nearby_rows (m : Word2Vec) (pairs : list (nat * F))
  : result (list (string * F)) :=
  match pairs with
  | [] => Ok []
  | (neighbor, distance) :: rest =>
      w ← index (_id2word m) neighbor;
      t ← b2u_bytes w;
      ws ← nearby_rows m rest;
      Ok ((t, distance) :: ws)
  end.

(** [for i in xrange(len(words))]: the query word is decoded by [b2u] for
    its heading, then its rows are printed. *)
Fixpoint nearby_loop (m : Word2Vec) (range : list nat) (words : list string)
    (vals : list (list F)) (idx : list (list nat)) (num : nat)
  : result (list (string * list (string * F))) :=
  match range with
  | [] => Ok []
  | i :: range' =>
      w ← index words i;
      t ← b2u_bytes w;
      idx_i ← index idx i;
      vals_i ← index vals i;
      rows ← nearby_rows m (zip (firstn num idx_i) (firstn num vals_i));
      rest ← nearby_loop m range' words vals idx num;
      Ok ((t, rows) :: rest)
  end.

(** [nearby]: what it prints, per query word.  The query words are byte
    strings ([model.nearby([b'proton', b'elephant', b'maxwell'])]), which
    [u2b] returns as they are; a word given as text is its UTF-8 bytes. *)
Definition nearby (m : Word2Vec) (words : list string) (num : nat)
  : result (list (string * list (string * F))) :=
  let ids := map (word2id_get0 m) words in
  '(vals, idx) ← nearby_run (_w_in m) (length (_id2word m)) ids;
  nearby_loop m (seq 0 (length words)) words vals idx num.

End Graph.

Arguments Word2Vec F : clear implicits.

(** ** Concrete runs *)

(** The defaults of the [flags.DEFINE_*] declarations, with the two
    required paths given. *)
Definition example_flags : Flags :=
    {| FLAGS_save_path := "savedata"; FLAGS_load_data := false;
       FLAGS_resume := false; FLAGS_dry_run := false;
       FLAGS_train_data := Some "text8"; FLAGS_eval_data := Some "questions.txt";
       FLAGS_embedding_size := 200; FLAGS_epochs_to_train := 15;
       FLAGS_learning_rate := 25 # 1000; FLAGS_num_neg_samples := 25;
       FLAGS_batch_size := 500; FLAGS_concurrent_steps := 12;
       FLAGS_window_size := 5; FLAGS_min_count := 5;
       FLAGS_subsample := 1 # 1000; FLAGS_interactive := None |}.

Definition lr_example_opts : Options := Options_init example_flags.

(** ** The scoring rule in the words of the specification *)

(** A prediction is known when it is [a], [b] or [c]. *)
Definition known (a b c p : nat) : bool :=
  bool_decide (p = a \/ p = b \/ p = c).

(** The number of entries of [l] that satisfy [f]. *)
Definition count_if (f : nat -> bool) (l : list nat) : nat :=
  length (List.filter f l).


(** A vocabulary of fourteen words, [UNK] first. *)
Definition example_id2word : list string :=
  ["UNK"; "italy"; "rome"; "france"; "paris"; "germany"; "berlin"; "spain";
   "madrid"; "japan"; "the"; "of"; "and"; "in"].

Definition example_word2id : gmap string nat := build_word2id example_id2word.

Definition with_newline (s : string) : string := (s ++ String LF "")%string.

(** A question file: a header, four questions (the last one with a word
    that is not in the vocabulary) and a blank line. *)
Definition example_lines : list string :=
  map with_newline
      [": capitals"; "italy rome france paris"; "italy rome germany berlin";
       ""; "italy rome spain madrid"; "italy rome japan tokyo"].

(** Predictions given as a table: [paris] first for the first question;
    for the second a miss, the known [germany], a miss, then [berlin];
    four unrelated words otherwise. *)
Definition example_predict (sub : list (list nat)) : result (list (list nat)) :=
  Ok (map (fun q =>
             match q with
             | [1; 2; 3; 4] => [4; 10; 11; 12]
             | [1; 2; 5; 6] => [10; 5; 11; 6]
             | _ => [10; 11; 12; 13]
             end%nat) sub).


(** ** Question lines in the words of the specification *)

(** Python's [bytes.split()]: the maximal runs of non-whitespace bytes. *)
Fixpoint spec_words (s : string) : list string :=
  match s with
  | EmptyString => []
  | String c s' =>
      if is_space c then spec_words s'
      else match s' with
           | EmptyString => [String c EmptyString]
           | String c' _ =>
               if is_space c' then String c EmptyString :: spec_words s'
               else match spec_words s' with
                    | w :: ws => String c w :: ws
                    | [] => [String c EmptyString]
                    end
           end
  end.

(** A line is ignored when, stripped, it is blank or begins with [:]. *)
Definition spec_ignored (line : string) : bool :=
  is_empty (strip line) || startswith ":" (strip line).

(** A line is a question when, stripped and lower-cased, it is cut by
    single spaces into exactly four pieces, each (stripped) a vocabulary
    word; the question is the four ids. *)
Definition spec_question (word2id : gmap string nat) (line : string)
  : option (list nat) :=
  match split " " (lower (strip line)) with
  | [w0; w1; w2; w3] =>
      match word2id !! strip w0, word2id !! strip w1,
            word2id !! strip w2, word2id !! strip w3 with
      | Some i0, Some i1, Some i2, Some i3 => Some [i0; i1; i2; i3]
      | _, _, _, _ => None
      end
  | _ => None
  end.

Definition spec_is_question (word2id : gmap string nat) (line : string) : bool :=
  match spec_question word2id line with Some _ => true | None => false end.


(** A question written with two spaces after its first word. *)
Definition double_space_line : string :=
  with_newline "italy  rome france paris".

(** A question written with capital letters. *)
Definition capitalized_line : string :=
  with_newline "Italy Rome France Paris".

(** Two numbered question files, [questions-1.txt] and [questions-2.txt]. *)
Definition example_fs : gmap string node :=
  <["questions-1.txt" := File example_lines]>
    (<["questions-2.txt" := File [double_space_line]]> ∅).


(** The text of a file made of the given lines, each ended by a newline. *)
Fixpoint unlines (ls : list string) : string :=
  match ls with
  | [] => EmptyString
  | l :: ls' => (l ++ String LF (unlines ls'))%string
  end.

(** The line of one vocabulary entry: the word, a space, the count. *)
Definition vocab_line (wc : string * Z) : string :=
  (wc.1 ++ " " ++ format_d wc.2)%string.

(** The numbered path of the example pattern [questions-%d.txt]. *)
Definition example_paths (i : Z) : string :=
  ("questions-" ++ (format_d i ++ ".txt"))%string.

(** The bytes of a printed number are digits, after an optional sign. *)
Definition is_digit_or_sign (c : ascii) : bool :=
  let n := nat_of_ascii c in
  Nat.eqb n 45 || (Nat.leb 48 n && Nat.leb n 57).

Fixpoint all_chars (f : ascii -> bool) (s : string) : bool :=
  match s with
  | EmptyString => true
  | String c s' => f c && all_chars f s'
  end.


(** A word as the corpus tokenizer yields it: no whitespace byte. *)
Definition no_space (w : string) : bool :=
  all_chars (fun c => negb (is_space c)) w.

(** Counts for the example vocabulary. *)
Definition example_counts : list Z :=
  [7; 120; 90; 85; 60; 44; 40; 31; 30; 12; 11; 9; 8; 5].


(** ** Ranking in the words of the specification *)

Section Ranking.
Context {F : Type} `{Scalar F}.

(** These definitions follow the words of the specification and use no
    definition of the graph above: they are what the graph is compared
    with. *)

(** The sum of the squares of the entries of a row, added to [acc] from the
    left. *)
Fixpoint sum_squares (acc : F) (row : list F) : F :=
  match row with
  | [] => acc
  | x :: row' => sum_squares (fadd acc (fmul x x)) row'
  end.

(** A row scaled to unit L2 norm: every entry times the reciprocal square
    root of the sum of squares (kept above [fepsilon], as
    [tf.nn.l2_normalize] does for a row of zeros). *)
Definition unit_row (row : list F) : list F :=
  let scale := frsqrt (fmaximum (sum_squares fzero row) fepsilon) in
  map (fun x => fmul x scale) row.

(** The dot product of two vectors, added to [acc] from the left. *)
Fixpoint inner (acc : F) (u v : list F) : F :=
  match u, v with
  | x :: u', y :: v' => inner (fadd acc (fmul x y)) u' v'
  | _, _ => acc
  end.

(** [c + (b - a)], entry by entry. *)
Fixpoint target_entries (a b c : list F) : list F :=
  match a, b, c with
  | x :: a', y :: b', z :: c' => fadd z (fsub y x) :: target_entries a' b' c'
  | _, _, _ => []
  end.

(** The target of a question [a b c ...]: [norm(c) + (norm(b) - norm(a))]
    on the rows of the input embedding matrix. *)
Definition spec_target (w_in : list (list F)) (q : list nat) : list F :=
  target_entries (unit_row (nth (nth 0 q 0%nat) w_in []))
                 (unit_row (nth (nth 1 q 0%nat) w_in []))
                 (unit_row (nth (nth 2 q 0%nat) w_in [])).

(** The score of every vocabulary row for a question: the dot product of
    the target with the normalized row. *)
Definition spec_scores (w_in : list (list F)) (q : list nat) : list F :=
  map (fun row => inner fzero (spec_target w_in q) (unit_row row)) w_in.

(** The scores [nearby] ranks for the word of row [i]: the dot products of
    its normalized row with every normalized row. *)
Definition nearby_scores (w_in : list (list F)) (i : nat) : list F :=
  map (fun row => inner fzero (unit_row (nth i w_in [])) (unit_row row)) w_in.

(** [pred] lists the [k] best indices of [scores], best first. *)
Definition is_top_k (k : nat) (scores : list F) (pred : list nat) : Prop :=
  length pred = k
  /\ NoDup pred
  /\ (forall i, i ∈ pred -> (i < length scores)%nat)
  /\ (forall m n i j si sj,
        (m < n)%nat -> pred !! m = Some i -> pred !! n = Some j ->
        scores !! i = Some si -> scores !! j = Some sj ->
        fleb sj si = true)
  /\ (forall i j si sj,
        i ∈ pred -> j ∉ pred ->
        scores !! i = Some si -> scores !! j = Some sj ->
        fleb sj si = true).

End Ranking.

(** ** An exact scalar instance *)

(** [1 / sqrt q] on positive rationals, to six decimal places (the exact
    value is not rational in general). *)
Definition Qrsqrt (q : Q) : Q :=
  match Qnum q with
  | Zpos n => Z.sqrt (Zpos (Qden q) * 10 ^ 12 / Zpos n) # 1000000
  | _ => 0
  end.

#[export] Instance Q_Scalar : Scalar Q := {|
  fzero := 0%Q;
  fadd := Qplus;
  fsub := Qminus;
  fmul := Qmult;
  fmaximum := Qmax;
  frsqrt := Qrsqrt;
  fepsilon := (1 # 1000000000000)%Q;
  fleb := Qle_bool
|}.


(** A five-word model with two-dimensional embeddings in which
    [france - italy + rome] points at [paris]. *)
Definition small_id2word : list string :=
  ["UNK"; "paris"; "france"; "rome"; "italy"].

Definition small_w_in : list (list Q) :=
  [[1; -1]; [-1; 5]; [0; 1]; [1; 1]; [1; 0]]%Q.

Definition small_model : Word2Vec Q := {|
  _id2word := small_id2word;
  _word2id := build_word2id small_id2word;
  _w_in := small_w_in
|}.


(** ** Invariants of the evaluation *)

(** The dict has the keys [0 .. n-1]. *)
Definition has_keys (n : nat) (d : gmap nat Z) : Prop :=
  forall i, (i < n)%nat -> is_Some (d !! i).

(** What [eval] needs of [_predict] on the questions satisfying [P]: one
    row of [ANALOGY_COUNT] predictions for each question of the batch. *)
Definition predicts_rows (P : list nat -> Prop)
    (_predict : list (list nat) -> result (list (list nat))) : Prop :=
  forall sub, Forall P sub ->
    exists idx, _predict sub = Ok idx
                /\ Forall2 (fun _ p => length p = ANALOGY_COUNT) sub idx.

(** A question array as [read_file] builds it: four ids per row. *)
Definition four_ids (P : list nat -> Prop) (questions : list (list nat)) : Prop :=
  Forall (fun q => P q /\ length q = 4%nat) questions.

(** The sum of a list of integers. *)
Definition sum_Z (l : list Z) : Z := foldr Z.add 0 l.


(** What a report says of its block: the denominator is the number of
    questions, every question is counted once in the skip histogram, the
    hits and the accuracy stay within their range, and there is one
    percentage per bucket and per positive skip count. *)
Definition report_of (questions : list (list nat)) (r : block_report) : Prop :=
  rep_total r = Z.of_nat (length questions)
  /\ dict_sum (rep_skips_map r) = rep_total r
  /\ rep_guessed r = dict_sum (rep_correct r)
  /\ 0 <= rep_guessed r <= rep_total r
  /\ (0 <= rep_accuracy r <= 100)%Q
  /\ length (rep_accuracy_list r) = ANALOGY_COUNT
  /\ length (rep_skips_list r) = ANALOGY_COUNT.


(** A question row whose first three ids are rows of a matrix with
    [vocab_size] rows. *)
Definition ids_in_range (vocab_size : nat) (q : list nat) : Prop :=
  (3 <= length q)%nat
  /\ (nth 0 q 0 < vocab_size)%nat
  /\ (nth 1 q 0 < vocab_size)%nat
  /\ (nth 2 q 0 < vocab_size)%nat.


(** A question file for the five-word model: a header, a question and a
    line with a word the model does not have. *)
Definition small_lines : list string :=
  map with_newline
      [": capitals"; "italy rome france paris"; "italy rome france berlin"].

(** A run of [main] on counters: the model is the number of epochs it was
    trained for, and the checkpoint store lists the models saved. *)
Definition counter_new (_ : Options) : result nat := Ok 0%nat.
Definition counter_restore (st : list nat) (_ : string) (m : nat) : result nat :=
  Ok (hd m st).
Definition counter_save (m : nat) (_ : string) (st : list nat) : list nat :=
  m :: st.
Definition counter_eval (_ : nat) : result unit := Ok tt.
Definition counter_train (m : nat) : result nat := Ok (S m).
Definition counter_shell (_ : nat) : result unit := Ok tt.

(** The example flags with [load_data] set. *)
Definition load_flags : Flags :=
    {| FLAGS_save_path := "savedata"; FLAGS_load_data := true;
       FLAGS_resume := false; FLAGS_dry_run := false;
       FLAGS_train_data := Some "text8"; FLAGS_eval_data := Some "questions.txt";
       FLAGS_embedding_size := 200; FLAGS_epochs_to_train := 15;
       FLAGS_learning_rate := 25 # 1000; FLAGS_num_neg_samples := 25;
       FLAGS_batch_size := 500; FLAGS_concurrent_steps := 12;
       FLAGS_window_size := 5; FLAGS_min_count := 5;
       FLAGS_subsample := 1 # 1000; FLAGS_interactive := None |}.


(** ** Text-mode helpers ([input/freq.py]) *)

(** Text is modelled by its bytes, which is exact for ASCII text. *)
Definition ascii_text (s : string) : bool :=
  all_chars (fun c => Nat.ltb (nat_of_ascii c) 128) s.

(** [str.isspace] on ASCII: space, \t, \n, \v, \f, \r and the separators
    \x1c to \x1f. *)
Definition str_is_space (c : ascii) : bool :=
  let n := nat_of_ascii c in
  Nat.eqb n 32 || (Nat.leb 9 n && Nat.leb n 13) || (Nat.leb 28 n && Nat.leb n 31).

Fixpoint str_lstrip (s : string) : string :=
  match s with
  | EmptyString => EmptyString
  | String c s' => if str_is_space c then str_lstrip s' else s
  end.

Fixpoint str_rstrip (s : string) : string :=
  match s with
  | EmptyString => EmptyString
  | String c s' =>
      match str_rstrip s' with
      | EmptyString => if str_is_space c then EmptyString else String c EmptyString
      | r => String c r
      end
  end.

(** [str.strip()]. *)
Definition str_strip (s : string) : string := str_lstrip (str_rstrip s).

(** [str.split()]: the maximal runs of non-whitespace characters. *)
Fixpoint str_split (s : string) : list string :=
  match s with
  | EmptyString => []
  | String c s' =>
      if str_is_space c then str_split s'
      else match s' with
           | EmptyString => [String c EmptyString]
           | String c' _ =>
               if str_is_space c' then String c EmptyString :: str_split s'
               else match str_split s' with
                    | w :: ws => String c w :: ws
                    | [] => [String c EmptyString]
                    end
           end
  end.

Definition CR : ascii := ascii_of_nat 13.

(** The lines a text-mode file yields (universal newlines): a line ends at
    \n, \r\n or \r, and its terminator is read as \n. *)
Fixpoint universal_lines (s : string) : list string :=
  match s with
  | EmptyString => []
  | String c s' =>
      if Ascii.eqb c LF then String LF EmptyString :: universal_lines s'
      else if Ascii.eqb c CR then
        match s' with
        | String c' s'' =>
            if Ascii.eqb c' LF then String LF EmptyString :: universal_lines s''
            else String LF EmptyString :: universal_lines s'
        | EmptyString => [String LF EmptyString]
        end
      else match universal_lines s' with
           | l :: ls => String c l :: ls
           | [] => [String c EmptyString]
           end
  end.

Definition digit_value (c : ascii) : option Z :=
  let n := nat_of_ascii c in
  if Nat.leb 48 n && Nat.leb n 57 then Some (Z.of_nat (n - 48)) else None.

(** The digits of [int(s)]: decimal digits, with single underscores allowed
    between two digits. *)
Fixpoint int_digits (s : string) (acc : Z) (after_digit : bool) : option Z :=
  match s with
  | EmptyString => if after_digit then Some acc else None
  | String c s' =>
      match digit_value c with
      | Some d => int_digits s' (10 * acc + d) true
      | None =>
          if Ascii.eqb c "_" && after_digit
          then int_digits s' acc false
          else None
      end
  end.

(** [int(s)] on a token without whitespace: an optional sign, then the
    digits; [None] stands for [ValueError]. *)
Definition py_int (s : string) : option Z :=
  match s with
  | String "-" r => option_map Z.opp (int_digits r 0 false)
  | String "+" r => int_digits r 0 false
  | _ => int_digits s 0 false
  end.

Inductive get_nums_error : Type :=
| NumIndexError
| NumValueError.

(** [int(s.strip().split()[-1])] for one line. *)
Definition line_num (s : string) : get_nums_error + Z :=
  match last (str_split (str_strip s)) with
  | None => inl NumIndexError
  | Some token =>
      match py_int token with
      | Some n => inr n
      | None => inl NumValueError
      end
  end.

Fixpoint line_nums (lines : list string) : get_nums_error + list Z :=
  match lines with
  | [] => inr []
  | s :: rest =>
      match line_num s with
      | inl e => inl e
      | inr n =>
          match line_nums rest with
          | inl e => inl e
          | inr ns => inr (n :: ns)
          end
      end
  end.

(** [get_nums] on the contents of the file at [path]. *)
Definition get_nums (content : string) : get_nums_error + list Z :=
  match line_nums (universal_lines content) with
  | inl e => inl e
  | inr nums => inr (drop 1 nums)
  end.

(** The value of a decimal numeral read from the left, after [acc]. *)
Fixpoint uint_value (acc : Z) (d : Decimal.uint) : Z :=
  match d with
  | Decimal.Nil => acc
  | Decimal.D0 d' => uint_value (10 * acc) d'
  | Decimal.D1 d' => uint_value (10 * acc + 1) d'
  | Decimal.D2 d' => uint_value (10 * acc + 2) d'
  | Decimal.D3 d' => uint_value (10 * acc + 3) d'
  | Decimal.D4 d' => uint_value (10 * acc + 4) d'
  | Decimal.D5 d' => uint_value (10 * acc + 5) d'
  | Decimal.D6 d' => uint_value (10 * acc + 6) d'
  | Decimal.D7 d' => uint_value (10 * acc + 7) d'
  | Decimal.D8 d' => uint_value (10 * acc + 8) d'
  | Decimal.D9 d' => uint_value (10 * acc + 9) d'
  end.

(** A word that cannot end a line: no \n and no \r in it. *)
Definition no_newline (w : string) : bool :=
  negb (has_char LF w) && negb (has_char CR w).


(** ** Bytes and text ([u2b], [b2u]) *)

Section Codec.
(** Text ([six.text_type]) and its UTF-8 codec are Python's;
    [None] stands for a [UnicodeError]. *)
Variable text : Type.
Variable to_utf : text -> option string.
Variable from_utf : string -> option text.

(** The values the two functions take: bytes, text, or a list of such. *)
#[local] Unset Elimination Schemes.
Inductive pyval : Type :=
| PBytes (b : string)
| PText (t : text)
| PList (l : list pyval).
#[local] Set Elimination Schemes.

(** [[f(s) for s in l]] where [f] may raise. *)
Fixpoint map_opt {A B} (f : A -> option B) (l : list A) : option (list B) :=
  match l with
  | [] => Some []
  | x :: l' =>
      match f x with
      | Some y =>
          match map_opt f l' with
          | Some ys => Some (y :: ys)
          | None => None
          end
      | None => None
      end
  end.

Fixpoint u2b (s_or_l : pyval) : option pyval :=
  match s_or_l with
  | PBytes b => Some (PBytes b)
  | PText t => option_map PBytes (to_utf t)
  | PList l => option_map PList (map_opt u2b l)
  end.

Fixpoint b2u (s_or_l : pyval) : option pyval :=
  match s_or_l with
  | PText t => Some (PText t)
  | PBytes b => option_map PText (from_utf b)
  | PList l => option_map PList (map_opt b2u l)
  end.

(** No text (no bytes) is left anywhere in a value. *)
Fixpoint only_bytes (v : pyval) : bool :=
  match v with
  | PBytes _ => true
  | PText _ => false
  | PList l => forallb only_bytes l
  end.

Fixpoint only_text (v : pyval) : bool :=
  match v with
  | PBytes _ => false
  | PText _ => true
  | PList l => forallb only_text l
  end.

(** The number of constructors of a value, for inductions. *)
Fixpoint pyval_size (v : pyval) : nat :=
  match v with
  | PBytes _ => 1
  | PText _ => 1
  | PList l => S (fold_right (fun x n => (pyval_size x + n)%nat) 0%nat l)
  end.

End Codec.

Arguments PBytes {text} b.
Arguments PText {text} t.
Arguments PList {text} l.


(** A toy codec for runs: text is ASCII text and its encoding is itself. *)
Definition ascii_to_utf (t : string) : option string :=
  if ascii_text t then Some t else None.
Definition ascii_from_utf (b : string) : option string :=
  if ascii_text b then Some b else None.


(** ** Expanding question pairs ([input/convert_questions.py]) *)

(** The variables [flag], [text] and [header] of the script. *)
Record cq_state : Type := {
  cq_flag : Z;
  cq_text : list (list (list string));
  cq_header : list string
}.

(** The position [l[i]] reads for a Python index, which may be negative. *)
Definition py_position {A} (l : list A) (i : Z) : option nat :=
  let n := Z.of_nat (length l) in
  if 0 <=? i then (if i <? n then Some (Z.to_nat i) else None)
  else if 0 <=? n + i then Some (Z.to_nat (n + i)) else None.

(** [line[1:]]. *)
Definition str_tail (s : string) : string :=
  match s with
  | EmptyString => EmptyString
  | String _ r => r
  end.

(** The body of [for line in inp]. *)
Definition cq_line (st : cq_state) (line : string) : result cq_state :=
  let line := str_strip line in
  if is_empty line then Ok st
  else if startswith ":" line then
    Ok {| cq_flag := cq_flag st + 1;
          cq_text := cq_text st;
          cq_header := (cq_header st ++ [str_tail line])%list |}
  else
    let text :=
      if Z.of_nat (length (cq_text st)) - 1 <? cq_flag st
      then (cq_text st ++ [[]])%list else cq_text st in
    match py_position text (cq_flag st) with
    | None => Raise IndexError
    | Some k =>
        Ok {| cq_flag := cq_flag st;
              cq_text := alter (fun row => (row ++ [str_split line])%list) k text;
              cq_header := cq_header st |}
    end.

Fixpoint cq_read (lines : list string) (st : cq_state) : result cq_state :=
  match lines with
  | [] => Ok st
  | line :: rest => st' ← cq_line st line; cq_read rest st'
  end.

(** A [for] loop over a range whose body may raise. *)
Fixpoint for_range {S} (range : list nat) (body : nat -> S -> result S)
    (s : S) : result S :=
  match range with
  | [] => Ok s
  | i :: range' => s' ← body i s; for_range range' body s'
  end.

(** The body of the innermost loop, [for y in range(len(text[t]))]. *)
Definition cq_pair (text : list (list (list string))) (t x y : nat)
    (res : list (list (list string))) : result (list (list (list string))) :=
  if Nat.eqb x y then Ok res
  else
    let res1 :=
      if Z.of_nat (length res) - 1 <? Z.of_nat t
      then (res ++ [[]])%list else res in
    row ← index text t;
    a ← index row x;
    b ← index row y;
    match res1 !! t with
    | None => Raise IndexError
    | Some _ => Ok (alter (fun r => (r ++ [(a ++ b)%list])%list) t res1)
    end.

(** The body of the outer loop: the loops over [x] and [y] for one [t]. *)
Definition cq_rows (text : list (list (list string))) (t : nat)
    (res : list (list (list string))) : result (list (list (list string))) :=
  row ← index text t;
  for_range (seq 0 (length row))
    (fun x res =>
       for_range (seq 0 (length row)) (fun y res => cq_pair text t x y res) res)
    res.

(** The three nested loops that fill [res]. *)
Definition cq_pairs (text : list (list (list string)))
  : result (list (list (list string))) :=
  for_range (seq 0 (length text)) (cq_rows text) [].

(** [sep.join(l)]. *)
Fixpoint join (sep : string) (l : list string) : string :=
  match l with
  | [] => EmptyString
  | [s] => s
  | s :: l' => (s ++ sep ++ join sep l')%string
  end.

(** The writes of one round of [for r in range(len(res))]. *)
Definition cq_section (r : nat) (h : string) (questions : list (list string))
  : string :=
  ((if Nat.eqb r 0 then "" else String LF "")
   ++ ":" ++ h ++ String LF ""
   ++ join (String LF "") (map (join " ") questions)
   ++ String LF "")%string.

(** One round of [for r in range(len(res))]. *)
Definition cq_out (res : list (list (list string))) (header : list string)
    (r : nat) (out : string) : result string :=
  questions ← index res r;
  h ← index header r;
  Ok (out ++ cq_section r h questions)%string.

(** The text written to the output file. *)
Definition cq_write (res : list (list (list string))) (header : list string)
  : result string :=
  for_range (seq 0 (length res)) (cq_out res header) EmptyString.

(** The script, from the lines of [questions.txt] to the text of
    [questions_encode.txt]; the output is only written when the two
    passes before it did not raise. *)
Definition convert_questions (lines : list string) : result string :=
  st ← cq_read lines
         {| cq_flag := -1; cq_text := []; cq_header := [] |};
  res ← cq_pairs (cq_text st);
  cq_write res (cq_header st).

(** What a line of the input is to the script. *)
Inductive cq_item : Type :=
| CqBlank
| CqHeader (h : string)
| CqData (words : list string).

Definition cq_classify (line : string) : cq_item :=
  let line := str_strip line in
  if is_empty line then CqBlank
  else if startswith ":" line then CqHeader (str_tail line)
  else CqData (str_split line).

Definition cq_is_blank (i : cq_item) : bool :=
  match i with CqBlank => true | _ => false end.

(** The items of a section: its header, then its lines. *)
Definition section_items (sec : string * list (list string)) : list cq_item :=
  CqHeader sec.1 :: map CqData sec.2.

(** The input is made of the given sections, blank lines apart. *)
Definition made_of (lines : list string)
    (sections : list (string * list (list string))) : Prop :=
  List.filter (fun i => negb (cq_is_blank i)) (map cq_classify lines)
  = flat_map section_items sections.

(** All the ordered pairs of two different lines of a section, each pair
    joined into one list of words: first by the first line, then by the
    second. *)
Definition ordered_pairs (rows : list (list string)) : list (list string) :=
  flat_map
    (fun x => flat_map
                (fun y => if Nat.eqb x y then []
                          else [(nth x rows [] ++ nth y rows [])%list])
                (seq 0 (length rows)))
    (seq 0 (length rows)).

(** The output for sections that all have pairs. *)
Fixpoint render_from (r : nat) (sections : list (string * list (list string)))
  : string :=
  match sections with
  | [] => EmptyString
  | sec :: rest =>
      (cq_section r sec.1 (ordered_pairs sec.2) ++ render_from (S r) rest)%string
  end.


(** The loop body of the first pass, on the item a line stands for. *)
Definition cq_step (st : cq_state) (item : cq_item) : result cq_state :=
  match item with
  | CqBlank => Ok st
  | CqHeader h =>
      Ok {| cq_flag := cq_flag st + 1;
            cq_text := cq_text st;
            cq_header := (cq_header st ++ [h])%list |}
  | CqData words =>
      let text :=
        if Z.of_nat (length (cq_text st)) - 1 <? cq_flag st
        then (cq_text st ++ [[]])%list else cq_text st in
      match py_position text (cq_flag st) with
      | None => Raise IndexError
      | Some k =>
          Ok {| cq_flag := cq_flag st;
                cq_text := alter (fun row => (row ++ [words])%list) k text;
                cq_header := cq_header st |}
      end
  end.

Fixpoint cq_items (items : list cq_item) (st : cq_state) : result cq_state :=
  match items with
  | [] => Ok st
  | item :: rest => st' ← cq_step st item; cq_items rest st'
  end.

(** [res] while a section is being filled: the finished sections, and the
    questions of the current one once there is a first one. *)
Definition res_with (done : list (list (list string)))
    (acc : list (list string)) : list (list (list string)) :=
  match acc with
  | [] => done
  | _ => (done ++ [acc])%list
  end.

(** The question added for the lines [x] and [y] of a section. *)
Definition pair_of (row : list (list string)) (x y : nat)
  : list (list string) :=
  if Nat.eqb x y then [] else [(nth x row [] ++ nth y row [])%list].


(** A [questions.txt] for the runs: two sections with pairs, a section of
    one line and a header without lines. *)
Definition questions_txt : list string :=
  map with_newline
      [": capitals"; "italy rome"; "france paris"; "germany berlin"; "";
       ": family"; "king queen"; "man woman";
       ": plural"; "dog dogs"; ": empty"].

Definition questions_good : list (string * list (list string)) :=
  [(" capitals", [["italy"; "rome"]; ["france"; "paris"]; ["germany"; "berlin"]]);
   (" family", [["king"; "queen"]; ["man"; "woman"]])].

Definition questions_short : list (string * list (list string)) :=
  [(" plural", [["dog"; "dogs"]])].

Definition questions_empty : list (string * list (list string)) :=
  [(" empty", [])].


(** ** From [questions_encode.txt] to [read_file] *)

(** The lines an iteration over a file opened in binary mode yields: a line
    ends after \n. *)
Fixpoint binary_lines (s : string) : list string :=
  match s with
  | EmptyString => []
  | String c s' =>
      if Ascii.eqb c LF then String LF EmptyString :: binary_lines s'
      else match binary_lines s' with
           | l :: ls => String c l :: ls
           | [] => [String c EmptyString]
           end
  end.

(** The ids of the words of a question. *)
Definition question_ids (word2id : gmap string nat) (q : list string)
  : list nat :=
  omap (fun w => word2id !! w) q.

(** The lines of the output for a section with pairs, and for a list of
    such sections. *)
Definition section_lines (r : nat) (sec : string * list (list string))
  : list string :=
  ((if Nat.eqb r 0 then [] else [String LF EmptyString])
   ++ with_newline (":" ++ sec.1)
   :: map (fun q => with_newline (join " " q)) (ordered_pairs sec.2))%list.

Fixpoint lines_from (r : nat) (sections : list (string * list (list string)))
  : list string :=
  match sections with
  | [] => []
  | sec :: rest => (section_lines r sec ++ lines_from (S r) rest)%list
  end.

(** A word as [read_file] needs it: not empty, without whitespace, in lower
    case and in the vocabulary. *)
Definition word_ok (word2id : gmap string nat) (w : string) : Prop :=
  w <> EmptyString /\ no_space w = true /\ lower w = w
  /\ is_Some (word2id !! w).

(** A question of four such words, the first not beginning with [:]. *)
Definition question_ok (word2id : gmap string nat) (q : list string) : Prop :=
  exists w0 w1 w2 w3,
    q = [w0; w1; w2; w3] /\ startswith ":" w0 = false
    /\ Forall (word_ok word2id) q.


(** A vocabulary with the words of the first two sections of
    [questions_txt]. *)
Definition questions_word2id : gmap string nat :=
  build_word2id
    ["UNK"; "italy"; "rome"; "france"; "paris"; "germany"; "berlin";
     "king"; "queen"; "man"; "woman"].


(** ** Cleaning the corpus ([input/convert_text.py]) *)

(** [\d] and [\w] on ASCII characters: the digits; the letters, the digits
    and the underscore. *)
Definition is_digit (c : ascii) : bool :=
  let n := nat_of_ascii c in
  Nat.leb 48 n && Nat.leb n 57.

Definition is_word_char (c : ascii) : bool :=
  let n := nat_of_ascii c in
  (Nat.leb 48 n && Nat.leb n 57) || (Nat.leb 65 n && Nat.leb n 90)
  || Nat.eqb n 95 || (Nat.leb 97 n && Nat.leb n 122).

(** The class [[\W\d]]. *)
Definition is_sep (c : ascii) : bool := negb (is_word_char c) || is_digit c.

(** [re.sub(r'[\W\d]+', ' ', s)]: every maximal run of characters of the
    class becomes one space; [in_run] tells that the character before was
    of the class. *)
Fixpoint re_sub_runs (in_run : bool) (s : string) : string :=
  match s with
  | EmptyString => EmptyString
  | String c s' =>
      if is_sep c then
        if in_run then re_sub_runs true s'
        else String " " (re_sub_runs true s')
      else String c (re_sub_runs false s')
  end.

(** The words the script keeps, and the text it writes to
    [text-words.txt], for the text read from [text.txt]. *)
Definition convert_text_words (content : string) : list string :=
  str_split (re_sub_runs false (str_strip (lower content))).

Definition convert_text (content : string) : string :=
  join " " (convert_text_words content).

(** A small letter or the underscore. *)
Definition is_lower_letter (c : ascii) : bool :=
  let n := nat_of_ascii c in
  (Nat.leb 97 n && Nat.leb n 122) || Nat.eqb n 95.

(** A text with capitals, digits, punctuation and line ends. *)
Definition text_txt : string :=
  "War and Peace, 1869.  " ++ String LF "" ++ "Well, Prince -- so Genoa"
  ++ String CR (String LF "") ++ "and Lucca are now just family_estates!"
  ++ String LF "".




(** ** Scoring without batches *)

(** The questions scored one after the other, each against the predictions
    made for it alone: the body of [for question in xrange(sub.shape[0])]
    of [eval], over a whole block. *)
Fixpoint score_all (answer : list nat -> list nat)
    (questions : list (list nat)) (correct skips_map : gmap nat Z)
  : result (gmap nat Z * gmap nat Z) :=
  match questions with
  | [] => Ok (correct, skips_map)
  | q :: rest =>
      '(skips, correct') ←
         scan (seq 0 ANALOGY_COUNT) (answer q) q 0%nat 0%nat correct;
      skips_map' ← dict_incr skips_map skips;
      score_all answer rest correct' skips_map'
  end.

(** The row ids [top_k] ranks first for one question. *)
Definition top4 {F : Type} `{Scalar F} (w_in : list (list F)) (q : list nat)
  : list nat :=
  map fst (firstn ANALOGY_COUNT (sort_desc (spec_scores w_in q))).

(** Three questions over the words of [small_model]. *)
Definition small_questions : list (list nat) :=
  [[4; 3; 2; 1]; [2; 1; 4; 3]; [1; 2; 3; 4]]%nat.



(** * Properties *)

(** ** Option resolution *)

(** C7: with [load_data] and without [resume], [epochs_to_train] becomes 0
    and an unset [interactive] becomes true (a set one is kept); after
    resolution [resume] implies [load_data]; in every other case
    [epochs_to_train] and [interactive] keep their configured values. *)
Theorem Options_init_modes (F : Flags) :
  let o := Options_init F in
  (FLAGS_load_data F = true /\ FLAGS_resume F = false ->
     epochs_to_train o = 0
     /\ (FLAGS_interactive F = None -> interactive o = Some true)
     /\ (forall b, FLAGS_interactive F = Some b -> interactive o = Some b))
  /\ (resume o = true -> load_data o = true)
  /\ (~ (FLAGS_load_data F = true /\ FLAGS_resume F = false) ->
        epochs_to_train o = FLAGS_epochs_to_train F
        /\ interactive o = FLAGS_interactive F)
  /\ (FLAGS_resume F = false -> load_data o = FLAGS_load_data F)
  /\ resume o = FLAGS_resume F.
Proof.
  destruct F as [sp ld rs dr td ed es ep lrate ns bs cs ws mc ss ia].
  cbn. destruct ld, rs; cbn; intuition (subst; try discriminate; try congruence).
Qed.

(** ** The checkpoint store across a run *)

Section MainFacts.
Variable model : Type.
Variable ckpt_store : Type.
Variable Word2Vec_new : Options -> result model.
Variable saver_restore : ckpt_store -> string -> model -> result model.
Variable saver_save : model -> string -> ckpt_store -> ckpt_store.
Variable model_eval : model -> result unit.
Variable model_train : model -> result model.
Variable start_shell : model -> result unit.

Lemma train_epochs_store (n : nat) (m : model) (st : ckpt_store) :
  (train_epochs model ckpt_store model_eval model_train n m st).2 = st.
Proof.
  revert m. induction n as [|n IH]; intros m; cbn; [reflexivity|].
  unfold pbind, plift.
  destruct (model_train m) as [m1| |]; cbn; try reflexivity.
  destruct (model_eval m1) as [[]| |]; cbn; try reflexivity.
  apply IH.
Qed.

(** C10: the store after [main] differs from the store before only by the
    final [saver.save], which runs only when the resolved
    [epochs_to_train] is positive and [dry_run] is off; a dry run and a
    [load_data] run without [resume] leave the store as it was. *)
Theorem main_checkpoint_frame (F : Flags) (st : ckpt_store) :
  let opts := Options_init F in
  let model_path := path_join (save_path opts) "model.ckpt" in
  let final :=
    (main model ckpt_store Word2Vec_new saver_restore saver_save
          model_eval model_train start_shell F st).2 in
  (final = st \/
     (0 < epochs_to_train opts /\ FLAGS_dry_run F = false /\
      exists m, final = saver_save m model_path st))
  /\ (FLAGS_dry_run F = true -> final = st)
  /\ (FLAGS_load_data F = true /\ FLAGS_resume F = false -> final = st)
  /\ (epochs_to_train opts <= 0 -> final = st).
Proof.
  intros opts model_path final.
  assert (Hopts : opts = Options_init F) by reflexivity.
  assert (Hpath : model_path = path_join (save_path opts) "model.ckpt")
    by reflexivity.
  assert (Hfinal : final =
    (main model ckpt_store Word2Vec_new saver_restore saver_save
          model_eval model_train start_shell F st).2) by reflexivity.
  clearbody final model_path opts.
  assert (Hmain :
    final = st \/
    ((0 <? epochs_to_train opts) && negb (FLAGS_dry_run F) = true /\
     exists m, final = saver_save m model_path st)).
  { subst final. unfold main.
    destruct (negb (truthy_string (FLAGS_train_data F))
              || negb (truthy_string (FLAGS_eval_data F))); [left; reflexivity|].
    rewrite <- Hopts, <- Hpath.
    unfold pbind, plift, pget, pret, pmodify.
    destruct (Word2Vec_new opts) as [m0| |]; cbn; try (left; reflexivity).
    destruct (load_data opts).
    - destruct (saver_restore st model_path m0) as [m1| |];
        try (left; reflexivity).
      destruct (model_eval m1) as [[]| |]; try (left; reflexivity).
      pose proof (train_epochs_store (Z.to_nat (epochs_to_train opts)) m1 st) as Hst.
      destruct (train_epochs model ckpt_store model_eval model_train
                  (Z.to_nat (epochs_to_train opts)) m1 st) as [[m2| |] st2];
        cbn in Hst; subst st2; try (left; reflexivity).
      destruct ((0 <? epochs_to_train opts) && negb (FLAGS_dry_run F)) eqn:Hc.
      + right. split; [reflexivity|]. exists m2.
        destruct (truthy_bool (interactive opts)); reflexivity.
      + left. destruct (truthy_bool (interactive opts)); reflexivity.
    - destruct (model_eval m0) as [[]| |]; try (left; reflexivity).
      pose proof (train_epochs_store (Z.to_nat (epochs_to_train opts)) m0 st) as Hst.
      destruct (train_epochs model ckpt_store model_eval model_train
                  (Z.to_nat (epochs_to_train opts)) m0 st) as [[m2| |] st2];
        cbn in Hst; subst st2; try (left; reflexivity).
      destruct ((0 <? epochs_to_train opts) && negb (FLAGS_dry_run F)) eqn:Hc.
      + right. split; [reflexivity|]. exists m2.
        destruct (truthy_bool (interactive opts)); reflexivity.
      + left. destruct (truthy_bool (interactive opts)); reflexivity. }
  split; [|split; [|split]].
  - destruct Hmain as [->|[Hc Hm]]; [left; reflexivity|right].
    apply andb_true_iff in Hc. destruct Hc as [Hc1 Hc2].
    apply Z.ltb_lt in Hc1. apply negb_true_iff in Hc2. auto.
  - intros Hd. destruct Hmain as [->|[Hc _]]; [reflexivity|].
    rewrite Hd in Hc. rewrite andb_false_r in Hc. discriminate.
  - intros [Hl Hr]. destruct Hmain as [->|[Hc _]]; [reflexivity|].
    rewrite Hopts in Hc. unfold Options_init in Hc. cbn in Hc.
    rewrite Hl, Hr in Hc. cbn in Hc. discriminate.
  - intros Hle. destruct Hmain as [->|[Hc _]]; [reflexivity|].
    apply andb_true_iff in Hc. destruct Hc as [Hc1 _].
    apply Z.ltb_lt in Hc1. lia.
Qed.

End MainFacts.

(** ** The learning-rate schedule *)

Lemma Qmult_max_distr_l (x a b : Q) :
  (0 <= x -> x * Qmax a b == Qmax (x * a) (x * b))%Q.
Proof.
  intros Hx.
  destruct (Q.max_spec_le a b) as [[Hab E]|[Hba E]]; rewrite E; symmetry.
  - apply Q.max_r. rewrite !(Qmult_comm x). apply Qmult_le_compat_r; assumption.
  - apply Q.max_l. rewrite !(Qmult_comm x). apply Qmult_le_compat_r; assumption.
Qed.

Lemma wrap_int64_small (z : Z) :
  - 2 ^ 63 <= z < 2 ^ 63 -> wrap_int64 z = z.
Proof.
  intros Hz. unfold wrap_int64. rewrite Z.mod_small by lia. lia.
Qed.

(** Below [2^63] the product is the mathematical one. *)
Lemma words_to_train_exact (opts : Options) (words_per_epoch : Z) :
  0 < words_per_epoch * epochs_to_train opts < 2 ^ 63 ->
  words_to_train opts words_per_epoch
  = inject_Z (words_per_epoch * epochs_to_train opts).
Proof.
  intros Hpos. unfold words_to_train. rewrite wrap_int64_small by lia.
  reflexivity.
Qed.

Lemma inject_Z_pos (z : Z) : 0 < z -> (0 < inject_Z z)%Q.
Proof. intros Hpos. change 0%Q with (inject_Z 0). rewrite <- Zlt_Qlt. exact Hpos. Qed.

Lemma lr_defined (opts : Options) (words_per_epoch total : Z) :
  0 < words_per_epoch * epochs_to_train opts < 2 ^ 63 ->
  lr opts words_per_epoch total =
  Some (learning_rate opts *
        Qmax (1 # 10000)
             (1 - inject_Z total
                  / inject_Z (words_per_epoch * epochs_to_train opts)))%Q.
Proof.
  intros Hpos. unfold lr. rewrite (words_to_train_exact _ _ Hpos).
  destruct (Qeq_bool (inject_Z (words_per_epoch * epochs_to_train opts)) 0)
    eqn:E; [|reflexivity].
  apply Qeq_bool_eq in E.
  pose proof (inject_Z_pos _ (proj1 Hpos)) as Hlt.
  rewrite E in Hlt. exfalso. exact (Qlt_irrefl 0 Hlt).
Qed.

Lemma decay_antitone (wtt : Q) (w1 w2 : Z) :
  (0 < wtt)%Q -> w1 <= w2 ->
  (1 - inject_Z w2 / wtt <= 1 - inject_Z w1 / wtt)%Q.
Proof.
  intros Hpos Hle.
  assert (Hdiv : (inject_Z w1 / wtt <= inject_Z w2 / wtt)%Q).
  { unfold Qdiv. apply Qmult_le_compat_r.
    - rewrite <- Zle_Qle. exact Hle.
    - apply Qlt_le_weak, Qinv_lt_0_compat, Hpos. }
  unfold Qminus. apply Qplus_le_r. apply Qopp_le_compat. exact Hdiv.
Qed.

(** C1 (as the code has it): while [words_per_epoch * epochs_to_train]
    stays below [2^63] (the product is an [int64]), the rate is the initial
    rate times [max(0.0001, 1 - progress)], that is
    [max(0.0001 * initial_lr, initial_lr * (1 - progress))]; it never drops
    below [0.0001 * initial_lr], and it is non-increasing in
    [total_words_processed]. *)
Theorem lr_schedule (opts : Options) (words_per_epoch : Z) :
  0 < words_per_epoch * epochs_to_train opts < 2 ^ 63 ->
  (0 <= learning_rate opts)%Q ->
  (forall total, exists v,
      lr opts words_per_epoch total = Some v
      /\ (v == Qmax (learning_rate opts * (1 # 10000))
                    (learning_rate opts *
                     (1 - inject_Z total /
                          inject_Z (words_per_epoch * epochs_to_train opts))))%Q
      /\ (learning_rate opts * (1 # 10000) <= v)%Q)
  /\ (forall total1 total2 v1 v2,
        total1 <= total2 ->
        lr opts words_per_epoch total1 = Some v1 ->
        lr opts words_per_epoch total2 = Some v2 ->
        (v2 <= v1)%Q).
Proof.
  intros Hpos Hlr.
  set (wtt := inject_Z (words_per_epoch * epochs_to_train opts)).
  assert (Hwtt : (0 < wtt)%Q) by (apply inject_Z_pos; exact (proj1 Hpos)).
  split.
  - intros total. eexists. split; [apply lr_defined; exact Hpos|].
    fold wtt.
    assert (E := Qmult_max_distr_l (learning_rate opts) (1 # 10000)
                   (1 - inject_Z total / wtt) Hlr).
    split.
    + exact E.
    + rewrite E. apply Q.le_max_l.
  - intros total1 total2 v1 v2 Hle H1 H2.
    rewrite lr_defined in H1, H2 by exact Hpos.
    injection H1 as <-. injection H2 as <-. fold wtt.
    rewrite !(Qmult_comm (learning_rate opts)).
    apply Qmult_le_compat_r; [|exact Hlr].
    apply Q.max_le_compat_l.
    apply decay_antitone; [exact Hwtt | exact Hle].
Qed.

(** The schedule at the default flags, 1000 words per epoch: the premises
    of [lr_schedule] hold and the rate after the last word is
    [0.025 * 0.0001]. *)
Lemma lr_schedule_witness :
  (exists v, lr lr_example_opts 1000 15000 = Some v
             /\ (learning_rate lr_example_opts * (1 # 10000) <= v)%Q)
  /\ (forall v1 v2,
        lr lr_example_opts 1000 0 = Some v1 ->
        lr lr_example_opts 1000 15000 = Some v2 -> (v2 <= v1)%Q).
Proof.
  assert (Hpos : 0 < 1000 * epochs_to_train lr_example_opts < 2 ^ 63)
    by (split; reflexivity).
  assert (Hlr : (0 <= learning_rate lr_example_opts)%Q) by discriminate.
  destruct (lr_schedule lr_example_opts 1000 Hpos Hlr) as [Hval Hmono].
  split.
  - destruct (Hval 15000) as [v [Hv [_ Hfloor]]]. exists v. split; assumption.
  - intros v1 v2 H1 H2. apply (Hmono 0 15000 v1 v2); [lia | exact H1 | exact H2].
Defined.

(** C1 as stated fails: at the default initial rate 0.025, once all
    [words_per_epoch * epochs_to_train] words are processed the code's
    rate is 0.0000025, below the stated floor 0.0001 and different from the
    stated formula. *)
Lemma lr_below_stated_floor :
  exists v, lr lr_example_opts 1000 15000 = Some v
            /\ (v < 1 # 10000)%Q
            /\ ~ (v == spec_lr (learning_rate lr_example_opts) 1000
                          (epochs_to_train lr_example_opts) 15000)%Q.
Proof.
  eexists. split; [reflexivity|]. split.
  - reflexivity.
  - intros E. apply Qeq_bool_iff in E. vm_compute in E. discriminate.
Qed.

(** ** Scoring one question *)

Lemma in_first3_known (a b c d p : nat) :
  in_first3 p [a; b; c; d] = known a b c p.
Proof.
  unfold in_first3, known. cbn.
  destruct (Nat.eqb_spec p a), (Nat.eqb_spec p b), (Nat.eqb_spec p c); cbn;
    symmetry; (apply bool_decide_eq_true || apply bool_decide_eq_false); tauto.
Qed.

Lemma take_drop_cons {A} (n k : nat) (l : list A) (x : A) (r : list A) :
  take n (drop k l) = x :: r ->
  exists n', n = S n' /\ l !! k = Some x /\ take n' (drop (S k) l) = r.
Proof.
  intros E. destruct n as [|n']; [discriminate|]. exists n'. split; [reflexivity|].
  destruct (drop k l) as [|y t] eqn:Ed; [discriminate|].
  cbn in E. injection E as -> <-.
  assert (Hk : l !! k = Some x).
  { rewrite <- (Nat.add_0_r k), <- lookup_drop, Ed. reflexivity. }
  split; [exact Hk|].
  rewrite (drop_S l x k Hk) in Ed. injection Ed as <-. reflexivity.
Qed.

Lemma count_if_le (f : nat -> bool) (l : list nat) :
  (count_if f l <= length l)%nat.
Proof. unfold count_if. apply List.filter_length_le. Qed.

Lemma count_if_split (f : nat -> bool) (l : list nat) :
  (count_if f l + count_if (fun p => negb (f p)) l = length l)%nat.
Proof.
  unfold count_if. induction l as [|x l IH]; cbn; [reflexivity|].
  destruct (f x); cbn; lia.
Qed.

Section ScanFacts.
Variables (q : list nat) (d : nat).
Hypothesis Hq : q !! 3%nat = Some d.

Let kn (p : nat) : bool := in_first3 p q.

(** A first occurrence of [d] among the predictions still to scan: every
    earlier prediction is either skipped or a miss, and the hit lands in
    the bucket counting the misses. *)
Lemma scan_hit pre : forall (k n prio skips : nat) (correct : gmap nat Z)
    (post preds : list nat),
  take n (drop k preds) = (pre ++ d :: post)%list ->
  d ∉ pre ->
  scan (seq k n) preds q prio skips correct =
  (correct' ← dict_incr correct (prio + count_if (fun p => negb (kn p)) pre)%nat;
   Ok ((skips + count_if kn pre)%nat, correct')).
Proof.
  induction pre as [|p pre IH]; intros k n prio skips correct post preds E Hd.
  - cbn in E. apply take_drop_cons in E as (n' & -> & Hk & _).
    cbn. unfold index. rewrite Hk, Hq. cbn. rewrite Nat.eqb_refl.
    unfold count_if. cbn. rewrite !Nat.add_0_r. reflexivity.
  - cbn in E. apply take_drop_cons in E as (n' & -> & Hk & E').
    apply not_elem_of_cons in Hd as [Hne Hd].
    cbn. unfold index. rewrite Hk, Hq. cbn.
    destruct (Nat.eqb_spec p d) as [->|_]; [contradiction Hne; reflexivity|].
    fold (kn p). unfold count_if. cbn.
    destruct (kn p) eqn:Hp; cbn.
    + rewrite (IH _ _ _ _ _ _ _ E' Hd). unfold count_if.
      rewrite <- Nat.add_succ_comm. reflexivity.
    + rewrite (IH _ _ _ _ _ _ _ E' Hd). unfold count_if.
      rewrite <- Nat.add_succ_comm. reflexivity.
Qed.

(** No occurrence of [d]: the dict is returned as it was. *)
Lemma scan_miss : forall (n k prio skips : nat) (correct : gmap nat Z)
    (preds : list nat),
  length (take n (drop k preds)) = n ->
  d ∉ take n (drop k preds) ->
  scan (seq k n) preds q prio skips correct =
  Ok ((skips + count_if kn (take n (drop k preds)))%nat, correct).
Proof.
  induction n as [|n IH]; intros k prio skips correct preds Hlen Hd.
  - cbn. unfold count_if. cbn. rewrite Nat.add_0_r. reflexivity.
  - destruct (take (S n) (drop k preds)) as [|p r] eqn:E; [discriminate|].
    apply take_drop_cons in E as (n' & Hn & Hk & E'). injection Hn as <-.
    apply not_elem_of_cons in Hd as [Hne Hd].
    cbn in Hlen. injection Hlen as Hlen. rewrite <- E' in Hlen, Hd.
    cbn. unfold index. rewrite Hk, Hq. cbn.
    destruct (Nat.eqb_spec p d) as [->|_]; [contradiction Hne; reflexivity|].
    fold (kn p). unfold count_if. cbn.
    destruct (kn p) eqn:Hp; cbn; rewrite (IH _ _ _ _ _ Hlen Hd), E';
      unfold count_if; rewrite <- ?Nat.add_succ_comm; reflexivity.
Qed.

End ScanFacts.

Lemma count_if_ext (f g : nat -> bool) (l : list nat) :
  (forall p, f p = g p) -> count_if f l = count_if g l.
Proof.
  intros Hfg. unfold count_if. f_equal. apply List.filter_ext. exact Hfg.
Qed.



(** The two outcomes of a scan, for use in the proofs about blocks. *)
Lemma scan_first_hit (idx_row : list nat) (a b c d : nat)
    (correct : gmap nat Z) (pre post : list nat) (v : Z) :
  length idx_row = ANALOGY_COUNT ->
  idx_row = (pre ++ d :: post)%list -> d ∉ pre ->
  correct !! count_if (fun p => negb (known a b c p)) pre = Some v ->
  scan (seq 0 ANALOGY_COUNT) idx_row [a; b; c; d] 0%nat 0%nat correct
  = Ok (count_if (known a b c) pre,
        <[count_if (fun p => negb (known a b c p)) pre := v + 1]> correct).
Proof.
  intros Hlen E Hd Hv.
  assert (Et : take ANALOGY_COUNT (drop 0 idx_row) = (pre ++ d :: post)%list).
  { rewrite drop_0, <- Hlen, firstn_all. exact E. }
  rewrite (scan_hit [a; b; c; d] d eq_refl pre 0 ANALOGY_COUNT 0 0 correct
             post idx_row Et Hd).
  cbn [Nat.add].
  rewrite (count_if_ext (fun p => negb (in_first3 p [a; b; c; d]))
                        (fun p => negb (known a b c p)))
    by (intros p; rewrite in_first3_known; reflexivity).
  rewrite (count_if_ext (fun p => in_first3 p [a; b; c; d]) (known a b c))
    by (intros p; apply in_first3_known).
  unfold dict_incr. rewrite Hv. reflexivity.
Qed.

Lemma scan_no_hit (idx_row : list nat) (a b c d : nat) (correct : gmap nat Z) :
  length idx_row = ANALOGY_COUNT ->
  d ∉ idx_row ->
  scan (seq 0 ANALOGY_COUNT) idx_row [a; b; c; d] 0%nat 0%nat correct
  = Ok (count_if (known a b c) idx_row, correct).
Proof.
  intros Hlen Hd.
  assert (Et : take ANALOGY_COUNT (drop 0 idx_row) = idx_row).
  { rewrite drop_0, <- Hlen, firstn_all. reflexivity. }
  rewrite (scan_miss [a; b; c; d] d eq_refl ANALOGY_COUNT 0 0 0 correct idx_row);
    rewrite ?Et; try assumption.
  cbn [Nat.add]. f_equal. f_equal.
  apply count_if_ext. intros p. apply in_first3_known.
Qed.

(** ** Scoring a block *)

Lemma slice_all {A} (l : list A) (limit : nat) :
  (length l <= limit)%nat -> slice l 0 limit = l.
Proof.
  intros Hle. unfold slice. rewrite Nat.sub_0_r, skipn_O.
  apply firstn_all2. exact Hle.
Qed.

Section EvalFacts.
Variable _predict : list (list nat) -> result (list (list nat)).

(** A block of at most 2500 questions is scored in one batch. *)
Lemma eval_batches_single (questions idx : list (list nat))
    (correct skips_map : gmap nat Z) :
  (length questions <= 2500)%nat ->
  _predict questions = Ok idx ->
  eval_batches _predict (length questions) questions (length questions) 0
               correct skips_map
  = score_batch (seq 0 (length questions)) idx questions correct skips_map.
Proof.
  intros Hle Hp.
  destruct questions as [|q0 qs] eqn:Eq; [reflexivity|].
  rewrite <- Eq in *.
  assert (Hlen : length questions = S (length qs)) by (rewrite Eq; reflexivity).
  rewrite Hlen at 1 2. cbn [eval_batches Nat.ltb Nat.leb].
  rewrite Nat.add_0_l, (slice_all questions 2500 Hle), Hp.
  cbn [mbind result_bind rbind].
  destruct (score_batch (seq 0 (length questions)) idx questions correct skips_map)
    as [[c s]| |]; cbn [rbind]; try reflexivity.
  rewrite <- Hlen.
  destruct (length qs) as [|n]; cbn [eval_batches].
  - destruct (Nat.ltb 2500 (length questions)) eqn:El; [|reflexivity].
    apply Nat.ltb_lt in El. lia.
  - destruct (Nat.ltb 2500 (length questions)) eqn:El; [|reflexivity].
    apply Nat.ltb_lt in El. lia.
Qed.

End EvalFacts.

Lemma score_batch_cons (question : nat) (rest : list nat)
    (idx sub : list (list nat)) (idx_row sub_row : list nat)
    (correct correct' skips_map skips_map' : gmap nat Z) (skips : nat) :
  idx !! question = Some idx_row ->
  sub !! question = Some sub_row ->
  scan (seq 0 ANALOGY_COUNT) idx_row sub_row 0%nat 0%nat correct
  = Ok (skips, correct') ->
  dict_incr skips_map skips = Ok skips_map' ->
  score_batch (question :: rest) idx sub correct skips_map
  = score_batch rest idx sub correct' skips_map'.
Proof.
  intros Hi Hs Hscan Hincr. cbn [score_batch]. unfold index at 1 2.
  rewrite Hi, Hs. cbn [mbind result_bind rbind]. rewrite Hscan.
  cbn [mbind result_bind rbind]. rewrite Hincr. reflexivity.
Qed.

Lemma dict_zeros_keys (n i : nat) :
  (i < n)%nat -> dict_zeros n !! i = Some 0.
Proof.
  intros Hi. unfold dict_zeros.
  apply elem_of_list_to_map_1.
  - rewrite map_map. cbn. rewrite map_id. apply NoDup_ListNoDup, seq_NoDup.
  - apply list_elem_of_In, in_map_iff. exists i. split; [reflexivity|].
    apply in_seq. lia.
Qed.

(** The report of the block in the scenario of three loaded questions. *)
Lemma eval_block_end_to_end
    (_predict : list (list nat) -> result (list (list nat)))
    (word2id : gmap string nat) (lines : list string)
    (a1 b1 c1 d1 a2 b2 c2 d2 a3 b3 c3 d3 : nat) (p1 p2 p3 : list nat) :
  let questions := [[a1; b1; c1; d1]; [a2; b2; c2; d2]; [a3; b3; c3; d3]] in
  read_lines word2id lines = (questions, 1) ->
  _predict questions = Ok [p1; p2; p3] ->
  length p1 = ANALOGY_COUNT -> length p2 = ANALOGY_COUNT ->
  length p3 = ANALOGY_COUNT ->
  p1 !! 0%nat = Some d1 ->
  (exists pre post, p2 = (pre ++ d2 :: post)%list /\ (d2 ∉ pre)
      /\ count_if (fun p => negb (known a2 b2 c2 p)) pre = 2%nat
      /\ count_if (known a2 b2 c2) pre = 1%nat) ->
  d3 ∉ p3 ->
  count_if (known a3 b3 c3) p3 <> 1%nat ->
  exists r,
    eval_block _predict (read_lines word2id lines).1 = Ok r
    /\ rep_total r = 3
    /\ Forall2 Qeq (rep_accuracy_list r) [(100 # 3); 0; (100 # 3); 0]%Q
    /\ rep_skips_map r !! 1%nat = Some 1
    /\ rep_guessed r = 2
    /\ (rep_accuracy r == (200 # 3))%Q.
Proof.
  intros questions Hread Hpred H1 H2 H3 Hhit1 (pre & post & E2 & Hd2 & Hm2 & Hs2)
         Hd3 Hs3.
  rewrite Hread. cbn [fst].
  unfold eval_block. cbv zeta.
  rewrite (eval_batches_single _predict questions [p1; p2; p3]) by
    (try exact Hpred; cbn; lia).
  set (C0 := dict_zeros ANALOGY_COUNT).
  set (C1 := <[0%nat := 1]> C0).
  set (C2 := <[2%nat := 1]> C1).
  set (S0 := dict_zeros (ANALOGY_COUNT + 1)).
  set (S1 := <[0%nat := 1]> S0).
  set (S2 := <[1%nat := 1]> S1).
  assert (K0 : forall i, (i < ANALOGY_COUNT)%nat -> is_Some (C0 !! i)).
  { intros i Hi. exists 0. apply dict_zeros_keys. exact Hi. }
  assert (K1 : forall i, (i < ANALOGY_COUNT)%nat -> is_Some (C1 !! i)).
  { intros i Hi. unfold C1. destruct (decide (i = 0%nat)) as [->|Hn].
    - rewrite lookup_insert_eq. eauto.
    - rewrite lookup_insert_ne by congruence. apply K0. exact Hi. }
  assert (K2 : forall i, (i < ANALOGY_COUNT)%nat -> is_Some (C2 !! i)).
  { intros i Hi. unfold C2. destruct (decide (i = 2%nat)) as [->|Hn].
    - rewrite lookup_insert_eq. eauto.
    - rewrite lookup_insert_ne by congruence. apply K1. exact Hi. }
  (* first question: hit at rank 0 *)
  assert (Sc1 : scan (seq 0 ANALOGY_COUNT) p1 [a1; b1; c1; d1] 0%nat 0%nat C0
                = Ok (0%nat, C1)).
  { destruct p1 as [|x post1]; [discriminate|]. cbn in Hhit1. injection Hhit1 as ->.
    apply (scan_first_hit (d1 :: post1) a1 b1 c1 d1 C0 [] post1 0 H1 eq_refl).
    - apply not_elem_of_nil.
    - apply dict_zeros_keys. unfold ANALOGY_COUNT. cbn. lia. }
  (* second question: bucket 2 after one skip *)
  assert (Sc2 : scan (seq 0 ANALOGY_COUNT) p2 [a2; b2; c2; d2] 0%nat 0%nat C1
                = Ok (1%nat, C2)).
  { assert (Hv : C1 !! count_if (fun p => negb (known a2 b2 c2 p)) pre = Some 0).
    { rewrite Hm2. unfold C1. rewrite lookup_insert_ne by discriminate.
      apply dict_zeros_keys. unfold ANALOGY_COUNT. lia. }
    pose proof (scan_first_hit p2 a2 b2 c2 d2 C1 pre post 0 H2 E2 Hd2 Hv)
      as Hscan.
    rewrite Hm2, Hs2 in Hscan. exact Hscan. }
  (* third question: total miss *)
  pose proof (scan_no_hit p3 a3 b3 c3 d3 C2 H3 Hd3) as Sc3.
  assert (Hle3 : (count_if (known a3 b3 c3) p3 <= ANALOGY_COUNT)%nat)
    by (rewrite <- H3; apply count_if_le).
  remember (count_if (known a3 b3 c3) p3) as s3 eqn:Es3. clear Es3.
  change (length questions) with 3%nat. cbn [seq].
  rewrite (score_batch_cons 0 _ [p1; p2; p3] questions p1 [a1; b1; c1; d1] C0 C1 S0 S1 0
             eq_refl eq_refl Sc1 eq_refl).
  rewrite (score_batch_cons 1 _ [p1; p2; p3] questions p2 [a2; b2; c2; d2] C1 C2 S1 S2 1
             eq_refl eq_refl Sc2 eq_refl).
  assert (Hcases : s3 = 0%nat \/ s3 = 2%nat \/ s3 = 3%nat \/ s3 = 4%nat)
    by (unfold ANALOGY_COUNT in Hle3; lia).
  destruct Hcases as [E|[E|[E|E]]]; rewrite E in Sc3;
    (erewrite (score_batch_cons 2 _ [p1; p2; p3] questions p3 [a3; b3; c3; d3] C2 C2 S2 _ _
                 eq_refl eq_refl Sc3) by reflexivity);
    (eexists; split; [vm_compute; reflexivity|]);
    (split; [reflexivity|]);
    (split; [repeat constructor; reflexivity|]);
    (split; [reflexivity|]);
    (split; reflexivity).
Qed.

(** C3 (as the code has it): three loaded questions (a fourth line was
    skipped at load), the first hit at rank 0, the second hit in bucket 2
    after one skipped known word, the third a total miss whose skip count
    is not 1.  The block is reported over 3 questions: the buckets are
    100/3, 0, 100/3, 0 percent, exactly one question has skip count 1, and
    the aggregate accuracy is 2 of 3. *)
Theorem eval_end_to_end
    (_predict : list (list nat) -> result (list (list nat)))
    (word2id : gmap string nat) (lines : list string)
    (a1 b1 c1 d1 a2 b2 c2 d2 a3 b3 c3 d3 : nat) (p1 p2 p3 : list nat) :
  let questions := [[a1; b1; c1; d1]; [a2; b2; c2; d2]; [a3; b3; c3; d3]] in
  read_lines word2id lines = (questions, 1) ->
  _predict questions = Ok [p1; p2; p3] ->
  length p1 = ANALOGY_COUNT -> length p2 = ANALOGY_COUNT ->
  length p3 = ANALOGY_COUNT ->
  p1 !! 0%nat = Some d1 ->
  (exists pre post, p2 = (pre ++ d2 :: post)%list /\ (d2 ∉ pre)
      /\ count_if (fun p => negb (known a2 b2 c2 p)) pre = 2%nat
      /\ count_if (known a2 b2 c2) pre = 1%nat) ->
  d3 ∉ p3 ->
  count_if (known a3 b3 c3) p3 <> 1%nat ->
  exists r,
    eval _predict [(read_lines word2id lines).1] = Ok ([r], None)
    /\ rep_total r = 3
    /\ Forall2 Qeq (rep_accuracy_list r) [(100 # 3); 0; (100 # 3); 0]%Q
    /\ rep_skips_map r !! 1%nat = Some 1
    /\ rep_guessed r = 2
    /\ (rep_accuracy r == (200 # 3))%Q.
Proof.
  intros questions Hread Hpred H1 H2 H3 Hhit1 Hhit2 Hd3 Hs3.
  destruct (eval_block_end_to_end _predict word2id lines
              a1 b1 c1 d1 a2 b2 c2 d2 a3 b3 c3 d3 p1 p2 p3
              Hread Hpred H1 H2 H3 Hhit1 Hhit2 Hd3 Hs3) as (r & Hr & Hrest).
  exists r. split; [|exact Hrest].
  unfold eval. cbn [eval_blocks mbind result_bind rbind].
  rewrite Hr. reflexivity.
Qed.


(** The example file and table satisfy the premises of
    [eval_end_to_end]. *)
Lemma eval_end_to_end_witness :
  exists r,
    eval example_predict [(read_lines example_word2id example_lines).1]
    = Ok ([r], None)
    /\ rep_total r = 3
    /\ Forall2 Qeq (rep_accuracy_list r) [(100 # 3); 0; (100 # 3); 0]%Q
    /\ rep_skips_map r !! 1%nat = Some 1
    /\ rep_guessed r = 2
    /\ (rep_accuracy r == (200 # 3))%Q.
Proof.
  apply (eval_end_to_end example_predict example_word2id example_lines
           1 2 3 4 1 2 5 6 1 2 7 8
           [4; 10; 11; 12]%nat [10; 5; 11; 6]%nat [10; 11; 12; 13]%nat).
  - vm_compute. reflexivity.
  - reflexivity.
  - reflexivity.
  - reflexivity.
  - reflexivity.
  - reflexivity.
  - exists [10; 5; 11]%nat, []. split; [reflexivity|]. split.
    + intros Hin. apply list_elem_of_In in Hin. cbn in Hin.
      destruct Hin as [H|[H|[H|[]]]]; discriminate H.
    + split; vm_compute; reflexivity.
  - intros Hin. apply list_elem_of_In in Hin. cbn in Hin.
    destruct Hin as [H|[H|[H|[H|[]]]]]; discriminate H.
  - vm_compute. discriminate.
Defined.

(** C3 as stated fails: with three loaded questions, two of them hits, the
    buckets are 100/3 percent each, not 25 percent. *)
Lemma eval_end_to_end_not_25 :
  read_lines example_word2id example_lines
  = ([[1; 2; 3; 4]; [1; 2; 5; 6]; [1; 2; 7; 8]]%nat, 1)
  /\ exists r,
       eval example_predict [(read_lines example_word2id example_lines).1]
       = Ok ([r], None)
       /\ rep_total r = 3
       /\ rep_correct r !! 0%nat = Some 1
       /\ rep_correct r !! 2%nat = Some 1
       /\ rep_accuracy_list r !! 0%nat = Some (100 # 3)%Q
       /\ ~ Forall2 Qeq (rep_accuracy_list r) [25; 0; 25; 0]%Q.
Proof.
  split; [vm_compute; reflexivity|].
  eexists. split; [vm_compute; reflexivity|].
  repeat split; try reflexivity.
  intros Hall. inversion Hall as [|x y l l' Hxy _]; subst.
  apply Qeq_bool_iff in Hxy. vm_compute in Hxy. discriminate.
Qed.

(** ** Loading a question file *)

Lemma read_line_classified (word2id : gmap string nat) (line : string)
    (questions : list (list nat)) (skipped : Z) :
  read_line word2id line (questions, skipped) =
  if spec_ignored line then (questions, skipped)
  else match spec_question word2id line with
       | Some q => ((questions ++ [q])%list, skipped)
       | None => (questions, skipped + 1)
       end.
Proof.
  unfold read_line, spec_ignored, spec_question.
  destruct (is_empty (strip line) || startswith ":" (strip line)); [reflexivity|].
  destruct (split " " (lower (strip line))) as [|w0 [|w1 [|w2 [|w3 [|w4 ws]]]]];
    cbn [map length existsb Nat.eqb negb orb];
    rewrite ?orb_true_r; try reflexivity.
  - destruct (word2id !! strip w0) as [i0|],
             (word2id !! strip w1) as [i1|],
             (word2id !! strip w2) as [i2|],
             (word2id !! strip w3) as [i3|]; reflexivity.
Qed.

Lemma read_lines_from (word2id : gmap string nat) (lines : list string) :
  forall (questions : list (list nat)) (skipped : Z),
    fold_left (fun st line => read_line word2id line st) lines
              (questions, skipped)
    = ((questions ++
        omap (spec_question word2id)
             (List.filter (fun l => negb (spec_ignored l)) lines))%list,
       skipped +
       Z.of_nat (length (List.filter
                           (fun l => negb (spec_ignored l)
                                     && negb (spec_is_question word2id l))
                           lines))).
Proof.
  induction lines as [|line lines IH]; intros questions skipped.
  - cbn. rewrite app_nil_r, Z.add_0_r. reflexivity.
  - cbn [fold_left List.filter]. rewrite read_line_classified.
    destruct (spec_ignored line); cbn [negb andb].
    + apply IH.
    + assert (Hq : spec_is_question word2id line
                   = match spec_question word2id line with
                     | Some _ => true
                     | None => false
                     end) by reflexivity.
      rewrite Hq.
      destruct (spec_question word2id line) as [q|] eqn:Eq;
        cbn [negb]; rewrite IH; cbn [omap list_omap length]; rewrite Eq.
      * rewrite <- app_assoc. reflexivity.
      * f_equal. lia.
Qed.

Lemma filter_filter_andb {A} (f g : A -> bool) (l : list A) :
  List.filter f (List.filter g l) = List.filter (fun x => g x && f x) l.
Proof.
  induction l as [|x l IH]; [reflexivity|].
  cbn [List.filter]. destruct (g x); cbn [andb List.filter]; rewrite IH; reflexivity.
Qed.

Lemma spec_question_length (word2id : gmap string nat) (line : string)
    (q : list nat) :
  spec_question word2id line = Some q -> length q = 4%nat.
Proof.
  unfold spec_question.
  destruct (split " " (lower (strip line))) as [|w0 [|w1 [|w2 [|w3 [|w4 ws]]]]];
    try discriminate.
  destruct (word2id !! strip w0), (word2id !! strip w1),
           (word2id !! strip w2), (word2id !! strip w3); try discriminate.
  intros [= <-]. reflexivity.
Qed.

(** C6 (as the code has it): blank lines and lines beginning with [:] are
    ignored; every other line is lower-cased and cut at single spaces; when
    the pieces are exactly four vocabulary words the line becomes a 4-id
    question, in file order, and otherwise it is counted as skipped; a file
    that opens is always read to the end. *)
Theorem read_file_classified (word2id : gmap string nat) (lines : list string) :
  let data := List.filter (fun l => negb (spec_ignored l)) lines in
  read_lines word2id lines
  = (omap (spec_question word2id) data,
     Z.of_nat (length (List.filter
                         (fun l => negb (spec_is_question word2id l)) data)))
  /\ Forall (fun q => length q = 4%nat) (read_lines word2id lines).1
  /\ (Z.of_nat (length (read_lines word2id lines).1)
      + (read_lines word2id lines).2 = Z.of_nat (length data))
  /\ (forall (fs : gmap string node) (path : string),
        fs !! path = Some (File lines) ->
        read_file word2id fs path = Ok (read_lines word2id lines)).
Proof.
  intros data.
  assert (E : read_lines word2id lines
    = (omap (spec_question word2id) data,
       Z.of_nat (length (List.filter
                           (fun l => negb (spec_is_question word2id l)) data)))).
  { unfold read_lines. rewrite read_lines_from. cbn [app]. rewrite Z.add_0_l.
    subst data. rewrite filter_filter_andb. reflexivity. }
  split; [exact E|]. rewrite E. cbn [fst snd]. split; [|split].
  - apply Forall_forall. intros q Hq.
    apply list_elem_of_omap in Hq as (line & _ & Hline).
    exact (spec_question_length _ _ _ Hline).
  - clear E. induction data as [|l data IH]; [reflexivity|].
    cbn [omap list_omap List.filter]. unfold spec_is_question at 1.
    destruct (spec_question word2id l); cbn [negb length]; lia.
  - intros fs path Hfs. unfold read_file, open_rb. rewrite Hfs.
    cbn. rewrite E. reflexivity.
Qed.

(** C6 as stated fails: a line of exactly four whitespace-separated
    vocabulary words is skipped, not mapped, when two spaces separate
    two of its words; and a line whose words are not in the vocabulary as
    written is mapped when their lower-case forms are. *)
Lemma read_lines_double_space :
  (spec_ignored double_space_line = false
   /\ spec_words double_space_line = ["italy"; "rome"; "france"; "paris"]
   /\ Forall (fun w => is_Some (example_word2id !! w))
             (spec_words double_space_line)
   /\ read_lines example_word2id [double_space_line] = ([], 1))
  /\ (spec_words capitalized_line = ["Italy"; "Rome"; "France"; "Paris"]
      /\ example_word2id !! "Italy" = None
      /\ read_lines example_word2id [capitalized_line]
         = ([[1; 2; 3; 4]%nat], 0)).
Proof.
  split.
  - split; [reflexivity|]. split; [reflexivity|]. split.
    + change (spec_words double_space_line)
        with ["italy"; "rome"; "france"; "paris"].
      repeat constructor; eexists; vm_compute; reflexivity.
    + vm_compute. reflexivity.
  - split; [reflexivity|]. split; vm_compute; reflexivity.
Qed.

(** ** Reading the question files *)

Section ReadAnalogiesFacts.
Variable percent_format : string -> Z -> result string.

Lemma read_numbered_files (word2id : gmap string nat)
    (fs : gmap string node) (pattern : string) (paths : Z -> string)
    (files : list (list string)) :
  forall (fuel : nat) (idx : Z) (blocks : list (list (list nat) * Z)),
    (forall i, idx <= i <= idx + Z.of_nat (length files) ->
               percent_format pattern i = Ok (paths i)) ->
    (forall k lines, files !! k = Some lines ->
                     fs !! paths (idx + Z.of_nat k) = Some (File lines)) ->
    fs !! paths (idx + Z.of_nat (length files)) = None ->
    (length files < fuel)%nat ->
    read_numbered percent_format fuel word2id fs pattern idx blocks
    = Ok (blocks ++ map (read_lines word2id) files)%list.
Proof.
  induction files as [|lines files IH]; intros fuel idx blocks Hfmt Hfiles Hend Hfuel.
  - destruct fuel as [|fuel]; [cbn in Hfuel; lia|].
    cbn [read_numbered]. rewrite (Hfmt idx) by (cbn; lia).
    cbn [mbind result_bind rbind].
    cbn in Hend. rewrite Z.add_0_r in Hend.
    unfold path_exists. rewrite Hend.
    rewrite bool_decide_eq_false_2 by (intros [x Hx]; discriminate Hx).
    cbn. rewrite app_nil_r. reflexivity.
  - destruct fuel as [|fuel]; [cbn in Hfuel; lia|].
    cbn [read_numbered]. rewrite (Hfmt idx) by (cbn [length]; lia).
    cbn [mbind result_bind rbind].
    pose proof (Hfiles 0%nat lines eq_refl) as H0.
    cbn in H0. rewrite Z.add_0_r in H0.
    unfold path_exists. rewrite H0.
    rewrite bool_decide_eq_true_2 by eauto.
    unfold read_file, open_rb. rewrite H0.
    cbn [mbind result_bind rbind].
    rewrite (IH fuel (idx + 1) (blocks ++ [read_lines word2id lines])%list).
    + rewrite <- app_assoc. reflexivity.
    + intros i Hi. apply Hfmt. cbn [length]. lia.
    + intros k ls Hk. specialize (Hfiles (S k) ls Hk).
      replace (idx + 1 + Z.of_nat k) with (idx + Z.of_nat (S k)) by lia.
      exact Hfiles.
    + replace (idx + 1 + Z.of_nat (length files))
        with (idx + Z.of_nat (length (lines :: files))) by (cbn [length]; lia).
      exact Hend.
    + cbn [length] in Hfuel. lia.
Qed.

(** C5 (as the code has it): with a [%d] pattern the files numbered 1, 2,
    ... are read up to the first number whose file does not exist, and a
    missing file only ends the sequence, also when it is the first one
    (the result is then the empty list of blocks); without a pattern a
    missing file makes the load fail. *)
Theorem read_analogies_numbered (word2id : gmap string nat)
    (fs : gmap string node) (eval_data : string) (paths : Z -> string)
    (files : list (list string)) (fuel : nat) :
  contains "%d" eval_data = true ->
  (forall i, 1 <= i <= 1 + Z.of_nat (length files) ->
             percent_format eval_data i = Ok (paths i)) ->
  (forall k lines, files !! k = Some lines ->
                   fs !! paths (1 + Z.of_nat k) = Some (File lines)) ->
  fs !! paths (1 + Z.of_nat (length files)) = None ->
  (length files < fuel)%nat ->
  read_analogies percent_format fuel word2id fs eval_data
  = Ok (map (read_lines word2id) files)
  /\ (forall single : string,
        contains "%d" single = false ->
        fs !! single = None ->
        read_analogies percent_format fuel word2id fs single
        = Raise (IOError single)).
Proof.
  intros Hpat Hfmt Hfiles Hend Hfuel. split.
  - unfold read_analogies. rewrite Hpat.
    rewrite (read_numbered_files word2id fs eval_data paths files fuel 1 []
               Hfmt Hfiles Hend Hfuel).
    reflexivity.
  - intros single Hno Hmiss. unfold read_analogies. rewrite Hno.
    unfold read_file, open_rb. rewrite Hmiss. reflexivity.
Qed.

End ReadAnalogiesFacts.

(** The example pattern over the two example files: both are read and the
    missing third file ends the loop. *)
Lemma read_analogies_numbered_witness :
  read_analogies percent_d 5 example_word2id example_fs "questions-%d.txt"
  = Ok (map (read_lines example_word2id) [example_lines; [double_space_line]]).
Proof.
  apply (read_analogies_numbered percent_d example_word2id example_fs
           "questions-%d.txt" example_paths
           [example_lines; [double_space_line]] 5).
  - reflexivity.
  - intros i Hi. reflexivity.
  - intros k lines Hk. destruct k as [|[|k]]; cbn in Hk.
    + injection Hk as <-. vm_compute. reflexivity.
    + injection Hk as <-. vm_compute. reflexivity.
    + discriminate Hk.
  - vm_compute. reflexivity.
  - cbn. lia.
Defined.

(** C5 as stated fails: with a [%d] pattern and no first file the load
    succeeds and yields no block. *)
Lemma read_analogies_first_missing_ok :
  percent_d "questions-%d.txt" 1 = Ok "questions-1.txt"
  /\ path_exists (∅ : gmap string node) "questions-1.txt" = false
  /\ read_analogies percent_d 5 example_word2id ∅ "questions-%d.txt" = Ok [].
Proof.
  split; [reflexivity|]. split; [reflexivity|]. vm_compute. reflexivity.
Qed.

(** ** The vocabulary file *)

Lemma append_nil_l (t : string) : (EmptyString ++ t)%string = t.
Proof. reflexivity. Qed.

Lemma append_cons (c : ascii) (s t : string) :
  (String c s ++ t)%string = String c (s ++ t).
Proof. reflexivity. Qed.

Lemma has_char_app (c : ascii) (s t : string) :
  has_char c (s ++ t) = has_char c s || has_char c t.
Proof.
  induction s as [|x s IH]; [reflexivity|].
  rewrite append_cons. cbn [has_char].
  rewrite IH, orb_assoc. reflexivity.
Qed.

Lemma split_app_sep (sep : ascii) (s t : string) :
  has_char sep s = false ->
  split sep (s ++ String sep t) = s :: split sep t.
Proof.
  induction s as [|x s IH]; intros Hs.
  - rewrite append_nil_l. cbn [split]. rewrite Ascii.eqb_refl. reflexivity.
  - cbn [has_char] in Hs. apply orb_false_iff in Hs as [Hx Hs].
    rewrite append_cons. cbn [split]. rewrite Hx, (IH Hs). reflexivity.
Qed.

Lemma split_no_sep (sep : ascii) (s : string) :
  has_char sep s = false -> split sep s = [s].
Proof.
  induction s as [|x s IH]; intros Hs; [reflexivity|].
  cbn [has_char] in Hs. apply orb_false_iff in Hs as [Hx Hs].
  cbn [split]. rewrite Hx, (IH Hs). reflexivity.
Qed.

Lemma string_of_uint_digits (d : Decimal.uint) :
  all_chars is_digit_or_sign (NilEmpty.string_of_uint d) = true.
Proof. induction d; cbn; try reflexivity; exact IHd. Qed.

Lemma format_d_digits (n : Z) : all_chars is_digit_or_sign (format_d n) = true.
Proof.
  unfold format_d. destruct n as [|p|p]; cbn.
  - reflexivity.
  - unfold NilZero.string_of_uint.
    destruct (Pos.to_uint p); try reflexivity; apply string_of_uint_digits.
  - unfold NilZero.string_of_uint.
    destruct (Pos.to_uint p); try reflexivity; apply string_of_uint_digits.
Qed.

Lemma all_chars_has_char (f : ascii -> bool) (c : ascii) (s : string) :
  f c = false -> all_chars f s = true -> has_char c s = false.
Proof.
  intros Hc. induction s as [|x s IH]; intros Hs; [reflexivity|].
  cbn [all_chars] in Hs. apply andb_true_iff in Hs as [Hx Hs].
  cbn [has_char]. rewrite (IH Hs), orb_false_r.
  destruct (Ascii.eqb_spec x c) as [->|]; [congruence|reflexivity].
Qed.


Lemma format_d_no_LF (n : Z) : has_char LF (format_d n) = false.
Proof.
  apply (all_chars_has_char is_digit_or_sign); [reflexivity|apply format_d_digits].
Qed.



Lemma string_app_assoc (s t u : string) :
  ((s ++ t) ++ u)%string = (s ++ (t ++ u))%string.
Proof.
  induction s as [|c s IH]; [reflexivity|].
  rewrite !append_cons, IH. reflexivity.
Qed.

(** ASCII text is well-formed UTF-8. *)
Lemma ascii_utf8_valid (s : string) : ascii_text s = true -> utf8_valid s = true.
Proof.
  unfold ascii_text. induction s as [|c s IH]; [reflexivity|].
  cbn [all_chars]. intros Hs. apply andb_true_iff in Hs as [Hc Hs].
  cbn [utf8_valid]. unfold byte_in at 1. cbn [Nat.leb andb].
  apply Nat.ltb_lt in Hc.
  rewrite (proj2 (Nat.leb_le _ 127)) by lia. exact (IH Hs).
Qed.

Lemma as_text_valid (w : string) : utf8_valid w = true -> as_text w = Ok w.
Proof. intros Hw. unfold as_text, utf8_decode. rewrite Hw. reflexivity. Qed.

Lemma save_vocab_loop_seq (vocab_words : list string) (vocab_counts : list Z) :
  forall (n k : nat) (f : string),
    (k + n <= length vocab_words)%nat ->
    (k + n <= length vocab_counts)%nat ->
    (forall i w, (k <= i < k + n)%nat -> vocab_words !! i = Some w ->
                 utf8_valid w = true) ->
    save_vocab_loop (seq k n) vocab_words vocab_counts f
    = Ok (f ++ unlines (map vocab_line
                            (take n (drop k (zip vocab_words vocab_counts)))))%string.
Proof.
  induction n as [|n IH]; intros k f Hw Hc Hvalid.
  - cbn. f_equal. induction f as [|c f IHf]; [reflexivity|].
    rewrite append_cons, <- IHf. reflexivity.
  - cbn [seq save_vocab_loop].
    destruct (lookup_lt_is_Some_2 vocab_words k ltac:(lia)) as [w Ew].
    destruct (lookup_lt_is_Some_2 vocab_counts k ltac:(lia)) as [c Ec].
    unfold index. rewrite Ew, Ec. cbn [mbind result_bind rbind].
    rewrite (as_text_valid w (Hvalid k w ltac:(lia) Ew)).
    cbn [mbind result_bind rbind].
    rewrite IH by (try lia; intros i w' Hi; apply Hvalid; lia).
    assert (Ez : zip vocab_words vocab_counts !! k = Some (w, c)).
    { rewrite lookup_zip_with, Ew, Ec. reflexivity. }
    rewrite (drop_S _ _ _ Ez). cbn [take map unlines].
    unfold vocab_line at 2. cbn [fst snd].
    rewrite !string_app_assoc. reflexivity.
Qed.

(** With a count for every word, all of them ASCII text, the file is
    written. *)
Lemma save_vocab_ascii (vocab_words : list string) (vocab_counts : list Z) :
  Forall (fun w => ascii_text w = true) vocab_words ->
  (length vocab_words <= length vocab_counts)%nat ->
  save_vocab vocab_words vocab_counts
  = Ok (unlines (map vocab_line (zip vocab_words vocab_counts))).
Proof.
  intros Hascii Hle. unfold save_vocab.
  rewrite (save_vocab_loop_seq vocab_words vocab_counts
             (length vocab_words) 0 "").
  - rewrite append_nil_l, drop_0, firstn_all2; [reflexivity|].
    rewrite length_zip_with. lia.
  - lia.
  - lia.
  - intros i w _ Ew. apply ascii_utf8_valid.
    exact (proj1 (Forall_lookup _ _) Hascii i w Ew).
Qed.

Lemma no_space_has_char (c : ascii) (w : string) :
  is_space c = true -> no_space w = true -> has_char c w = false.
Proof.
  intros Hc Hw. apply (all_chars_has_char (fun x => negb (is_space x))).
  - rewrite Hc. reflexivity.
  - exact Hw.
Qed.








(** ** Ranking the vocabulary *)

#[export] Instance Q_ScalarOrder : ScalarOrder Q.
Proof.
  split.
  - intros x y. cbn. rewrite !Qle_bool_iff.
    destruct (Qlt_le_dec x y) as [Hlt|Hle]; [left; apply Qlt_le_weak, Hlt | right; exact Hle].
  - intros x y z. cbn. rewrite !Qle_bool_iff. apply Qle_trans.
Qed.

Section RankingFacts.
Context {F : Type} `{ScalarOrder F}.

(** [x] ranks before [y]: its value is at least the value of [y]. *)
Let before (x y : nat * F) : Prop := fleb y.2 x.2 = true.

Lemma insert_desc_perm (x : nat * F) (l : list (nat * F)) :
  insert_desc x l ≡ₚ x :: l.
Proof.
  induction l as [|y l IH]; [reflexivity|].
  cbn [insert_desc]. destruct (fleb x.2 y.2); [|reflexivity].
  rewrite IH. apply Permutation_swap.
Qed.

Lemma insert_desc_sorted (x : nat * F) (l : list (nat * F)) :
  StronglySorted before l -> StronglySorted before (insert_desc x l).
Proof.
  induction 1 as [|y l Hl IH Hy].
  - cbn. constructor; [constructor|constructor].
  - cbn [insert_desc]. destruct (fleb x.2 y.2) eqn:Exy.
    + constructor; [exact IH|].
      rewrite insert_desc_perm. constructor; [exact Exy|exact Hy].
    + assert (Hyx : before x y).
      { unfold before. destruct (fleb_total x.2 y.2) as [E|E]; [congruence|exact E]. }
      constructor; [constructor; assumption|].
      constructor; [exact Hyx|].
      eapply Forall_impl; [exact Hy|].
      intros z Hz. unfold before in *. exact (fleb_trans _ _ _ Hz Hyx).
Qed.

Lemma fold_insert_desc (xs : list (nat * F)) :
  forall acc : list (nat * F),
    StronglySorted before acc ->
    StronglySorted before (fold_left (fun acc x => insert_desc x acc) xs acc)
    /\ fold_left (fun acc x => insert_desc x acc) xs acc ≡ₚ (xs ++ acc)%list.
Proof.
  induction xs as [|x xs IH]; intros acc Hacc.
  - split; [exact Hacc|reflexivity].
  - cbn [fold_left].
    destruct (IH (insert_desc x acc) (insert_desc_sorted x acc Hacc)) as [Hs Hp].
    split; [exact Hs|].
    rewrite Hp, insert_desc_perm. cbn. symmetry. apply Permutation_middle.
Qed.

Lemma sort_desc_sorted (row : list F) : StronglySorted before (sort_desc row).
Proof. apply fold_insert_desc. constructor. Qed.

Lemma sort_desc_perm (row : list F) :
  sort_desc row ≡ₚ zip (seq 0 (length row)) row.
Proof.
  unfold sort_desc.
  destruct (fold_insert_desc (zip (seq 0 (length row)) row) [])
    as [_ Hp]; [constructor|].
  rewrite Hp, app_nil_r. reflexivity.
Qed.

Lemma sorted_app_before (l1 l2 : list (nat * F)) :
  StronglySorted before (l1 ++ l2) ->
  forall x y, x ∈ l1 -> y ∈ l2 -> before x y.
Proof.
  induction l1 as [|z l1 IH]; intros Hs x y Hx Hy.
  - apply elem_of_nil in Hx. contradiction.
  - cbn in Hs. apply StronglySorted_inv in Hs as [Hs Hz].
    apply elem_of_cons in Hx as [->|Hx].
    + rewrite Forall_forall in Hz. apply Hz.
      apply elem_of_app. right. exact Hy.
    + exact (IH Hs x y Hx Hy).
Qed.

End RankingFacts.

Lemma StronglySorted_app_l {A} (R : A -> A -> Prop) (l1 l2 : list A) :
  StronglySorted R (l1 ++ l2) -> StronglySorted R l1.
Proof.
  induction l1 as [|x l1 IH]; intros Hs; [constructor|].
  cbn in Hs. apply StronglySorted_inv in Hs as [Hs Hx].
  constructor; [exact (IH Hs)|].
  apply Forall_app in Hx as [Hx _]. exact Hx.
Qed.

Section TopKFacts.
Context {F : Type} `{ScalarOrder F}.

Lemma zip_seq_lookup (row : list F) (i : nat) (v : F) :
  (i, v) ∈ zip (seq 0 (length row)) row -> row !! i = Some v.
Proof.
  intros Hin. apply list_elem_of_lookup in Hin as [j Hj].
  rewrite lookup_zip_with in Hj.
  destruct (seq 0 (length row) !! j) as [i'|] eqn:Ei; [|discriminate].
  destruct (row !! j) as [v'|] eqn:Ev; [|discriminate].
  cbn in Hj. injection Hj as -> ->.
  apply lookup_seq in Ei as [-> _]. exact Ev.
Qed.

Lemma sort_desc_lookup (row : list F) (i : nat) (v : F) :
  (i, v) ∈ sort_desc row -> row !! i = Some v.
Proof.
  intros Hin. apply zip_seq_lookup.
  rewrite <- (sort_desc_perm row). exact Hin.
Qed.

Lemma sort_desc_fst (row : list F) :
  (sort_desc row).*1 ≡ₚ seq 0 (length row).
Proof.
  rewrite (sort_desc_perm row). rewrite fst_zip; [reflexivity|].
  rewrite length_seq. lia.
Qed.

Lemma sort_desc_length (row : list F) : length (sort_desc row) = length row.
Proof.
  rewrite (Permutation_length (sort_desc_perm row)), length_zip_with, length_seq.
  lia.
Qed.

(** [tf.nn.top_k] on one row returns the [k] best indices, best first. *)
Lemma top_k_row_spec (k : nat) (row : list F) :
  (k <= length row)%nat ->
  exists vals idxs,
    top_k_row k row = Ok (vals, idxs)
    /\ is_top_k k row idxs
    /\ length vals = k.
Proof.
  intros Hk. unfold top_k_row.
  rewrite (proj2 (Nat.leb_le k (length row)) Hk).
  set (sorted := sort_desc row).
  set (best := take k sorted). set (rest := drop k sorted).
  assert (Hsplit : sorted = (best ++ rest)%list)
    by (symmetry; apply take_drop).
  assert (Hsorted : StronglySorted (fun x y : nat * F => fleb y.2 x.2 = true)
                                   (best ++ rest)%list).
  { rewrite <- Hsplit. apply sort_desc_sorted. }
  assert (Hlen : length best = k).
  { subst best sorted. rewrite length_take, sort_desc_length. lia. }
  assert (Hnodup : NoDup (best.*1 ++ rest.*1)).
  { rewrite <- fmap_app, <- Hsplit. subst sorted.
    rewrite (sort_desc_fst row). apply NoDup_seq. }
  assert (Hval : forall i v, (i, v) ∈ sorted -> row !! i = Some v)
    by (intros i v; apply sort_desc_lookup).
  exists (map snd best), (map fst best).
  split; [reflexivity|]. split; [|rewrite length_map; exact Hlen].
  unfold is_top_k. split; [rewrite length_map; exact Hlen|].
  split; [exact (proj1 (proj1 (NoDup_app _ _) Hnodup))|].
  split; [|split].
  - intros i Hi. change (map fst best) with (best.*1) in Hi.
    apply list_elem_of_fmap in Hi as ([i' v] & -> & Hin). cbn.
    apply lookup_lt_Some with v. apply Hval.
    rewrite Hsplit. apply elem_of_app. left. exact Hin.
  - intros m n i j si sj Hmn Hm Hn Hsi Hsj.
    change (map fst best) with (fst <$> best) in Hm, Hn.
    rewrite list_lookup_fmap in Hm, Hn.
    destruct (best !! m) as [[i' vi]|] eqn:Em; [|discriminate].
    destruct (best !! n) as [[j' vj]|] eqn:En; [|discriminate].
    cbn in Hm, Hn. injection Hm as ->. injection Hn as ->.
    assert (Hi : (i, vi) ∈ sorted).
    { rewrite Hsplit. apply elem_of_app. left.
      apply list_elem_of_lookup. eauto. }
    assert (Hj : (j, vj) ∈ sorted).
    { rewrite Hsplit. apply elem_of_app. left.
      apply list_elem_of_lookup. eauto. }
    rewrite (Hval _ _ Hi) in Hsi. rewrite (Hval _ _ Hj) in Hsj.
    injection Hsi as <-. injection Hsj as <-.
    assert (Hb : StronglySorted (fun x y : nat * F => fleb y.2 x.2 = true)
                   (take (S m) best ++ drop (S m) best)%list).
    { rewrite take_drop. exact (StronglySorted_app_l _ _ _ Hsorted). }
    apply (sorted_app_before (take (S m) best) (drop (S m) best) Hb (i, vi) (j, vj)).
    + apply list_elem_of_lookup. exists m.
      rewrite lookup_take_lt by lia. exact Em.
    + apply list_elem_of_lookup. exists (n - S m)%nat.
      rewrite lookup_drop. replace (S m + (n - S m))%nat with n by lia. exact En.
  - intros i j si sj Hi Hj Hsi Hsj.
    change (map fst best) with (best.*1) in Hi, Hj.
    apply list_elem_of_fmap in Hi as ([i' vi] & -> & Hin). cbn in Hsi.
    assert (Hi : (i', vi) ∈ sorted).
    { rewrite Hsplit. apply elem_of_app. left. exact Hin. }
    rewrite (Hval _ _ Hi) in Hsi. injection Hsi as <-.
    assert (Hjs : j ∈ sorted.*1).
    { subst sorted. rewrite (sort_desc_fst row).
      apply list_elem_of_In, in_seq. apply lookup_lt_Some in Hsj. lia. }
    rewrite Hsplit, fmap_app in Hjs. apply elem_of_app in Hjs as [Hjb|Hjr];
      [contradiction|].
    apply list_elem_of_fmap in Hjr as ([j' vj] & -> & Hjr). cbn in Hsj.
    assert (Hj' : (j', vj) ∈ sorted).
    { rewrite Hsplit. apply elem_of_app. right. exact Hjr. }
    rewrite (Hval _ _ Hj') in Hsj. injection Hsj as <-.
    exact (sorted_app_before best rest Hsorted (i', vi) (j', vj) Hin Hjr).
Qed.

End TopKFacts.

Lemma column_ok (j : nat) (m : list (list nat)) :
  Forall (fun q => (j < length q)%nat) m ->
  column j m = Ok (map (fun q => nth j q 0%nat) m).
Proof.
  induction 1 as [|q m Hq _ IH]; [reflexivity|].
  cbn [column map]. unfold index.
  destruct (lookup_lt_is_Some_2 q j Hq) as [x Ex]. rewrite Ex.
  cbn [mbind result_bind rbind]. rewrite IH. cbn [rbind].
  rewrite (nth_lookup_Some q j 0%nat x Ex). reflexivity.
Qed.

Lemma zip_with_map_same {A B C D} (f : B -> C -> D) (g : A -> B) (h : A -> C)
    (l : list A) :
  zip_with f (map g l) (map h l) = map (fun x => f (g x) (h x)) l.
Proof. induction l as [|x l IH]; [reflexivity|]. cbn. rewrite IH. reflexivity. Qed.

Section GraphFacts.
Context {F : Type} `{ScalarOrder F}.

Lemma gather_ok (params : list (list F)) (ids : list nat) :
  Forall (fun i => (i < length params)%nat) ids ->
  gather params ids = Ok (map (fun i => nth i params []) ids).
Proof.
  induction 1 as [|i ids Hi _ IH]; [reflexivity|].
  cbn [gather map].
  destruct (lookup_lt_is_Some_2 params i Hi) as [row Erow]. rewrite Erow.
  cbn [mbind result_bind rbind]. rewrite IH. cbn [rbind].
  rewrite (nth_lookup_Some params i [] row Erow). reflexivity.
Qed.

Lemma top_k_spec (k : nat) (m : list (list F)) :
  Forall (fun row => (k <= length row)%nat) m ->
  exists vals idxs,
    top_k k m = Ok (vals, idxs)
    /\ Forall2 (is_top_k k) m idxs
    /\ Forall2 (fun v i => length v = length i) vals idxs.
Proof.
  induction 1 as [|row m Hrow _ IH].
  - exists [], []. split; [reflexivity|]. split; constructor.
  - destruct (top_k_row_spec k row Hrow) as (v & i & Erow & Htop & Hv).
    destruct IH as (vs & js & Em & Htops & Hvs).
    exists (v :: vs), (i :: js). split.
    + cbn [top_k]. rewrite Erow. cbn [mbind result_bind rbind].
      rewrite Em. reflexivity.
    + split; constructor; try assumption.
      rewrite Hv. symmetry. exact (proj1 Htop).
Qed.

Lemma l2_normalize_nth (w_in : list (list F)) (i : nat) :
  nth i (l2_normalize w_in) [] = l2_normalize_row (nth i w_in []).
Proof.
  unfold l2_normalize.
  change (@nil F) with (l2_normalize_row []) at 1. apply map_nth.
Qed.

(** The helpers of the graph compute what the specification words. *)
Lemma reduce_sum_squares (row : list F) :
  reduce_sum (map (fun x => fmul x x) row) = sum_squares fzero row.
Proof.
  unfold reduce_sum. generalize fzero.
  induction row as [|x row IH]; intros acc; [reflexivity|].
  cbn [map fold_left sum_squares]. apply IH.
Qed.

Lemma l2_normalize_row_unit (row : list F) :
  l2_normalize_row row = unit_row row.
Proof.
  unfold l2_normalize_row, unit_row. rewrite reduce_sum_squares. reflexivity.
Qed.

Lemma dot_inner (u v : list F) : dot u v = inner fzero u v.
Proof.
  unfold dot, reduce_sum. generalize fzero. revert v.
  induction u as [|x u IH]; intros [|y v] acc; try reflexivity.
  cbn [zip_with fold_left inner]. apply IH.
Qed.

Lemma vadd_vsub_target (a b c : list F) :
  vadd c (vsub b a) = target_entries a b c.
Proof.
  unfold vadd, vsub. revert b c.
  induction a as [|x a IH]; intros [|y b] [|z c]; try reflexivity.
  cbn [zip_with target_entries]. rewrite IH. reflexivity.
Qed.

(** The distances fed to [top_k] are the scores of the specification. *)
Lemma analogy_dist (w_in : list (list F)) (analogy : list (list nat)) :
  let nemb := l2_normalize w_in in
  let emb j := map (fun i => nth i nemb []) (map (fun q => nth j q 0%nat) analogy) in
  matmul_transpose_b (target_rows (emb 0%nat) (emb 1%nat) (emb 2%nat)) nemb
  = map (spec_scores w_in) analogy.
Proof.
  intros nemb emb. subst emb. cbv beta.
  unfold target_rows, matmul_transpose_b. rewrite !map_map.
  rewrite (zip_with_map_same vsub), (zip_with_map_same vadd), map_map.
  apply map_ext. intros q. unfold spec_scores, spec_target.
  subst nemb. rewrite !l2_normalize_nth. unfold l2_normalize.
  rewrite map_map. apply map_ext. intros row.
  rewrite dot_inner, vadd_vsub_target, !l2_normalize_row_unit. reflexivity.
Qed.

(** C4: for a batch of questions over the vocabulary, [_predict] returns,
    for each question, four row indices: the top four of the dot products
    of [norm(c) + (norm(b) - norm(a))] with every L2-normalized row of the
    input embedding matrix, best first.  The scores are those of
    [spec_scores], written out from [unit_row], [target_entries] and
    [inner] and not from the operations of the graph. *)
Theorem predict_top4 (w_in : list (list F)) (analogy : list (list nat)) :
  (ANALOGY_COUNT <= length w_in)%nat ->
  Forall (fun q => (3 <= length q)%nat
                   /\ (nth 0 q 0 < length w_in)%nat
                   /\ (nth 1 q 0 < length w_in)%nat
                   /\ (nth 2 q 0 < length w_in)%nat) analogy ->
  exists idx,
    _predict w_in analogy = Ok idx
    /\ Forall2 (fun q pred =>
                  is_top_k ANALOGY_COUNT (spec_scores w_in q) pred)
               analogy idx.
Proof.
  intros Hsize Hq.
  assert (Hcol : forall j, (j < 3)%nat ->
            column j analogy = Ok (map (fun q => nth j q 0%nat) analogy)).
  { intros j Hj. apply column_ok. eapply Forall_impl; [exact Hq|].
    intros q (Hlen & _). cbn beta. lia. }
  assert (Hgather : forall j, (j < 3)%nat ->
            gather (l2_normalize w_in) (map (fun q => nth j q 0%nat) analogy)
            = Ok (map (fun i => nth i (l2_normalize w_in) [])
                      (map (fun q => nth j q 0%nat) analogy))).
  { intros j Hj. apply gather_ok. apply Forall_map.
    unfold l2_normalize. rewrite length_map.
    eapply Forall_impl; [exact Hq|].
    intros q (_ & Ha & Hb & Hc). cbn beta.
    destruct j as [|[|[|j]]]; [assumption..|lia]. }
  assert (Hrows : Forall (fun row => (ANALOGY_COUNT <= length row)%nat)
                         (map (spec_scores w_in) analogy)).
  { apply Forall_map. apply Forall_forall. intros q _. cbn beta.
    unfold spec_scores. rewrite length_map. exact Hsize. }
  destruct (top_k_spec ANALOGY_COUNT _ Hrows) as (vals & idxs & Etop & Htop & _).
  exists idxs. split.
  - unfold _predict. rewrite !Hcol by lia. cbn [mbind result_bind rbind].
    unfold analogy_pred_idx. rewrite !Hgather by lia.
    cbn [mbind result_bind rbind].
    rewrite (analogy_dist w_in analogy), Etop. reflexivity.
  - change (map (spec_scores w_in) analogy)
      with (spec_scores w_in <$> analogy) in Htop.
    apply (proj1 (Forall2_fmap_l _ _ _ _)) in Htop. exact Htop.
Qed.

End GraphFacts.

(** The question [italy rome france paris] on the five-word model
    satisfies the premises of [predict_top4]. *)
Lemma predict_top4_witness :
  exists idx,
    _predict small_w_in [[4; 3; 2; 1]%nat] = Ok idx
    /\ Forall2 (fun q pred =>
                  is_top_k ANALOGY_COUNT (spec_scores small_w_in q) pred)
               [[4; 3; 2; 1]%nat] idx.
Proof.
  apply (predict_top4 small_w_in [[4; 3; 2; 1]%nat]).
  - unfold ANALOGY_COUNT, small_w_in. cbn [length]. lia.
  - unfold small_w_in. repeat constructor; cbn [length nth]; lia.
Defined.

(** On that model [paris] is predicted first, then [france], [rome] and
    [italy]; scored against the question this is a hit in bucket 0 with no
    skip. *)
Example predict_small :
  _predict small_w_in [[4; 3; 2; 1]%nat] = Ok [[1; 2; 3; 4]%nat]
  /\ scan (seq 0 ANALOGY_COUNT) [1; 2; 3; 4]%nat [4; 3; 2; 1]%nat 0%nat 0%nat
          (dict_zeros ANALOGY_COUNT)
     = Ok (0%nat, <[0%nat := 1]> (dict_zeros ANALOGY_COUNT)).
Proof. split; vm_compute; reflexivity. Qed.

(** What the specification's words compute on rationals: [3, 4] scaled to
    unit norm is [3/5, 4/5], the dot product of [1, 2] and [3, 4] is 11, and
    the target of rows [1, 0], [0, 1], [1, 1] is [0, 2]. *)
Example unit_row_inner_small :
  Forall2 Qeq (unit_row [3; 4]%Q) [3 # 5; 4 # 5]%Q
  /\ (inner 0 [1; 2] [3; 4] == 11)%Q
  /\ Forall2 Qeq (target_entries [1; 0] [0; 1] [1; 1])%Q [0; 2]%Q.
Proof.
  split; [|split].
  - repeat constructor.
  - reflexivity.
  - repeat constructor.
Qed.

Section PredictFacts.
Context {F : Type} `{ScalarOrder F}.

(** The indices [_predict] returns are those [top_k] finds in the scores
    of the questions. *)
Lemma predict_closed_form (w_in : list (list F)) (analogy : list (list nat)) :
  Forall (fun q => (3 <= length q)%nat
                   /\ (nth 0 q 0 < length w_in)%nat
                   /\ (nth 1 q 0 < length w_in)%nat
                   /\ (nth 2 q 0 < length w_in)%nat) analogy ->
  _predict w_in analogy
  = '(_, pred_idx) ← top_k ANALOGY_COUNT (map (spec_scores w_in) analogy);
    Ok pred_idx.
Proof.
  intros Hq.
  assert (Hcol : forall j, (j < 3)%nat ->
            column j analogy = Ok (map (fun q => nth j q 0%nat) analogy)).
  { intros j Hj. apply column_ok. eapply Forall_impl; [exact Hq|].
    intros q (Hlen & _). cbn beta. lia. }
  assert (Hgather : forall j, (j < 3)%nat ->
            gather (l2_normalize w_in) (map (fun q => nth j q 0%nat) analogy)
            = Ok (map (fun i => nth i (l2_normalize w_in) [])
                      (map (fun q => nth j q 0%nat) analogy))).
  { intros j Hj. apply gather_ok. apply Forall_map.
    unfold l2_normalize. rewrite length_map.
    eapply Forall_impl; [exact Hq|].
    intros q (_ & Ha & Hb & Hc). cbn beta.
    destruct j as [|[|[|j]]]; [assumption..|lia]. }
  unfold _predict. rewrite !Hcol by lia. cbn [mbind result_bind rbind].
  unfold analogy_pred_idx. rewrite !Hgather by lia.
  cbn [mbind result_bind rbind].
  rewrite (analogy_dist w_in analogy). reflexivity.
Qed.

Lemma predict_ranked (w_in : list (list F)) (analogy : list (list nat)) :
  (ANALOGY_COUNT <= length w_in)%nat ->
  Forall (fun q => (3 <= length q)%nat
                   /\ (nth 0 q 0 < length w_in)%nat
                   /\ (nth 1 q 0 < length w_in)%nat
                   /\ (nth 2 q 0 < length w_in)%nat) analogy ->
  exists idx,
    _predict w_in analogy = Ok idx
    /\ Forall2 (fun q pred =>
                  is_top_k ANALOGY_COUNT (spec_scores w_in q) pred)
               analogy idx.
Proof.
  intros Hsize Hq.
  destruct (top_k_spec ANALOGY_COUNT (map (spec_scores w_in) analogy))
    as (vals & idxs & Etop & Htop & _).
  { apply Forall_map. apply Forall_forall. intros q _. cbn beta.
    unfold spec_scores. rewrite length_map. exact Hsize. }
  exists idxs. split.
  - rewrite (predict_closed_form w_in analogy Hq), Etop. reflexivity.
  - change (map (spec_scores w_in) analogy)
      with (spec_scores w_in <$> analogy) in Htop.
    apply (proj1 (Forall2_fmap_l _ _ _ _)) in Htop. exact Htop.
Qed.

End PredictFacts.

(** ** Interactive queries *)

Lemma fold_insert_values (P : nat -> Prop) (l : list (nat * string)) :
  forall m : gmap string nat,
    (forall w i, m !! w = Some i -> P i) ->
    Forall (fun iw => P iw.1) l ->
    forall w i,
      fold_left (fun m iw => <[iw.2 := iw.1]> m) l m !! w = Some i -> P i.
Proof.
  induction l as [|[i0 w0] l IH]; intros m Hm Hl w i Hw; [exact (Hm w i Hw)|].
  apply Forall_cons in Hl as [Hi0 Hl]. cbn [fold_left fst snd] in Hw.
  apply (IH (<[w0 := i0]> m)) with w; [|exact Hl|exact Hw].
  intros w' i' Hw'. destruct (decide (w0 = w')) as [->|Hne].
  - rewrite lookup_insert_eq in Hw'. injection Hw' as <-. exact Hi0.
  - rewrite lookup_insert_ne in Hw' by exact Hne. exact (Hm w' i' Hw').
Qed.

(** Every id in [_word2id] is a row of the vocabulary. *)
Lemma build_word2id_range (id2word : list string) (w : string) (i : nat) :
  build_word2id id2word !! w = Some i -> (i < length id2word)%nat.
Proof.
  unfold build_word2id.
  apply (fold_insert_values (fun i => (i < length id2word)%nat)).
  - intros w' i' Hw'. rewrite lookup_empty in Hw'. discriminate.
  - apply Forall_forall. intros [j w'] Hin. cbn [fst].
    apply list_elem_of_lookup in Hin as [k Hk].
    rewrite lookup_zip_with in Hk.
    destruct (seq 0 (length id2word) !! k) as [j'|] eqn:Ej; [|discriminate].
    destruct (id2word !! k); [|discriminate].
    cbn in Hk. injection Hk as -> _.
    apply lookup_seq in Ej as [-> Hlt]. exact Hlt.
Qed.


Section QueryFacts.
Context {F : Type} `{ScalarOrder F}.
Variable m : Word2Vec F.
Hypothesis Hword2id : _word2id m = build_word2id (_id2word m).
Hypothesis Hrows : length (_w_in m) = length (_id2word m).
Hypothesis Hvalid : Forall (fun w => utf8_valid w = true) (_id2word m).








End QueryFacts.




(** The same queries, evaluated. *)
Example analogy_small :
  analogy small_model "italy" "rome" "france"
  = Ok ([1; 2; 3; 4]%nat, ["paris"; "france"; "rome"; "italy"])
  /\ word2id_get0 small_model "berlin" = word2id_get0 small_model "UNK".
Proof. split; vm_compute; reflexivity. Qed.

(** * Further properties of the code *)

(** ** The lookup table of [build_graph] *)

Lemma build_word2id_snoc (id2word : list string) (w : string) :
  build_word2id (id2word ++ [w])
  = <[w := length id2word]> (build_word2id id2word).
Proof.
  unfold build_word2id.
  rewrite length_app, seq_app. cbn [length seq Nat.add].
  rewrite zip_with_app by (rewrite length_seq; reflexivity).
  rewrite fold_left_app. reflexivity.
Qed.

(** [_word2id] maps a word to the last row of the vocabulary that holds
    it, and holds nothing else. *)
Lemma build_word2id_last (id2word : list string) (w : string) (i : nat) :
  build_word2id id2word !! w = Some i
  <-> id2word !! i = Some w
      /\ (forall j, (i < j)%nat -> id2word !! j <> Some w).
Proof.
  revert i. induction id2word as [|x ws IH] using rev_ind; intros i.
  - unfold build_word2id. cbn. rewrite lookup_empty. split; [discriminate|].
    intros [Hi _]. discriminate Hi.
  - rewrite build_word2id_snoc.
    destruct (decide (x = w)) as [->|Hne].
    + rewrite lookup_insert_eq. split.
      * intros [= <-]. split.
        -- rewrite lookup_app_r by lia. rewrite Nat.sub_diag. reflexivity.
        -- intros j Hj. rewrite lookup_ge_None_2; [discriminate|].
           rewrite length_app. cbn. lia.
      * intros [Hi Hlast]. f_equal.
        destruct (Nat.lt_trichotomy i (length ws)) as [Hlt|[->|Hgt]].
        -- exfalso. apply (Hlast (length ws) Hlt).
           rewrite lookup_app_r by lia. rewrite Nat.sub_diag. reflexivity.
        -- reflexivity.
        -- rewrite lookup_ge_None_2 in Hi; [discriminate|].
           rewrite length_app. cbn. lia.
    + rewrite lookup_insert_ne by exact Hne. rewrite IH. split.
      * intros [Hi Hlast]. pose proof (lookup_lt_Some _ _ _ Hi) as Hlt. split.
        -- rewrite lookup_app_l by exact Hlt. exact Hi.
        -- intros j Hj Hw.
           destruct (Nat.lt_trichotomy j (length ws)) as [Hjl|[->|Hjg]].
           ++ rewrite lookup_app_l in Hw by exact Hjl. exact (Hlast j Hj Hw).
           ++ rewrite lookup_app_r in Hw by lia. rewrite Nat.sub_diag in Hw.
              cbn in Hw. congruence.
           ++ rewrite lookup_ge_None_2 in Hw; [discriminate|].
              rewrite length_app. cbn. lia.
      * intros [Hi Hlast].
        assert (Hlt : (i < length ws)%nat).
        { destruct (Nat.lt_trichotomy i (length ws)) as [Hlt|[->|Hgt]].
          - exact Hlt.
          - rewrite lookup_app_r in Hi by lia. rewrite Nat.sub_diag in Hi.
            cbn in Hi. congruence.
          - rewrite lookup_ge_None_2 in Hi; [discriminate|].
            rewrite length_app. cbn. lia. }
        rewrite lookup_app_l in Hi by exact Hlt. split; [exact Hi|].
        intros j Hj Hw. apply (Hlast j Hj).
        rewrite lookup_app_l by (apply lookup_lt_Some in Hw; exact Hw).
        exact Hw.
Qed.

(** X1: for a vocabulary without repeated words, looking a word up and
    reading the row back are inverse: [_word2id[w] = i] exactly when
    [_id2word[i] = w]; a word outside the vocabulary has no entry. *)
Theorem build_word2id_inverse (id2word : list string) :
  NoDup id2word ->
  (forall w i, build_word2id id2word !! w = Some i <-> id2word !! i = Some w)
  /\ (forall w, build_word2id id2word !! w = None <-> w ∉ id2word).
Proof.
  intros Hnd.
  assert (Hinv : forall w i,
            build_word2id id2word !! w = Some i <-> id2word !! i = Some w).
  { intros w i. rewrite build_word2id_last. split; [intros [Hi _]; exact Hi|].
    intros Hi. split; [exact Hi|]. intros j Hj Hw.
    pose proof (NoDup_lookup _ _ _ _ Hnd Hi Hw). lia. }
  split; [exact Hinv|].
  intros w. split.
  - intros Hnone Hin. apply list_elem_of_lookup in Hin as [i Hi].
    apply Hinv in Hi. congruence.
  - intros Hnot. destruct (build_word2id id2word !! w) as [i|] eqn:E; [|reflexivity].
    exfalso. apply Hnot. apply Hinv in E. apply list_elem_of_lookup. eauto.
Qed.

(** The example vocabulary has no repeated word. *)
Lemma build_word2id_inverse_witness :
  (forall w i, build_word2id example_id2word !! w = Some i
               <-> example_id2word !! i = Some w)
  /\ (forall w, build_word2id example_id2word !! w = None
                <-> w ∉ example_id2word).
Proof.
  apply (build_word2id_inverse example_id2word).
  apply NoDup_ListNoDup. unfold example_id2word.
  repeat (constructor; [cbn; intuition discriminate|]). constructor.
Defined.

(** ** The counters of [eval] *)

Lemma dict_sum_insert_fresh (m : gmap nat Z) (i : nat) (x : Z) :
  m !! i = None -> dict_sum (<[i := x]> m) = x + dict_sum m.
Proof.
  intros Hi. unfold dict_sum. apply map_fold_insert_L; [|exact Hi].
  intros. lia.
Qed.

Lemma dict_incr_sum (d : gmap nat Z) (k : nat) (v : Z) :
  d !! k = Some v ->
  dict_incr d k = Ok (<[k := v + 1]> d)
  /\ dict_sum (<[k := v + 1]> d) = dict_sum d + 1.
Proof.
  intros Hk. split; [unfold dict_incr; rewrite Hk; reflexivity|].
  rewrite <- (insert_delete_eq d k (v + 1)).
  rewrite dict_sum_insert_fresh by apply lookup_delete_eq.
  rewrite <- (insert_delete_id d k v Hk) at 2.
  rewrite dict_sum_insert_fresh by apply lookup_delete_eq. lia.
Qed.

Lemma has_keys_insert (n : nat) (d : gmap nat Z) (k : nat) (x : Z) :
  has_keys n d -> has_keys n (<[k := x]> d).
Proof.
  intros Hd i Hi. destruct (decide (k = i)) as [->|Hne].
  - rewrite lookup_insert_eq. eauto.
  - rewrite lookup_insert_ne by exact Hne. exact (Hd i Hi).
Qed.

Lemma has_keys_zeros (n : nat) : has_keys n (dict_zeros n).
Proof. intros i Hi. exists 0. apply dict_zeros_keys. exact Hi. Qed.

(** One question: the scan returns, adds at most one hit and counts at
    most [ANALOGY_COUNT] skips. *)
Lemma scan_safe (idx_row sub_row : list nat) (correct : gmap nat Z) :
  length idx_row = ANALOGY_COUNT ->
  length sub_row = 4%nat ->
  has_keys ANALOGY_COUNT correct ->
  exists skips correct',
    scan (seq 0 ANALOGY_COUNT) idx_row sub_row 0%nat 0%nat correct
    = Ok (skips, correct')
    /\ (skips <= ANALOGY_COUNT)%nat
    /\ has_keys ANALOGY_COUNT correct'
    /\ dict_sum correct <= dict_sum correct' <= dict_sum correct + 1.
Proof.
  intros Hlen Hsub Hkeys.
  destruct (lookup_lt_is_Some_2 sub_row 3 ltac:(lia)) as [d Hd].
  assert (Et : take ANALOGY_COUNT (drop 0 idx_row) = idx_row).
  { rewrite drop_0, <- Hlen. apply firstn_all. }
  destruct (decide (d ∈ idx_row)) as [Hin|Hnot].
  - apply list_elem_of_split_l in Hin as (pre & post & E & Hpre).
    assert (Hpre_len : (length pre < ANALOGY_COUNT)%nat).
    { rewrite <- Hlen, E, length_app. cbn. lia. }
    pose proof (count_if_split (fun p => in_first3 p sub_row) pre) as Hsplit.
    set (prio := count_if (fun p => negb (in_first3 p sub_row)) pre) in *.
    set (skips := count_if (fun p => in_first3 p sub_row) pre) in *.
    destruct (Hkeys prio ltac:(lia)) as [v Hv].
    destruct (dict_incr_sum correct prio v Hv) as [Hincr Hsum].
    exists skips, (<[prio := v + 1]> correct). split; [|split; [|split]].
    + rewrite (scan_hit sub_row d Hd pre 0 ANALOGY_COUNT 0 0 correct post idx_row).
      * cbn [Nat.add]. fold prio skips. rewrite Hincr. reflexivity.
      * rewrite Et. exact E.
      * exact Hpre.
    + lia.
    + apply has_keys_insert. exact Hkeys.
    + lia.
  - exists (count_if (fun p => in_first3 p sub_row) idx_row), correct.
    split; [|split; [|split]].
    + rewrite (scan_miss sub_row d Hd ANALOGY_COUNT 0 0 0 correct idx_row).
      * rewrite Et. reflexivity.
      * rewrite Et. exact Hlen.
      * rewrite Et. exact Hnot.
    + rewrite <- Hlen. apply count_if_le.
    + exact Hkeys.
    + lia.
Qed.

Lemma score_batch_safe (idx sub : list (list nat)) :
  forall (n k : nat) (correct skips_map : gmap nat Z),
    (forall i, (k <= i < k + n)%nat ->
       exists p q, idx !! i = Some p /\ sub !! i = Some q
                   /\ length p = ANALOGY_COUNT /\ length q = 4%nat) ->
    has_keys ANALOGY_COUNT correct ->
    has_keys (ANALOGY_COUNT + 1) skips_map ->
    exists correct' skips_map',
      score_batch (seq k n) idx sub correct skips_map
      = Ok (correct', skips_map')
      /\ has_keys ANALOGY_COUNT correct'
      /\ has_keys (ANALOGY_COUNT + 1) skips_map'
      /\ dict_sum skips_map' = dict_sum skips_map + Z.of_nat n
      /\ dict_sum correct <= dict_sum correct'
         <= dict_sum correct + Z.of_nat n.
Proof.
  induction n as [|n IH]; intros k correct skips_map Hrows Hc Hs.
  - exists correct, skips_map. cbn. repeat split; try assumption; lia.
  - destruct (Hrows k ltac:(lia)) as (p & q & Hp & Hq & Hpl & Hql).
    destruct (scan_safe p q correct Hpl Hql Hc)
      as (skips & c1 & Hscan & Hskips & Hc1 & Hsum1).
    destruct (Hs skips ltac:(lia)) as [v Hv].
    destruct (dict_incr_sum skips_map skips v Hv) as [Hincr Hsum2].
    destruct (IH (S k) c1 (<[skips := v + 1]> skips_map))
      as (c2 & s2 & Hrest & Hc2 & Hs2 & Hsum3 & Hsum4).
    + intros i Hi. apply Hrows. lia.
    + exact Hc1.
    + apply has_keys_insert. exact Hs.
    + exists c2, s2. split; [|repeat split; try assumption; lia].
      cbn [seq]. rewrite (score_batch_cons k _ idx sub p q correct c1
                            skips_map _ skips Hp Hq Hscan Hincr).
      exact Hrest.
Qed.

Section EvalInvariants.
Variable _predict : list (list nat) -> result (list (list nat)).
Variable P : list nat -> Prop.
Hypothesis Hpredict : predicts_rows P _predict.

Lemma eval_batches_safe (questions : list (list nat)) :
  four_ids P questions ->
  forall (fuel start : nat) (correct skips_map : gmap nat Z),
    (length questions - start <= fuel)%nat ->
    has_keys ANALOGY_COUNT correct ->
    has_keys (ANALOGY_COUNT + 1) skips_map ->
    exists correct' skips_map',
      eval_batches _predict fuel questions (length questions) start
                   correct skips_map
      = Ok (correct', skips_map')
      /\ has_keys ANALOGY_COUNT correct'
      /\ has_keys (ANALOGY_COUNT + 1) skips_map'
      /\ dict_sum skips_map'
         = dict_sum skips_map + Z.of_nat (length questions - start)
      /\ dict_sum correct <= dict_sum correct'
         <= dict_sum correct + Z.of_nat (length questions - start).
Proof.
  intros Hq. induction fuel as [|fuel IH]; intros start correct skips_map Hfuel Hc Hs.
  - exists correct, skips_map.
    assert (Hge : (length questions <= start)%nat) by lia.
    cbn [eval_batches]. rewrite (proj2 (Nat.ltb_ge _ _) Hge).
    replace (length questions - start)%nat with 0%nat by lia.
    repeat split; try assumption; lia.
  - cbn [eval_batches]. destruct (Nat.ltb start (length questions)) eqn:Elt.
    + apply Nat.ltb_lt in Elt.
      set (sub := slice questions start (start + 2500)).
      assert (Hsub : sub = take 2500 (drop start questions)).
      { subst sub. unfold slice. f_equal. lia. }
      assert (Hsub_q : Forall (fun q => P q /\ length q = 4%nat) sub).
      { rewrite Hsub. apply Forall_take, Forall_drop. exact Hq. }
      destruct (Hpredict sub) as (idx & Hidx & Hrows).
      { eapply Forall_impl; [exact Hsub_q|]. intros q [HP _]. exact HP. }
      rewrite Hidx. cbn [mbind result_bind rbind].
      destruct (score_batch_safe idx sub (length sub) 0 correct skips_map)
        as (c1 & s1 & Hscore & Hc1 & Hs1 & Hsum1 & Hsum2); [|exact Hc|exact Hs|].
      { intros i Hi.
        destruct (lookup_lt_is_Some_2 sub i ltac:(lia)) as [q Eq].
        destruct (Forall2_lookup_l _ _ _ _ _ Hrows Eq) as (p & Ep & Hp).
        exists p, q. repeat split; try assumption.
        exact (proj2 (proj1 (Forall_lookup _ _) Hsub_q i q Eq)). }
      rewrite Hscore. cbn [mbind result_bind rbind].
      destruct (IH (start + 2500)%nat c1 s1 ltac:(lia) Hc1 Hs1)
        as (c2 & s2 & Hrest & Hc2 & Hs2 & Hsum3 & Hsum4).
      exists c2, s2. split; [exact Hrest|].
      assert (Hlen : length sub
                     = (length questions - start
                        - (length questions - (start + 2500)))%nat).
      { rewrite Hsub, length_take, length_drop. lia. }
      repeat split; try assumption; lia.
    + apply Nat.ltb_ge in Elt. exists correct, skips_map.
      replace (length questions - start)%nat with 0%nat by lia.
      repeat split; try assumption; lia.
Qed.

End EvalInvariants.

Lemma percent_list_ok (d : gmap nat Z) (keys : list nat) (denom : Z) :
  denom <> 0 ->
  Forall (fun i => is_Some (d !! i)) keys ->
  exists qs, percent_list d keys denom = Ok qs /\ length qs = length keys.
Proof.
  intros Hden. induction 1 as [|i keys [v Hv] _ (qs & Hqs & Hlen)].
  - exists []. split; reflexivity.
  - exists ((inject_Z v * 100 / inject_Z denom)%Q :: qs). split.
    + cbn [percent_list]. rewrite Hv. cbn [mbind result_bind rbind].
      unfold percent. rewrite (proj2 (Z.eqb_neq denom 0) Hden).
      cbn [rbind]. rewrite Hqs. reflexivity.
    + cbn [length]. rewrite Hlen. reflexivity.
Qed.

Lemma percent_bounds (x y : Z) :
  0 <= x <= y -> 0 < y ->
  exists q, percent x y = Ok q /\ (0 <= q <= 100)%Q.
Proof.
  intros [Hx Hxy] Hy. exists (inject_Z x * 100 / inject_Z y)%Q. split.
  - unfold percent. rewrite (proj2 (Z.eqb_neq y 0)) by lia. reflexivity.
  - assert (Hyq : (0 < inject_Z y)%Q).
    { change 0%Q with (inject_Z 0). rewrite <- Zlt_Qlt. exact Hy. }
    change 100%Q with (inject_Z 100). rewrite <- inject_Z_mult. split.
    + apply Qle_shift_div_l; [exact Hyq|]. rewrite Qmult_0_l.
      change 0%Q with (inject_Z 0). rewrite <- Zle_Qle. lia.
    + apply Qle_shift_div_r; [exact Hyq|]. rewrite <- inject_Z_mult.
      rewrite <- Zle_Qle. lia.
Qed.

Lemma has_keys_seq (n k m : nat) (d : gmap nat Z) :
  has_keys n d -> (k + m <= n)%nat ->
  Forall (fun i => is_Some (d !! i)) (seq k m).
Proof.
  intros Hd Hle. apply Forall_forall. intros i Hi.
  apply list_elem_of_In, in_seq in Hi. apply Hd. lia.
Qed.

(** A block of four-id questions with at least one question is reported
    without an exception, whatever its size. *)
Lemma eval_block_safe
    (_predict : list (list nat) -> result (list (list nat)))
    (P : list nat -> Prop) (questions : list (list nat)) :
  predicts_rows P _predict ->
  four_ids P questions ->
  questions <> [] ->
  exists r, eval_block _predict questions = Ok r /\ report_of questions r.
Proof.
  intros Hpredict Hq Hne.
  assert (Hpos : (0 < length questions)%nat).
  { destruct questions; [contradiction|cbn; lia]. }
  destruct (eval_batches_safe _predict P Hpredict questions Hq
              (length questions) 0
              (dict_zeros ANALOGY_COUNT) (dict_zeros (ANALOGY_COUNT + 1))
              ltac:(lia) (has_keys_zeros _) (has_keys_zeros _))
    as (c & s & Hrun & Hc & Hs & Hsum_s & Hsum_c).
  rewrite Nat.sub_0_r in Hsum_s, Hsum_c.
  change (dict_sum (dict_zeros (ANALOGY_COUNT + 1))) with 0 in Hsum_s.
  change (dict_sum (dict_zeros ANALOGY_COUNT)) with 0 in Hsum_c.
  destruct (percent_list_ok c (seq 0 ANALOGY_COUNT) (Z.of_nat (length questions)))
    as (al & Hal & Hal_len); [lia|exact (has_keys_seq ANALOGY_COUNT 0 ANALOGY_COUNT c Hc ltac:(lia))|].
  destruct (percent_list_ok s (seq 1 ANALOGY_COUNT) (dict_sum s))
    as (sl & Hsl & Hsl_len);
    [lia|exact (has_keys_seq (ANALOGY_COUNT + 1) 1 ANALOGY_COUNT s Hs ltac:(lia))|].
  destruct (percent_bounds (dict_sum c) (Z.of_nat (length questions)))
    as (acc & Hacc & Hbounds); [lia|lia|].
  eexists. split.
  - unfold eval_block. rewrite Hrun. cbn [mbind result_bind rbind].
    rewrite Hal. cbn [mbind result_bind rbind]. rewrite Hsl.
    cbn [mbind result_bind rbind]. rewrite Hacc. reflexivity.
  - unfold report_of.
    cbn [rep_total rep_skips_map rep_guessed rep_correct rep_accuracy
           rep_accuracy_list rep_skips_list].
    rewrite length_seq in Hal_len, Hsl_len.
    repeat split; try assumption; try lia; apply Hbounds.
Qed.


Lemma fold_left_add_sum (l : list Z) (a : Z) :
  fold_left Z.add l a = a + sum_Z l.
Proof.
  revert a. induction l as [|x l IH]; intros a; cbn; [lia|].
  rewrite IH. unfold sum_Z. lia.
Qed.

Lemma eval_block_empty
    (_predict : list (list nat) -> result (list (list nat))) :
  eval_block _predict [] = Raise ZeroDivisionError.
Proof. reflexivity. Qed.

Section EvalReports.
Variable _predict : list (list nat) -> result (list (list nat)).
Variable P : list nat -> Prop.
Hypothesis Hpredict : predicts_rows P _predict.

Lemma eval_blocks_safe (blocks : list (list (list nat))) :
  Forall (fun b => four_ids P b /\ b <> []) blocks ->
  exists reports,
    eval_blocks _predict blocks = Ok reports
    /\ Forall2 report_of blocks reports.
Proof.
  induction 1 as [|b blocks [Hb Hne] _ (reports & Hrest & Hfacts)].
  - exists []. split; [reflexivity|constructor].
  - destruct (eval_block_safe _predict P b Hpredict Hb Hne) as (r & Hr & Hrep).
    exists (r :: reports). split.
    + cbn [eval_blocks]. rewrite Hr. cbn [mbind result_bind rbind].
      rewrite Hrest. reflexivity.
    + constructor; assumption.
Qed.

Lemma reports_sums (blocks : list (list (list nat)))
    (reports : list block_report) :
  Forall2 report_of blocks reports ->
  sum_Z (map rep_total reports) = Z.of_nat (length (concat blocks))
  /\ 0 <= sum_Z (map rep_guessed reports) <= sum_Z (map rep_total reports).
Proof.
  induction 1 as [|b r blocks reports (Ht & _ & _ & Hg & _) _ [IHt IHg]].
  - cbn. lia.
  - cbn [map concat]. unfold sum_Z in *. cbn [foldr].
    rewrite length_app, IHt. lia.
Qed.

(** X2: when every block holds at least one four-id question, [eval]
    reports every block without an exception, whatever the sizes of the
    blocks: per block the denominator is the number of its questions, the
    skip histogram counts every question once, and hits and accuracy are in
    range; the global line is printed exactly for two blocks or more, over
    the sums of the hits and of the questions of all blocks. *)
Theorem eval_report (blocks : list (list (list nat))) :
  Forall (fun b => four_ids P b /\ b <> []) blocks ->
  exists reports global,
    eval _predict blocks = Ok (reports, global)
    /\ Forall2 report_of blocks reports
    /\ ((length blocks <= 1)%nat -> global = None)
    /\ ((1 < length blocks)%nat ->
        exists q,
          global = Some (sum_Z (map rep_guessed reports),
                         Z.of_nat (length (concat blocks)), q)
          /\ 0 <= sum_Z (map rep_guessed reports)
             <= Z.of_nat (length (concat blocks))
          /\ (0 <= q <= 100)%Q).
Proof.
  intros Hblocks.
  destruct (eval_blocks_safe blocks Hblocks) as (reports & Hrun & Hfacts).
  destruct (reports_sums blocks reports Hfacts) as [Ht Hg].
  destruct (Nat.ltb 1 (length blocks)) eqn:Emulti.
  - apply Nat.ltb_lt in Emulti.
    assert (Hpos : 0 < Z.of_nat (length (concat blocks))).
    { destruct blocks as [|b blocks]; [cbn in Emulti; lia|].
      apply Forall_cons in Hblocks as [[_ Hne] _].
      cbn [concat]. rewrite length_app.
      destruct b; [contradiction|cbn; lia]. }
    destruct (percent_bounds (sum_Z (map rep_guessed reports))
                             (Z.of_nat (length (concat blocks))))
      as (q & Hq & Hbounds); [lia|exact Hpos|].
    exists reports, (Some (sum_Z (map rep_guessed reports),
                           Z.of_nat (length (concat blocks)), q)).
    split; [|split; [exact Hfacts|split; [lia|]]].
    + unfold eval. rewrite Hrun. cbn [mbind result_bind rbind].
      rewrite (proj2 (Nat.ltb_lt _ _) Emulti).
      rewrite !fold_left_add_sum, !Z.add_0_l, Ht, Hq. reflexivity.
    + intros _. exists q. split; [reflexivity|]. split; [lia|exact Hbounds].
  - apply Nat.ltb_ge in Emulti.
    exists reports, None. split; [|split; [exact Hfacts|split; [reflexivity|lia]]].
    unfold eval. rewrite Hrun. cbn [mbind result_bind rbind].
    rewrite (proj2 (Nat.ltb_ge _ _) Emulti). reflexivity.
Qed.

(** X3: an empty block stops the evaluation with a division by zero, once
    the blocks before it have been reported; the blocks after it are not
    evaluated. *)
Theorem eval_empty_block (before after : list (list (list nat))) :
  Forall (fun b => four_ids P b /\ b <> []) before ->
  eval _predict (before ++ [] :: after) = Raise ZeroDivisionError.
Proof.
  intros Hbefore.
  assert (Hblocks : eval_blocks _predict (before ++ [] :: after)
                    = Raise ZeroDivisionError).
  { induction Hbefore as [|b before [Hb Hne] _ IH].
    - cbn [app eval_blocks]. rewrite eval_block_empty. reflexivity.
    - destruct (eval_block_safe _predict P b Hpredict Hb Hne) as (r & Hr & _).
      cbn [app eval_blocks]. rewrite Hr. cbn [mbind result_bind rbind].
      rewrite IH. reflexivity. }
  unfold eval. rewrite Hblocks. reflexivity.
Qed.

End EvalReports.

Lemma example_predict_rows : predicts_rows (fun _ => True) example_predict.
Proof.
  intros sub _. eexists. split; [reflexivity|].
  induction sub as [|q sub IH]; [constructor|].
  constructor; [|exact IH]. cbv beta.
  repeat match goal with
         | |- context [match ?x with _ => _ end] => destruct x
         end; reflexivity.
Qed.

Lemma example_questions_four_ids :
  four_ids (fun _ => True) (read_lines example_word2id example_lines).1
  /\ (read_lines example_word2id example_lines).1 <> [].
Proof. split; [vm_compute; repeat constructor|vm_compute; discriminate]. Qed.

(** The example block evaluated twice: two reports and a global line. *)
Lemma eval_report_witness :
  exists reports global,
    eval example_predict
         [(read_lines example_word2id example_lines).1;
          (read_lines example_word2id example_lines).1]
    = Ok (reports, global)
    /\ length reports = 2%nat
    /\ exists q, global = Some (sum_Z (map rep_guessed reports), 6, q).
Proof.
  destruct (eval_report example_predict (fun _ => True) example_predict_rows
              [(read_lines example_word2id example_lines).1;
               (read_lines example_word2id example_lines).1])
    as (reports & global & Hrun & Hfacts & _ & Hglobal).
  - repeat constructor; apply example_questions_four_ids.
  - exists reports, global. split; [exact Hrun|]. split.
    + symmetry. exact (Forall2_length _ _ _ Hfacts).
    + destruct (Hglobal ltac:(cbn; lia)) as (q & Hq & _). exists q. exact Hq.
Defined.

(** The example block followed by an empty one. *)
Lemma eval_empty_block_witness :
  eval example_predict [(read_lines example_word2id example_lines).1; []]
  = Raise ZeroDivisionError.
Proof.
  apply (eval_empty_block example_predict (fun _ => True) example_predict_rows
           [(read_lines example_word2id example_lines).1] []).
  repeat constructor; apply example_questions_four_ids.
Defined.

(** ** From a question file to its report *)

Lemma spec_question_ids (word2id : gmap string nat) (line : string)
    (q : list nat) :
  spec_question word2id line = Some q ->
  length q = 4%nat /\ Forall (fun i => exists w, word2id !! w = Some i) q.
Proof.
  unfold spec_question.
  destruct (split " " (lower (strip line))) as [|w0 [|w1 [|w2 [|w3 [|w4 ws]]]]];
    try discriminate.
  destruct (word2id !! strip w0) eqn:E0, (word2id !! strip w1) eqn:E1,
           (word2id !! strip w2) eqn:E2, (word2id !! strip w3) eqn:E3;
    try discriminate.
  intros [= <-]. split; [reflexivity|]. repeat constructor; eauto.
Qed.

Lemma read_lines_questions (word2id : gmap string nat) (lines : list string) :
  (read_lines word2id lines).1
  = omap (spec_question word2id)
         (List.filter (fun l => negb (spec_ignored l)) lines).
Proof. unfold read_lines. rewrite read_lines_from. reflexivity. Qed.

Section LoadedFile.
Context {F : Type} `{ScalarOrder F}.
Variable m : Word2Vec F.
Hypothesis Hword2id : _word2id m = build_word2id (_id2word m).
Hypothesis Hrows : length (_w_in m) = length (_id2word m).
Hypothesis Hsize : (ANALOGY_COUNT <= length (_id2word m))%nat.

Lemma predict_predicts_rows :
  predicts_rows (ids_in_range (length (_w_in m))) (_predict (_w_in m)).
Proof.
  intros sub Hsub.
  destruct (predict_ranked (_w_in m) sub) as (idx & Hidx & Htop).
  - rewrite Hrows. exact Hsize.
  - exact Hsub.
  - exists idx. split; [exact Hidx|].
    eapply Forall2_impl; [exact Htop|].
    intros q pred Hq. exact (proj1 Hq).
Qed.

Lemma loaded_questions_in_range (lines : list string) :
  four_ids (ids_in_range (length (_w_in m)))
           (read_lines (_word2id m) lines).1.
Proof.
  rewrite read_lines_questions. apply Forall_forall. intros q Hq.
  apply list_elem_of_omap in Hq as (line & _ & Hline).
  destruct (spec_question_ids _ _ _ Hline) as [Hlen Hids].
  split; [|exact Hlen].
  destruct q as [|a [|b [|c [|d [|e q]]]]]; try discriminate Hlen.
  assert (Hrange : forall i, (exists w, _word2id m !! w = Some i) ->
                             (i < length (_w_in m))%nat).
  { intros i [w Hw]. rewrite Hword2id in Hw. rewrite Hrows.
    exact (build_word2id_range _ _ _ Hw). }
  apply Forall_cons in Hids as [Ha Hids].
  apply Forall_cons in Hids as [Hb Hids].
  apply Forall_cons in Hids as [Hc _].
  unfold ids_in_range. cbn [length nth]. repeat split; [lia|auto..].
Qed.

End LoadedFile.

(** X4: on a built model (lookup table made from the vocabulary, one
    embedding row per word, at least [ANALOGY_COUNT] words) the questions
    loaded from any file are accepted by the prediction graph: a file with
    at least one question line is evaluated to a report over exactly its
    loaded questions, and a file in which every line is ignored or skipped
    makes the evaluation fail with a division by zero. *)
Theorem eval_loaded_file {F : Type} `{ScalarOrder F} (m : Word2Vec F)
    (lines : list string) :
  _word2id m = build_word2id (_id2word m) ->
  length (_w_in m) = length (_id2word m) ->
  (ANALOGY_COUNT <= length (_id2word m))%nat ->
  let questions := (read_lines (_word2id m) lines).1 in
  (Exists (fun l => spec_ignored l = false
                    /\ spec_is_question (_word2id m) l = true) lines ->
   exists r, eval_block (_predict (_w_in m)) questions = Ok r
             /\ report_of questions r)
  /\ (Forall (fun l => spec_ignored l = true
                       \/ spec_is_question (_word2id m) l = false) lines ->
      eval_block (_predict (_w_in m)) questions = Raise ZeroDivisionError).
Proof.
  intros Hword2id Hrows Hsize questions. split.
  - intros Hex.
    apply (eval_block_safe _ (ids_in_range (length (_w_in m)))).
    + apply predict_predicts_rows; assumption.
    + apply loaded_questions_in_range; assumption.
    + subst questions. rewrite read_lines_questions.
      apply Exists_exists in Hex as (l & Hin & Hign & Hq).
      unfold spec_is_question in Hq.
      destruct (spec_question (_word2id m) l) as [q|] eqn:Eq; [|discriminate].
      intros Hnil.
      assert (Hmem : q ∈ omap (spec_question (_word2id m))
                          (List.filter (fun l => negb (spec_ignored l)) lines)).
      { apply list_elem_of_omap. exists l. split; [|exact Eq].
        apply list_elem_of_In, filter_In. split.
        - apply list_elem_of_In. exact Hin.
        - rewrite Hign. reflexivity. }
      rewrite Hnil in Hmem. apply elem_of_nil in Hmem. exact Hmem.
  - intros Hall.
    assert (Hnil : questions = []).
    { subst questions. rewrite read_lines_questions.
      induction Hall as [|l lines Hl _ IH]; [reflexivity|].
      cbn [List.filter]. destruct (spec_ignored l) eqn:Hign; cbn [negb].
      - exact IH.
      - destruct Hl as [Hl|Hl]; [discriminate|].
        cbn [omap list_omap]. unfold spec_is_question in Hl.
        destruct (spec_question (_word2id m) l); [discriminate|exact IH]. }
    rewrite Hnil. apply eval_block_empty.
Qed.

(** The five-word model and its question file: one question is loaded. *)
Lemma eval_loaded_file_witness :
  exists r,
    eval_block (_predict (_w_in small_model))
               (read_lines (_word2id small_model) small_lines).1 = Ok r
    /\ report_of (read_lines (_word2id small_model) small_lines).1 r.
Proof.
  assert (Hsize : (ANALOGY_COUNT <= length (_id2word small_model))%nat)
    by (unfold ANALOGY_COUNT; cbn; lia).
  destruct (eval_loaded_file small_model small_lines eq_refl eq_refl Hsize)
    as [Hok _].
  apply Hok. apply Exists_cons_tl, Exists_cons_hd.
  split; vm_compute; reflexivity.
Defined.

(** ** Runs of [main] *)

Section MainRuns.
Variable model : Type.
Variable ckpt_store : Type.
Variable Word2Vec_new : Options -> result model.
Variable saver_restore : ckpt_store -> string -> model -> result model.
Variable saver_save : model -> string -> ckpt_store -> ckpt_store.
Variable model_eval : model -> result unit.
Variable model_train : model -> result model.
Variable start_shell : model -> result unit.

(** X5: a run with [load_data] and without [resume] builds the model,
    restores the checkpoint, evaluates once and, unless [interactive] was
    switched off, opens the shell; it never trains and never saves. *)
Theorem main_load_only (F : Flags) (st : ckpt_store) :
  truthy_string (FLAGS_train_data F) = true ->
  truthy_string (FLAGS_eval_data F) = true ->
  FLAGS_load_data F = true ->
  FLAGS_resume F = false ->
  main model ckpt_store Word2Vec_new saver_restore saver_save
       model_eval model_train start_shell F st
  = (m0 ← Word2Vec_new (Options_init F);
     m1 ← saver_restore st
            (path_join (FLAGS_save_path F) "model.ckpt") m0;
     _ ← model_eval m1;
     match FLAGS_interactive F with
     | Some false => Ok tt
     | _ => start_shell m1
     end,
     st).
Proof.
  intros Htrain Heval Hload Hresume.
  unfold main. rewrite Htrain, Heval. cbn [negb orb].
  unfold Options_init. rewrite Hload, Hresume.
  cbn -[path_join]. unfold pbind, plift, pget, pret, pmodify.
  destruct (Word2Vec_new _) as [m0| |]; cbn [mbind result_bind rbind];
    try reflexivity.
  destruct (saver_restore st _ m0) as [m1| |]; cbn [mbind result_bind rbind];
    try reflexivity.
  destruct (model_eval m1) as [[]| |]; cbn [mbind result_bind rbind];
    try reflexivity.
  change (Z.to_nat 0) with 0%nat. cbn [train_epochs]. unfold pret.
  destruct (FLAGS_interactive F) as [[]|]; cbn -[path_join];
    destruct (start_shell m1) as [[]| |]; reflexivity.
Qed.

(** The training loop when training and evaluation succeed. *)
Lemma train_epochs_iter (train : model -> model) :
  (forall m, model_train m = Ok (train m)) ->
  (forall m, model_eval m = Ok tt) ->
  forall (n : nat) (m : model) (st : ckpt_store),
    train_epochs model ckpt_store model_eval model_train n m st
    = (Ok (Nat.iter n train m), st).
Proof.
  intros Htrain Heval. induction n as [|n IH]; intros m st; [reflexivity|].
  cbn [train_epochs]. unfold pbind, plift. rewrite Htrain, Heval.
  rewrite IH. rewrite Nat.iter_succ_r. reflexivity.
Qed.

(** X6: when the model is built (and restored, if asked), training and
    evaluation succeed, [epochs_to_train] is positive and [dry_run] is off,
    the checkpoint saved at the end is that of the model after exactly
    [epochs_to_train] training epochs, and the run ends as the shell
    does, if it is opened. *)
Theorem main_trained_checkpoint (F : Flags) (st : ckpt_store)
    (train : model -> model) (m0 m1 : model) :
  let opts := Options_init F in
  let model_path := path_join (save_path opts) "model.ckpt" in
  truthy_string (FLAGS_train_data F) = true ->
  truthy_string (FLAGS_eval_data F) = true ->
  Word2Vec_new opts = Ok m0 ->
  (if load_data opts then saver_restore st model_path m0 else Ok m0) = Ok m1 ->
  (forall m, model_train m = Ok (train m)) ->
  (forall m, model_eval m = Ok tt) ->
  0 < epochs_to_train opts ->
  FLAGS_dry_run F = false ->
  let trained := Nat.iter (Z.to_nat (epochs_to_train opts)) train m1 in
  main model ckpt_store Word2Vec_new saver_restore saver_save
       model_eval model_train start_shell F st
  = (if truthy_bool (interactive opts) then start_shell trained else Ok tt,
     saver_save trained model_path st).
Proof.
  intros opts model_path Htd Hed Hnew Hrestore Htrain Heval Hepochs Hdry trained.
  assert (Hopts : opts = Options_init F) by reflexivity.
  assert (Hpath : model_path = path_join (save_path opts) "model.ckpt")
    by reflexivity.
  assert (Htrained : trained
                     = Nat.iter (Z.to_nat (epochs_to_train opts)) train m1)
    by reflexivity.
  clearbody trained model_path opts.
  unfold main. rewrite Htd, Hed. cbn [negb orb].
  rewrite <- Hopts, <- Hpath.
  unfold pbind, plift, pget, pret, pmodify. rewrite Hnew.
  assert (Hrun : forall m, (m = m1) ->
    (let (r, st') :=
       train_epochs model ckpt_store model_eval model_train
                    (Z.to_nat (epochs_to_train opts)) m st in
     match r with
     | Ok a =>
         let (r0, st'0) :=
           (if (0 <? epochs_to_train opts) && negb (FLAGS_dry_run F)
            then fun st0 => (Ok tt, saver_save a model_path st0)
            else fun st0 => (Ok tt, st0)) st' in
         match r0 with
         | Ok _ => (if truthy_bool (interactive opts)
                    then fun st0 => (start_shell a, st0)
                    else fun st0 => (Ok tt, st0)) st'0
         | Raise e => (Raise e, st'0)
         | Timeout => (Timeout, st'0)
         end
     | Raise e => (Raise e, st')
     | Timeout => (Timeout, st')
     end)
    = (if truthy_bool (interactive opts) then start_shell trained else Ok tt,
       saver_save trained model_path st)).
  { intros m ->. rewrite (train_epochs_iter train Htrain Heval).
    rewrite <- Htrained.
    rewrite (proj2 (Z.ltb_lt 0 (epochs_to_train opts)) Hepochs), Hdry.
    cbn [negb andb]. destruct (truthy_bool (interactive opts)); reflexivity. }
  destruct (load_data opts).
  - rewrite Hrestore, Heval. apply Hrun. reflexivity.
  - injection Hrestore as ->. rewrite Heval. apply Hrun. reflexivity.
Qed.

End MainRuns.

(** A load-only run on counters: the store is as before. *)
Lemma main_load_only_witness :
  main nat (list nat) counter_new counter_restore counter_save counter_eval
       counter_train counter_shell load_flags [7%nat]
  = (Ok tt, [7%nat]).
Proof.
  rewrite (main_load_only nat (list nat) counter_new counter_restore
             counter_save counter_eval counter_train counter_shell
             load_flags [7%nat] eq_refl eq_refl eq_refl eq_refl).
  reflexivity.
Defined.

(** Fifteen epochs on counters: the model saved is the one trained fifteen
    times. *)
Lemma main_trained_checkpoint_witness :
  main nat (list nat) counter_new counter_restore counter_save counter_eval
       counter_train counter_shell example_flags []
  = (Ok tt, [15%nat]).
Proof.
  exact (main_trained_checkpoint nat (list nat) counter_new counter_restore
           counter_save counter_eval counter_train counter_shell
           example_flags [] S 0%nat 0%nat eq_refl eq_refl eq_refl eq_refl
           (fun m => eq_refl) (fun m => eq_refl) eq_refl eq_refl).
Defined.

(** ** Errors of [save_vocab] *)

Lemma save_vocab_loop_app (vocab_words : list string) (vocab_counts : list Z)
    (r1 r2 : list nat) (f : string) :
  save_vocab_loop (r1 ++ r2) vocab_words vocab_counts f
  = (f' ← save_vocab_loop r1 vocab_words vocab_counts f;
     save_vocab_loop r2 vocab_words vocab_counts f').
Proof.
  revert f. induction r1 as [|i r1 IH]; intros f; [reflexivity|].
  cbn [app save_vocab_loop].
  destruct (index vocab_words i) as [w| |]; cbn [mbind result_bind rbind];
    try reflexivity.
  destruct (as_text w) as [t| |]; cbn [mbind result_bind rbind];
    try reflexivity.
  destruct (index vocab_counts i) as [c| |]; cbn [mbind result_bind rbind];
    try reflexivity.
  apply IH.
Qed.

(** X7: for words of ASCII text, [save_vocab] writes the file exactly when
    there is a count for every word, and then one line per word (counts
    beyond the last word are not written); with fewer counts than words it
    raises [IndexError].  A word that is not well-formed UTF-8 stops it
    with [UnicodeDecodeError], when the words before it are ASCII text and
    have their counts. *)
Theorem save_vocab_counts (vocab_words : list string) (vocab_counts : list Z) :
  (Forall (fun w => ascii_text w = true) vocab_words ->
   (length vocab_words <= length vocab_counts)%nat ->
   save_vocab vocab_words vocab_counts
   = Ok (unlines (map vocab_line (zip vocab_words vocab_counts)))
   /\ length (zip vocab_words vocab_counts) = length vocab_words)
  /\ (Forall (fun w => ascii_text w = true) vocab_words ->
      (length vocab_counts < length vocab_words)%nat ->
      save_vocab vocab_words vocab_counts = Raise IndexError)
  /\ (forall (before : list string) (w : string) (after : list string),
        vocab_words = (before ++ w :: after)%list ->
        Forall (fun w => ascii_text w = true) before ->
        utf8_valid w = false ->
        (length before <= length vocab_counts)%nat ->
        save_vocab vocab_words vocab_counts = Raise UnicodeDecodeError).
Proof.
  split; [|split].
  - intros Hascii Hle. split.
    + apply save_vocab_ascii; assumption.
    + rewrite length_zip_with. lia.
  - intros Hascii Hlt. unfold save_vocab.
    replace (length vocab_words)
      with (length vocab_counts
            + S (length vocab_words - S (length vocab_counts)))%nat by lia.
    rewrite seq_app, save_vocab_loop_app.
    rewrite (save_vocab_loop_seq vocab_words vocab_counts
               (length vocab_counts) 0 "");
      [|lia|lia|intros i w _ Ew; apply ascii_utf8_valid;
                exact (proj1 (Forall_lookup _ _) Hascii i w Ew)].
    cbn [mbind result_bind rbind seq save_vocab_loop Nat.add].
    destruct (lookup_lt_is_Some_2 vocab_words (length vocab_counts) Hlt)
      as [w Ew].
    unfold index. rewrite Ew, (lookup_ge_None_2 vocab_counts) by lia.
    cbn [mbind result_bind rbind].
    rewrite (as_text_valid w)
      by (apply ascii_utf8_valid;
          exact (proj1 (Forall_lookup _ _) Hascii _ w Ew)).
    reflexivity.
  - intros before w after -> Hascii Hw Hle. unfold save_vocab.
    rewrite length_app. cbn [length].
    rewrite seq_app, save_vocab_loop_app.
    rewrite (save_vocab_loop_seq (before ++ w :: after) vocab_counts
               (length before) 0 "").
    + cbn [mbind result_bind rbind seq save_vocab_loop Nat.add].
      unfold index. rewrite list_lookup_middle by reflexivity.
      cbn [mbind result_bind rbind]. unfold as_text, utf8_decode.
      rewrite Hw. reflexivity.
    + rewrite length_app. cbn [length]. lia.
    + lia.
    + intros i w' Hi Ew. apply ascii_utf8_valid.
      rewrite lookup_app_l in Ew by lia.
      exact (proj1 (Forall_lookup _ _) Hascii i w' Ew).
Qed.

(** ** The ends of the learning-rate schedule *)

(** X8: while [words_per_epoch * epochs_to_train] stays below [2^63], the
    rate starts at the initial rate, and once all
    [words_per_epoch * epochs_to_train] words have been processed it stays
    at the initial rate times 0.0001. *)
Theorem lr_endpoints (opts : Options) (words_per_epoch : Z) :
  0 < words_per_epoch * epochs_to_train opts < 2 ^ 63 ->
  (exists v, lr opts words_per_epoch 0 = Some v
             /\ (v == learning_rate opts)%Q)
  /\ (forall total, words_per_epoch * epochs_to_train opts <= total ->
        exists v, lr opts words_per_epoch total = Some v
                  /\ (v == learning_rate opts * (1 # 10000))%Q).
Proof.
  intros Hpos.
  set (wtt := inject_Z (words_per_epoch * epochs_to_train opts)).
  assert (Hwtt : (0 < wtt)%Q) by (apply inject_Z_pos; exact (proj1 Hpos)).
  split.
  - eexists. split; [apply lr_defined; exact Hpos|]. fold wtt.
    assert (E : (1 - inject_Z 0 / wtt == 1)%Q).
    { unfold Qdiv. change (inject_Z 0) with 0%Q. rewrite Qmult_0_l.
      reflexivity. }
    rewrite E, Q.max_r by discriminate. apply Qmult_1_r.
  - intros total Htotal. eexists. split; [apply lr_defined; exact Hpos|].
    fold wtt.
    rewrite Q.max_l; [reflexivity|].
    apply Qle_trans with 0%Q; [|discriminate].
    assert (Hone : (1 <= inject_Z total / wtt)%Q).
    { apply Qle_shift_div_l; [exact Hwtt|]. rewrite Qmult_1_l.
      subst wtt. rewrite <- Zle_Qle. exact Htotal. }
    apply (Qplus_le_l _ _ (inject_Z total / wtt)).
    rewrite Qplus_0_l. unfold Qminus. rewrite <- Qplus_assoc.
    rewrite (Qplus_comm (- _)), Qplus_opp_r, Qplus_0_r. exact Hone.
Qed.

(** The default flags, 1000 words per epoch. *)
Lemma lr_endpoints_witness :
  (exists v, lr lr_example_opts 1000 0 = Some v
             /\ (v == learning_rate lr_example_opts)%Q)
  /\ (exists v, lr lr_example_opts 1000 20000 = Some v
                /\ (v == learning_rate lr_example_opts * (1 # 10000))%Q).
Proof.
  destruct (lr_endpoints lr_example_opts 1000 (conj eq_refl eq_refl))
    as [Hstart Hend].
  split; [exact Hstart|]. apply Hend. discriminate.
Defined.

(** ** Reading the counts back ([input/freq.py]) *)

Lemma uint_value_acc (d : Decimal.uint) :
  forall acc : positive,
    Z.pos (Pos.of_uint_acc d acc) = uint_value (Z.pos acc) d.
Proof.
  induction d; intros acc; cbn [Pos.of_uint_acc uint_value];
    try reflexivity; rewrite IHd; f_equal; lia.
Qed.

Lemma uint_value_of_uint (d : Decimal.uint) :
  Z.of_N (Pos.of_uint d) = uint_value 0 d.
Proof.
  induction d; cbn [Pos.of_uint uint_value]; try reflexivity;
    try (rewrite N2Z.inj_pos, uint_value_acc; reflexivity).
  exact IHd.
Qed.

Lemma int_digits_uint (d : Decimal.uint) :
  forall (acc : Z) (b : bool),
    d <> Decimal.Nil \/ b = true ->
    int_digits (NilEmpty.string_of_uint d) acc b = Some (uint_value acc d).
Proof.
  induction d; intros acc b Hd;
    try (cbn [NilEmpty.string_of_uint int_digits uint_value];
         change (digit_value _) with (Some 0)
         || change (digit_value _) with (Some 1)
         || change (digit_value _) with (Some 2)
         || change (digit_value _) with (Some 3)
         || change (digit_value _) with (Some 4)
         || change (digit_value _) with (Some 5)
         || change (digit_value _) with (Some 6)
         || change (digit_value _) with (Some 7)
         || change (digit_value _) with (Some 8)
         || change (digit_value _) with (Some 9);
         cbv iota beta; rewrite IHd by (right; reflexivity);
         f_equal; f_equal; lia).
  destruct Hd as [Hd| ->]; [contradiction|reflexivity].
Qed.

Lemma py_int_format_d (n : Z) : py_int (format_d n) = Some n.
Proof.
  assert (Hpos : forall p, uint_value 0 (Pos.to_uint p) = Z.pos p).
  { intros p. rewrite <- uint_value_of_uint, DecimalPos.Unsigned.of_to.
    reflexivity. }
  assert (Hdigits : forall p,
            int_digits (NilZero.string_of_uint (Pos.to_uint p)) 0 false
            = Some (Z.pos p)).
  { intros p. unfold NilZero.string_of_uint.
    pose proof (DecimalPos.Unsigned.to_uint_nonnil p) as Hnn.
    rewrite <- (Hpos p).
    destruct (Pos.to_uint p) eqn:E; [contradiction|..];
      apply int_digits_uint; left; discriminate. }
  unfold format_d. destruct n as [|p|p].
  - reflexivity.
  - cbn [Z.to_int NilZero.string_of_int].
    specialize (Hdigits p). unfold NilZero.string_of_uint in *.
    pose proof (DecimalPos.Unsigned.to_uint_nonnil p) as Hnn.
    destruct (Pos.to_uint p); [contradiction|..]; exact Hdigits.
  - cbn [Z.to_int NilZero.string_of_int py_int].
    rewrite Hdigits. reflexivity.
Qed.

Lemma str_split_cons2 (x y : ascii) (s : string) :
  str_split (String x (String y s))
  = if str_is_space x then str_split (String y s)
    else if str_is_space y
         then String x EmptyString :: str_split (String y s)
         else match str_split (String y s) with
              | w :: ws => String x w :: ws
              | [] => [String x EmptyString]
              end.
Proof. reflexivity. Qed.

Lemma str_split_lstrip (s : string) : str_split (str_lstrip s) = str_split s.
Proof.
  induction s as [|c s IH]; [reflexivity|].
  cbn [str_lstrip]. destruct (str_is_space c) eqn:Ec; [|reflexivity].
  rewrite IH. cbn [str_split]. rewrite Ec. reflexivity.
Qed.

Lemma str_rstrip_empty (s : string) :
  str_rstrip s = EmptyString -> str_split s = [].
Proof.
  induction s as [|c s IH]; [reflexivity|].
  cbn [str_rstrip]. destruct (str_rstrip s) eqn:Er; [|discriminate].
  destruct (str_is_space c) eqn:Ec; [|discriminate].
  intros _. cbn [str_split]. rewrite Ec. apply IH. reflexivity.
Qed.

Lemma str_rstrip_head (c : ascii) (s r : string) :
  str_rstrip (String c s) = r -> r <> EmptyString ->
  exists r', r = String c r'.
Proof.
  cbn [str_rstrip]. destruct (str_rstrip s).
  - destruct (str_is_space c); intros <- Hne; [contradiction|eauto].
  - intros <- _. eauto.
Qed.

Lemma str_split_rstrip (s : string) : str_split (str_rstrip s) = str_split s.
Proof.
  induction s as [|c s IH]; [reflexivity|].
  cbn [str_rstrip]. destruct (str_rstrip s) as [|y r] eqn:Er.
  - pose proof (str_rstrip_empty s Er) as Hs.
    destruct (str_is_space c) eqn:Ec.
    + cbn [str_split]. rewrite Ec. symmetry. exact Hs.
    + cbn [str_split]. rewrite Ec.
      destruct s as [|c' s']; [reflexivity|].
      rewrite Hs. destruct (str_is_space c'); reflexivity.
  - destruct s as [|c' s']; [discriminate Er|].
    destruct (str_rstrip_head c' s' (String y r) Er ltac:(discriminate))
      as [r' [= -> ->]].
    rewrite !str_split_cons2, IH. reflexivity.
Qed.

Lemma str_split_strip (s : string) : str_split (str_strip s) = str_split s.
Proof. unfold str_strip. rewrite str_split_lstrip. apply str_split_rstrip. Qed.

Lemma str_split_head (c : ascii) (s : string) :
  str_is_space c = false -> str_split (String c s) <> [].
Proof.
  intros Ec. cbn [str_split]. rewrite Ec.
  destruct s as [|c' s']; [discriminate|].
  destruct (str_is_space c'); [discriminate|].
  destruct (str_split (String c' s')); discriminate.
Qed.

Lemma str_split_app_space (s : string) (c : ascii) (t : string) :
  str_is_space c = true ->
  str_split (s ++ String c t) = (str_split s ++ str_split t)%list.
Proof.
  intros Hc. induction s as [|x s IH].
  - rewrite append_nil_l. cbn [str_split]. rewrite Hc. reflexivity.
  - rewrite append_cons. destruct (str_is_space x) eqn:Ex.
    + cbn [str_split]. rewrite Ex. exact IH.
    + destruct s as [|y s'].
      * rewrite append_nil_l in *. cbn [str_split]. rewrite Ex, Hc. reflexivity.
      * rewrite append_cons in *.
        rewrite !str_split_cons2.
        rewrite Ex, IH. destruct (str_is_space y) eqn:Ey; [reflexivity|].
        pose proof (str_split_head y s' Ey) as Hne.
        destruct (str_split (String y s')) as [|w ws]; [contradiction|].
        reflexivity.
Qed.

Lemma str_split_word (d : string) :
  d <> EmptyString ->
  all_chars (fun c => negb (str_is_space c)) d = true ->
  str_split d = [d].
Proof.
  induction d as [|c d IH]; [contradiction|]. intros _ Hall.
  cbn [all_chars] in Hall. apply andb_true_iff in Hall as [Hc Hd].
  apply negb_true_iff in Hc. cbn [str_split]. rewrite Hc.
  destruct d as [|c' d']; [reflexivity|].
  pose proof Hd as Hd'. cbn [all_chars] in Hd'.
  apply andb_true_iff in Hd' as [Hc' _]. apply negb_true_iff in Hc'.
  rewrite Hc', (IH ltac:(discriminate) Hd). reflexivity.
Qed.

Lemma all_chars_impl (f g : ascii -> bool) (s : string) :
  (forall c, f c = true -> g c = true) ->
  all_chars f s = true -> all_chars g s = true.
Proof.
  intros Hfg. induction s as [|c s IH]; [reflexivity|].
  cbn [all_chars]. rewrite !andb_true_iff. intros [Hc Hs].
  split; [apply Hfg, Hc|apply IH, Hs].
Qed.

Lemma digit_or_sign_not_space (c : ascii) :
  is_digit_or_sign c = true -> negb (str_is_space c) = true.
Proof.
  unfold is_digit_or_sign, str_is_space.
  destruct (Nat.eqb_spec (nat_of_ascii c) 45) as [->|_]; [reflexivity|].
  cbn [orb]. rewrite andb_true_iff, !Nat.leb_le. intros [H1 H2].
  apply negb_true_iff.
  destruct (Nat.eqb_spec (nat_of_ascii c) 32); [lia|].
  destruct (Nat.leb_spec 9 (nat_of_ascii c)),
           (Nat.leb_spec (nat_of_ascii c) 13),
           (Nat.leb_spec 28 (nat_of_ascii c)),
           (Nat.leb_spec (nat_of_ascii c) 31); cbn; try reflexivity; lia.
Qed.

Lemma line_num_vocab_line (w : string) (c : Z) :
  line_num (vocab_line (w, c) ++ String LF "") = inr c.
Proof.
  unfold line_num, vocab_line. cbn [fst snd].
  rewrite str_split_strip.
  rewrite !string_app_assoc.
  change (" " ++ format_d c ++ String LF "")%string
    with (String " " (format_d c ++ String LF ""))%string.
  rewrite (str_split_app_space w " " _ eq_refl).
  rewrite (str_split_app_space (format_d c) LF "" eq_refl).
  rewrite (str_split_word (format_d c)).
  - cbn [str_split]. rewrite app_nil_r, last_snoc, py_int_format_d. reflexivity.
  - intros E. pose proof (py_int_format_d c) as Hp. rewrite E in Hp.
    discriminate Hp.
  - apply (all_chars_impl is_digit_or_sign).
    + exact digit_or_sign_not_space.
    + apply format_d_digits.
Qed.

Lemma universal_lines_line (l rest : string) :
  no_newline l = true ->
  universal_lines (l ++ String LF rest)
  = (l ++ String LF "")%string :: universal_lines rest.
Proof.
  induction l as [|x l IH]; intros Hl.
  - rewrite !append_nil_l. cbn [universal_lines].
    rewrite Ascii.eqb_refl. reflexivity.
  - unfold no_newline in Hl. cbn [has_char] in Hl.
    rewrite !negb_orb, !andb_true_iff, !negb_true_iff in Hl.
    destruct Hl as [[Hx1 Hl1] [Hx2 Hl2]].
    rewrite !append_cons. cbn [universal_lines]. rewrite Hx1, Hx2.
    rewrite IH; [reflexivity|].
    unfold no_newline. rewrite Hl1, Hl2. reflexivity.
Qed.

Lemma universal_lines_unlines (ls : list string) :
  Forall (fun l => no_newline l = true) ls ->
  universal_lines (unlines ls) = map (fun l => (l ++ String LF "")%string) ls.
Proof.
  induction 1 as [|l ls Hl _ IH]; [reflexivity|].
  cbn [unlines map]. rewrite (universal_lines_line l _ Hl), IH. reflexivity.
Qed.

Lemma line_nums_vocab (entries : list (string * Z)) :
  line_nums (map (fun l => (l ++ String LF "")%string)
                 (map vocab_line entries))
  = inr (map snd entries).
Proof.
  induction entries as [|[w c] entries IH]; [reflexivity|].
  cbn [map line_nums]. rewrite line_num_vocab_line, IH. reflexivity.
Qed.

(** X9: [get_nums] of [input/freq.py], run on the file [save_vocab]
    wrote, returns the counts of the vocabulary without the first one (the
    count of [UNK]), for words of ASCII text that hold no line break. *)
Theorem get_nums_save_vocab (vocab_words : list string)
    (vocab_counts : list Z) :
  length vocab_counts = length vocab_words ->
  Forall (fun w => no_newline w = true /\ ascii_text w = true) vocab_words ->
  exists content,
    save_vocab vocab_words vocab_counts = Ok content
    /\ get_nums content = inr (drop 1 vocab_counts).
Proof.
  intros Hlen Hwords.
  set (entries := zip vocab_words vocab_counts).
  exists (unlines (map vocab_line entries)). split.
  - apply save_vocab_ascii; [|lia].
    eapply Forall_impl; [exact Hwords|]. intros w [_ Hw]. exact Hw.
  - assert (Hlines : Forall (fun l => no_newline l = true)
                            (map vocab_line entries)).
    { apply Forall_forall. intros l Hin.
      apply list_elem_of_In, in_map_iff in Hin as ([w c] & <- & Hin).
      assert (Hw : no_newline w = true).
      { apply list_elem_of_In, list_elem_of_lookup in Hin as [i Hi].
        subst entries. rewrite lookup_zip_with in Hi.
        destruct (vocab_words !! i) as [w'|] eqn:Ew; [|discriminate].
        destruct (vocab_counts !! i); [|discriminate].
        cbn in Hi. injection Hi as -> _.
        rewrite Forall_forall in Hwords.
        apply (Hwords w). apply list_elem_of_lookup. eauto. }
      unfold no_newline in *. unfold vocab_line. cbn [fst snd].
      apply andb_true_iff in Hw as [Hw1 Hw2].
      rewrite !has_char_app. apply negb_true_iff in Hw1, Hw2.
      rewrite Hw1, Hw2, format_d_no_LF.
      rewrite (all_chars_has_char is_digit_or_sign CR (format_d c) eq_refl
                 (format_d_digits c)).
      reflexivity. }
    unfold get_nums.
    rewrite (universal_lines_unlines _ Hlines), line_nums_vocab.
    subst entries. rewrite snd_zip by lia. reflexivity.
Qed.

(** The example vocabulary: thirteen counts are read back. *)
Lemma get_nums_save_vocab_witness :
  exists content,
    save_vocab example_id2word example_counts = Ok content
    /\ get_nums content = inr [120; 90; 85; 60; 44; 40; 31; 30; 12; 11; 9; 8; 5].
Proof.
  apply (get_nums_save_vocab example_id2word example_counts).
  - reflexivity.
  - repeat constructor.
Defined.

(** ** Bytes and text *)

Section CodecFacts.
Variable text : Type.
Variable to_utf : text -> option string.
Variable from_utf : string -> option text.

Lemma pyval_induct (P : pyval text -> Prop) :
  (forall b, P (PBytes b)) ->
  (forall t, P (PText t)) ->
  (forall l, Forall P l -> P (PList l)) ->
  forall v, P v.
Proof.
  intros Hb Ht Hl. fix IH 1. intros [b|t|l].
  - apply Hb.
  - apply Ht.
  - apply Hl. induction l as [|x l IHl]; constructor; [apply IH|exact IHl].
Qed.

Lemma map_opt_Some {A B} (f : A -> option B) (l : list A) (l' : list B) :
  map_opt f l = Some l' <-> Forall2 (fun x y => f x = Some y) l l'.
Proof.
  revert l'. induction l as [|x l IH]; intros l'.
  - cbn. split.
    + intros [= <-]. constructor.
    + intros Hl. apply Forall2_nil_inv_l in Hl. subst. reflexivity.
  - cbn [map_opt]. split.
    + destruct (f x) as [y|] eqn:Ex; [|discriminate].
      destruct (map_opt f l) as [ys|] eqn:El; [|discriminate].
      intros [= <-]. constructor; [exact Ex|]. apply IH. reflexivity.
    + intros Hl. apply Forall2_cons_inv_l in Hl as (y & ys & Ex & Hys & ->).
      rewrite Ex. apply IH in Hys. rewrite Hys. reflexivity.
Qed.

(** X10: what [u2b] returns holds no text any more, and [u2b] leaves it
    as it is (so [u2b] applied twice is [u2b]); the same for [b2u] and
    bytes. *)
Theorem u2b_b2u_idempotent (v v' : pyval text) :
  (u2b text to_utf v = Some v' ->
   only_bytes text v' = true /\ u2b text to_utf v' = Some v')
  /\ (b2u text from_utf v = Some v' ->
      only_text text v' = true /\ b2u text from_utf v' = Some v').
Proof.
  split.
  - revert v'. induction v as [b|t|l IH] using pyval_induct; intros v' Hv.
    + injection Hv as <-. split; reflexivity.
    + cbn in Hv. destruct (to_utf t); [|discriminate].
      injection Hv as <-. split; reflexivity.
    + cbn [u2b] in Hv.
      destruct (map_opt (u2b text to_utf) l) as [l'|] eqn:El; [|discriminate].
      injection Hv as <-. apply map_opt_Some in El.
      assert (Hall : Forall (fun y => only_bytes text y = true
                                      /\ u2b text to_utf y = Some y) l').
      { clear -IH El. induction El as [|x y l l' Hxy _ IHl]; [constructor|].
        apply Forall_cons in IH as [Hx IH].
        constructor; [exact (Hx y Hxy)|exact (IHl IH)]. }
      split.
      * cbn [only_bytes]. apply forallb_forall. intros y Hy.
        rewrite Forall_forall in Hall.
        apply (Hall y). apply list_elem_of_In. exact Hy.
      * cbn [u2b].
        assert (E : map_opt (u2b text to_utf) l' = Some l').
        { apply map_opt_Some. clear -Hall.
          induction Hall as [|y l' [_ Hy] _ IHl]; constructor; assumption. }
        rewrite E. reflexivity.
  - revert v'. induction v as [b|t|l IH] using pyval_induct; intros v' Hv.
    + cbn in Hv. destruct (from_utf b); [|discriminate].
      injection Hv as <-. split; reflexivity.
    + injection Hv as <-. split; reflexivity.
    + cbn [b2u] in Hv.
      destruct (map_opt (b2u text from_utf) l) as [l'|] eqn:El; [|discriminate].
      injection Hv as <-. apply map_opt_Some in El.
      assert (Hall : Forall (fun y => only_text text y = true
                                      /\ b2u text from_utf y = Some y) l').
      { clear -IH El. induction El as [|x y l l' Hxy _ IHl]; [constructor|].
        apply Forall_cons in IH as [Hx IH].
        constructor; [exact (Hx y Hxy)|exact (IHl IH)]. }
      split.
      * cbn [only_text]. apply forallb_forall. intros y Hy.
        rewrite Forall_forall in Hall.
        apply (Hall y). apply list_elem_of_In. exact Hy.
      * cbn [b2u].
        assert (E : map_opt (b2u text from_utf) l' = Some l').
        { apply map_opt_Some. clear -Hall.
          induction Hall as [|y l' [_ Hy] _ IHl]; constructor; assumption. }
        rewrite E. reflexivity.
Qed.

(** X11: when decoding undoes encoding, [b2u] undoes [u2b] on every value
    made of text only: [b2u(u2b(v)) = v], lists at any depth included. *)
Theorem b2u_u2b_round_trip (v v' : pyval text) :
  (forall t b, to_utf t = Some b -> from_utf b = Some t) ->
  only_text text v = true ->
  u2b text to_utf v = Some v' ->
  b2u text from_utf v' = Some v.
Proof.
  intros Hcodec. revert v'.
  induction v as [b|t|l IH] using pyval_induct; intros v' Htext Hv.
  - discriminate Htext.
  - cbn in Hv. destruct (to_utf t) as [b|] eqn:Et; [|discriminate].
    injection Hv as <-. cbn. rewrite (Hcodec t b Et). reflexivity.
  - cbn [u2b] in Hv.
    destruct (map_opt (u2b text to_utf) l) as [l'|] eqn:El; [|discriminate].
    injection Hv as <-. apply map_opt_Some in El. cbn [only_text] in Htext.
    assert (E : map_opt (b2u text from_utf) l' = Some l).
    { apply map_opt_Some. clear -IH El Htext.
      induction El as [|x y l l' Hxy _ IHl]; [constructor|].
      apply Forall_cons in IH as [Hx IH].
      cbn [forallb] in Htext. apply andb_true_iff in Htext as [Htx Htl].
      constructor; [exact (Hx y Htx Hxy)|exact (IHl IH Htl)]. }
    cbn [b2u]. rewrite E. reflexivity.
Qed.

End CodecFacts.

(** The words of a query, as text in a list, through the toy codec. *)
Lemma b2u_u2b_round_trip_witness :
  b2u string ascii_from_utf
      (PList [PBytes "france"; PBytes "paris"; PBytes "russia"])
  = Some (PList [PText "france"; PText "paris"; PText "russia"]).
Proof.
  apply (b2u_u2b_round_trip string ascii_to_utf ascii_from_utf
           (PList [PText "france"; PText "paris"; PText "russia"])).
  - intros t b. unfold ascii_to_utf, ascii_from_utf.
    destruct (ascii_text t) eqn:Et; [|discriminate].
    intros [= <-]. rewrite Et. reflexivity.
  - reflexivity.
  - reflexivity.
Defined.

(** ** Expanding question pairs: the first pass *)

Lemma cq_line_step (st : cq_state) (line : string) :
  cq_line st line = cq_step st (cq_classify line).
Proof.
  unfold cq_line, cq_classify.
  destruct (is_empty (str_strip line)); [reflexivity|].
  destruct (startswith ":" (str_strip line)); reflexivity.
Qed.

Lemma cq_read_items (lines : list string) :
  forall st,
    cq_read lines st
    = cq_items (List.filter (fun i => negb (cq_is_blank i))
                            (map cq_classify lines)) st.
Proof.
  induction lines as [|line lines IH]; intros st; [reflexivity|].
  cbn [cq_read map List.filter]. rewrite cq_line_step.
  destruct (cq_classify line) as [|h|ws]; cbn [cq_is_blank negb cq_items].
  - cbn [cq_step mbind result_bind rbind]. apply IH.
  - destruct (cq_step st (CqHeader h)); cbn [mbind result_bind rbind];
      [apply IH|reflexivity..].
  - destruct (cq_step st (CqData ws)); cbn [mbind result_bind rbind];
      [apply IH|reflexivity..].
Qed.

Lemma cq_items_app (i1 i2 : list cq_item) (st : cq_state) :
  cq_items (i1 ++ i2) st = (st' ← cq_items i1 st; cq_items i2 st').
Proof.
  revert st. induction i1 as [|i i1 IH]; intros st; [reflexivity|].
  cbn [app cq_items].
  destruct (cq_step st i); cbn [mbind result_bind rbind]; [apply IH|reflexivity..].
Qed.

Lemma py_position_last {A} (l : list A) (x : A) :
  py_position (l ++ [x])%list (Z.of_nat (length l)) = Some (length l).
Proof.
  unfold py_position. rewrite length_app. cbn [length].
  rewrite (proj2 (Z.leb_le 0 _)) by lia.
  rewrite (proj2 (Z.ltb_lt _ _)) by lia.
  rewrite Nat2Z.id. reflexivity.
Qed.

Lemma alter_last {A} (f : A -> A) (l : list A) (x : A) :
  alter f (length l) (l ++ [x])%list = (l ++ [f x])%list.
Proof.
  induction l as [|y l IH]; [reflexivity|].
  cbn. f_equal. exact IH.
Qed.

(** The data lines of a section whose first line has been read. *)
Lemma cq_items_data (done : list (list (list string))) (header : list string) :
  forall (ds : list (list string)) (row : list (list string)),
    cq_items (map CqData ds)
      {| cq_flag := Z.of_nat (length done);
         cq_text := (done ++ [row])%list;
         cq_header := header |}
    = Ok {| cq_flag := Z.of_nat (length done);
            cq_text := (done ++ [(row ++ ds)%list])%list;
            cq_header := header |}.
Proof.
  induction ds as [|d ds IH]; intros row.
  - cbn. rewrite app_nil_r. reflexivity.
  - cbn [map cq_items cq_step cq_flag cq_text cq_header].
    rewrite length_app. cbn [length].
    rewrite (proj2 (Z.ltb_ge _ _)) by lia.
    rewrite py_position_last, alter_last.
    cbn [mbind result_bind rbind]. rewrite IH, <- app_assoc. reflexivity.
Qed.

(** A whole section with at least one line. *)
Lemma cq_items_section (done : list (list (list string)))
    (header : list string) (h : string) (d : list string)
    (ds : list (list string)) :
  cq_items (section_items (h, d :: ds))
    {| cq_flag := Z.of_nat (length done) - 1;
       cq_text := done;
       cq_header := header |}
  = Ok {| cq_flag := Z.of_nat (length (done ++ [d :: ds])%list) - 1;
          cq_text := (done ++ [d :: ds])%list;
          cq_header := (header ++ [h])%list |}.
Proof.
  unfold section_items. cbn [fst snd map cq_items cq_step cq_flag cq_text
                              cq_header mbind result_bind rbind].
  replace (Z.of_nat (length done) - 1 + 1) with (Z.of_nat (length done)) by lia.
  rewrite (proj2 (Z.ltb_lt _ _)) by lia.
  rewrite py_position_last, alter_last. cbn [mbind result_bind rbind app].
  rewrite (cq_items_data done (header ++ [h]) ds [d]).
  rewrite length_app. cbn [length app]. do 2 f_equal. lia.
Qed.

Lemma cq_items_sections (sections : list (string * list (list string))) :
  Forall (fun sec => sec.2 <> []) sections ->
  forall (done : list (list (list string))) (header : list string),
    cq_items (flat_map section_items sections)
      {| cq_flag := Z.of_nat (length done) - 1;
         cq_text := done;
         cq_header := header |}
    = Ok {| cq_flag := Z.of_nat (length (done ++ map snd sections)%list) - 1;
            cq_text := (done ++ map snd sections)%list;
            cq_header := (header ++ map fst sections)%list |}.
Proof.
  induction 1 as [|[h rows] sections Hrows _ IH]; intros done header.
  - cbn. rewrite !app_nil_r. reflexivity.
  - cbn [flat_map]. rewrite cq_items_app.
    cbn [snd] in Hrows. destruct rows as [|d ds]; [contradiction|].
    rewrite cq_items_section. cbn [mbind result_bind rbind].
    rewrite IH. cbn [map fst snd]. rewrite <- !app_assoc. reflexivity.
Qed.

Lemma cq_items_sections_init (sections : list (string * list (list string))) :
  Forall (fun sec => sec.2 <> []) sections ->
  cq_items (flat_map section_items sections)
    {| cq_flag := -1; cq_text := []; cq_header := [] |}
  = Ok {| cq_flag := Z.of_nat (length sections) - 1;
          cq_text := map snd sections;
          cq_header := map fst sections |}.
Proof.
  intros Hs.
  change (-1) with (Z.of_nat (length (@nil (list (list string)))) - 1).
  rewrite (cq_items_sections sections Hs [] []).
  cbn [app]. rewrite length_map. reflexivity.
Qed.

(** X12: on ASCII text, a line of words before the first header stops the
    script with [IndexError]: [text] is still empty when it is indexed. *)
Theorem convert_questions_no_header (lines : list string)
    (words : list string) (rest : list cq_item) :
  Forall (fun line => ascii_text line = true) lines ->
  List.filter (fun i => negb (cq_is_blank i)) (map cq_classify lines)
  = CqData words :: rest ->
  convert_questions lines = Raise IndexError.
Proof.
  intros _ Hitems. unfold convert_questions.
  rewrite cq_read_items, Hitems. reflexivity.
Qed.

(** Headers without lines under them only move [flag] on. *)
Lemma cq_items_headers (secs : list (string * list (list string))) :
  forall (flag : Z) (text : list (list (list string))) (hd : list string),
    Forall (fun sec => sec.2 = []) secs ->
    cq_items (flat_map section_items secs)
      {| cq_flag := flag; cq_text := text; cq_header := hd |}
    = Ok {| cq_flag := flag + Z.of_nat (length secs);
            cq_text := text;
            cq_header := (hd ++ map fst secs)%list |}.
Proof.
  induction secs as [|[h0 r0] secs IH]; intros flag text hd Hs.
  - cbn. rewrite Z.add_0_r, app_nil_r. reflexivity.
  - apply Forall_cons in Hs as [Hr Hs]. cbn [snd] in Hr. subst r0.
    cbn [flat_map section_items fst snd map app cq_items cq_step
         cq_flag cq_text cq_header mbind result_bind rbind].
    rewrite (IH _ _ _ Hs). cbn [length map fst].
    rewrite <- app_assoc. do 2 f_equal. lia.
Qed.

(** [flag] ahead of [text]: a header without lines, then a section with
    lines. *)
Lemma convert_questions_ahead (lines : list string)
    (good empties : list (string * list (list string)))
    (h h' : string) (d : list string) (ds : list (list string))
    (rest : list (string * list (list string))) :
  made_of lines (good ++ (h, []) :: empties ++ (h', d :: ds) :: rest)%list ->
  Forall (fun sec => sec.2 <> []) good ->
  Forall (fun sec => sec.2 = []) empties ->
  convert_questions lines = Raise IndexError.
Proof.
  intros Hlines Hgood Hempty. unfold convert_questions, made_of in *.
  rewrite cq_read_items, Hlines. rewrite flat_map_app, cq_items_app.
  rewrite (cq_items_sections_init good Hgood).
  cbn [mbind result_bind rbind].
  change ((h, []) :: empties ++ (h', d :: ds) :: rest)%list
    with (((h, []) :: empties) ++ (h', d :: ds) :: rest)%list.
  rewrite flat_map_app, cq_items_app.
  rewrite (cq_items_headers ((h, []) :: empties))
    by (constructor; [reflexivity|exact Hempty]).
  cbn [mbind result_bind rbind flat_map section_items fst snd map app
       cq_items cq_step cq_flag cq_text cq_header].
  rewrite !length_map.
  rewrite (proj2 (Z.ltb_lt _ _)) by (cbn [length]; lia).
  unfold py_position. rewrite length_app, length_map. cbn [length].
  rewrite (proj2 (Z.leb_le 0 _)) by lia.
  rewrite (proj2 (Z.ltb_ge _ _)) by lia.
  reflexivity.
Qed.

(** X13: on ASCII text, a header without lines under it, followed (after
    any number of such headers) by a section with lines, stops the script
    with [IndexError]: [flag] has run ahead of [text]. *)
Theorem convert_questions_empty_section (lines : list string)
    (good empties : list (string * list (list string)))
    (h h' : string) (d : list string) (ds : list (list string))
    (rest : list (string * list (list string))) :
  Forall (fun line => ascii_text line = true) lines ->
  made_of lines (good ++ (h, []) :: empties ++ (h', d :: ds) :: rest)%list ->
  Forall (fun sec => sec.2 <> []) good ->
  Forall (fun sec => sec.2 = []) empties ->
  convert_questions lines = Raise IndexError.
Proof.
  intros _ Hlines Hgood Hempty.
  exact (convert_questions_ahead lines good empties h h' d ds rest
           Hlines Hgood Hempty).
Qed.

(** ** Expanding question pairs: the pairs and the output *)

Lemma for_range_app {St} (r1 r2 : list nat) (body : nat -> St -> result St)
    (s : St) :
  for_range (r1 ++ r2)%list body s
  = (s' ← for_range r1 body s; for_range r2 body s').
Proof.
  revert s. induction r1 as [|i r1 IH]; intros s; [reflexivity|].
  cbn [app for_range].
  destruct (body i s); cbn [mbind result_bind rbind]; [apply IH|reflexivity..].
Qed.

Lemma index_lookup {A} (l : list A) (i : nat) (x : A) :
  l !! i = Some x -> index l i = Ok x.
Proof. intros Hx. unfold index. rewrite Hx. reflexivity. Qed.

Lemma index_nth {A} (l : list A) (i : nat) (d : A) :
  (i < length l)%nat -> index l i = Ok (nth i l d).
Proof.
  intros Hi. unfold index.
  destruct (lookup_lt_is_Some_2 l i Hi) as [x Hx].
  rewrite Hx, (nth_lookup_Some _ _ d _ Hx). reflexivity.
Qed.

Lemma cq_pair_ok (text : list (list (list string))) (row : list (list string))
    (t x y : nat) (done : list (list (list string))) (acc : list (list string)) :
  text !! t = Some row -> (x < length row)%nat -> (y < length row)%nat ->
  length done = t ->
  cq_pair text t x y (res_with done acc)
  = Ok (res_with done (acc ++ pair_of row x y)%list).
Proof.
  intros Ht Hx Hy Hdone. unfold cq_pair, pair_of.
  destruct (Nat.eqb x y); [rewrite app_nil_r; reflexivity|].
  rewrite (index_lookup _ _ _ Ht). cbn [mbind result_bind rbind].
  rewrite (index_nth row x []), (index_nth row y []) by assumption.
  cbn [mbind result_bind rbind]. subst t.
  destruct acc as [|q acc]; cbn [res_with app].
  - rewrite (proj2 (Z.ltb_lt _ _)) by lia.
    rewrite list_lookup_middle by reflexivity. rewrite alter_last. reflexivity.
  - rewrite length_app. cbn [length].
    rewrite (proj2 (Z.ltb_ge _ _)) by lia.
    rewrite list_lookup_middle by reflexivity. rewrite alter_last. reflexivity.
Qed.

Lemma cq_pairs_inner (text : list (list (list string)))
    (row : list (list string)) (t x : nat) (done : list (list (list string))) :
  text !! t = Some row -> (x < length row)%nat -> length done = t ->
  forall (ys : list nat) (acc : list (list string)),
    Forall (fun y => (y < length row)%nat) ys ->
    for_range ys (fun y res => cq_pair text t x y res) (res_with done acc)
    = Ok (res_with done (acc ++ flat_map (pair_of row x) ys)%list).
Proof.
  intros Ht Hx Hdone. induction ys as [|y ys IH]; intros acc Hys.
  - cbn. rewrite app_nil_r. reflexivity.
  - apply Forall_cons in Hys as [Hy Hys]. cbn [for_range flat_map].
    rewrite (cq_pair_ok text row t x y done acc Ht Hx Hy Hdone).
    cbn [mbind result_bind rbind]. rewrite (IH _ Hys), <- app_assoc.
    reflexivity.
Qed.

Lemma seq_below (n : nat) : Forall (fun i => (i < n)%nat) (seq 0 n).
Proof. apply Forall_forall. intros i Hi. apply elem_of_seq in Hi. lia. Qed.

Lemma cq_pairs_middle (text : list (list (list string)))
    (row : list (list string)) (t : nat) (done : list (list (list string))) :
  text !! t = Some row -> length done = t ->
  forall (xs : list nat) (acc : list (list string)),
    Forall (fun x => (x < length row)%nat) xs ->
    for_range xs
      (fun x res =>
         for_range (seq 0 (length row)) (fun y res => cq_pair text t x y res)
                   res)
      (res_with done acc)
    = Ok (res_with done
            (acc ++ flat_map
                      (fun x => flat_map (pair_of row x) (seq 0 (length row)))
                      xs)%list).
Proof.
  intros Ht Hdone. induction xs as [|x xs IH]; intros acc Hxs.
  - cbn. rewrite app_nil_r. reflexivity.
  - apply Forall_cons in Hxs as [Hx Hxs]. cbn [for_range flat_map].
    rewrite (cq_pairs_inner text row t x done Ht Hx Hdone _ _
               (seq_below (length row))).
    cbn [mbind result_bind rbind]. rewrite (IH _ Hxs), <- app_assoc.
    reflexivity.
Qed.

(** A section read at its own position adds its ordered pairs. *)
Lemma cq_rows_fill (text : list (list (list string)))
    (row : list (list string)) (done : list (list (list string))) :
  text !! length done = Some row ->
  cq_rows text (length done) done = Ok (res_with done (ordered_pairs row)).
Proof.
  intros Ht. unfold cq_rows. rewrite (index_lookup _ _ _ Ht).
  cbn [mbind result_bind rbind].
  exact (cq_pairs_middle text row (length done) done Ht eq_refl _ []
           (seq_below (length row))).
Qed.

Lemma ordered_pairs_short (row : list (list string)) :
  (length row <= 1)%nat -> ordered_pairs row = [].
Proof.
  destruct row as [|r0 [|r1 rs]]; cbn [length]; intros Hlen;
    [reflexivity|reflexivity|lia].
Qed.

Lemma ordered_pairs_long (row : list (list string)) :
  (2 <= length row)%nat -> ordered_pairs row <> [].
Proof.
  destruct row as [|r0 [|r1 rs]]; cbn [length]; intros Hlen; [lia|lia|].
  unfold ordered_pairs. cbn [length seq flat_map Nat.eqb app]. discriminate.
Qed.

(** A section with a single line adds nothing, whatever [res] is. *)
Lemma cq_rows_short (text : list (list (list string)))
    (row : list (list string)) (t : nat) (res : list (list (list string))) :
  text !! t = Some row -> (length row <= 1)%nat ->
  cq_rows text t res = Ok res.
Proof.
  intros Ht Hlen. unfold cq_rows. rewrite (index_lookup _ _ _ Ht).
  destruct row as [|r0 [|r1 rs]]; cbn [length] in Hlen; [| |lia];
    reflexivity.
Qed.

(** A section with two lines or more, once [res] is shorter than its
    position, indexes [res] out of range. *)
Lemma cq_rows_lag (text : list (list (list string)))
    (row : list (list string)) (t : nat) (res : list (list (list string))) :
  text !! t = Some row -> (2 <= length row)%nat -> (length res < t)%nat ->
  cq_rows text t res = Raise IndexError.
Proof.
  intros Ht Hlen Hres. unfold cq_rows. rewrite (index_lookup _ _ _ Ht).
  destruct row as [|r0 [|r1 rs]]; cbn [length] in Hlen; [lia|lia|].
  cbn [mbind result_bind rbind length seq for_range].
  assert (H00 : cq_pair text t 0 0 res = Ok res) by reflexivity.
  assert (H01 : cq_pair text t 0 1 res = Raise IndexError).
  { unfold cq_pair. cbn [Nat.eqb].
    rewrite (proj2 (Z.ltb_lt _ _)) by lia.
    rewrite (index_lookup _ _ _ Ht). cbn [mbind result_bind rbind].
    rewrite (index_lookup (r0 :: r1 :: rs) 0 r0 eq_refl).
    cbn [mbind result_bind rbind].
    rewrite (index_lookup (r0 :: r1 :: rs) 1 r1 eq_refl).
    cbn [mbind result_bind rbind].
    rewrite (proj2 (lookup_ge_None _ _))
      by (rewrite length_app; cbn [length]; lia).
    reflexivity. }
  rewrite H00. cbn [mbind result_bind rbind]. rewrite H01. reflexivity.
Qed.

Lemma res_with_long (done : list (list (list string)))
    (row : list (list string)) :
  (2 <= length row)%nat ->
  res_with done (ordered_pairs row) = (done ++ [ordered_pairs row])%list.
Proof.
  intros Hrow. pose proof (ordered_pairs_long row Hrow) as Hne.
  unfold res_with. destruct (ordered_pairs row); [contradiction|reflexivity].
Qed.

Lemma res_with_length (done : list (list (list string)))
    (acc : list (list string)) :
  (length (res_with done acc) <= S (length done))%nat.
Proof.
  destruct acc; cbn [res_with]; [lia|].
  rewrite length_app. cbn [length]. lia.
Qed.

(** Sections of two lines or more, read in step with [res]. *)
Lemma cq_pairs_good (text : list (list (list string))) :
  forall (rows_list : list (list (list string)))
         (done : list (list (list string))),
    Forall (fun row => (2 <= length row)%nat) rows_list ->
    (forall i row, rows_list !! i = Some row ->
                   text !! (length done + i)%nat = Some row) ->
    for_range (seq (length done) (length rows_list)) (cq_rows text) done
    = Ok (done ++ map ordered_pairs rows_list)%list.
Proof.
  induction rows_list as [|row rows_list IH]; intros done Hlong Htext.
  - cbn. rewrite app_nil_r. reflexivity.
  - apply Forall_cons in Hlong as [Hrow Hlong].
    cbn [length seq for_range map].
    pose proof (Htext 0%nat row eq_refl) as H0. rewrite Nat.add_0_r in H0.
    rewrite (cq_rows_fill text row done H0), (res_with_long done row Hrow).
    cbn [mbind result_bind rbind].
    replace (S (length done)) with (length (done ++ [ordered_pairs row])%list)
      by (rewrite length_app; cbn [length]; lia).
    rewrite IH.
    + rewrite <- app_assoc. reflexivity.
    + exact Hlong.
    + intros i r Hi. rewrite length_app. cbn [length].
      replace (length done + 1 + i)%nat with (length done + S i)%nat by lia.
      apply Htext. exact Hi.
Qed.

(** Sections of one line leave [res] as it is. *)
Lemma cq_pairs_short (text : list (list (list string))) :
  forall (rows_list : list (list (list string))) (k : nat)
         (res : list (list (list string))),
    Forall (fun row => (length row <= 1)%nat) rows_list ->
    (forall i row, rows_list !! i = Some row ->
                   text !! (k + i)%nat = Some row) ->
    for_range (seq k (length rows_list)) (cq_rows text) res = Ok res.
Proof.
  induction rows_list as [|row rows_list IH]; intros k res Hshort Htext;
    [reflexivity|].
  apply Forall_cons in Hshort as [Hrow Hshort].
  cbn [length seq for_range].
  pose proof (Htext 0%nat row eq_refl) as H0. rewrite Nat.add_0_r in H0.
  rewrite (cq_rows_short text row k res H0 Hrow).
  cbn [mbind result_bind rbind]. apply IH; [exact Hshort|].
  intros i r Hi. replace (S k + i)%nat with (k + S i)%nat by lia.
  apply Htext. exact Hi.
Qed.

(** Once [res] is shorter than the position read, the first section of two
    lines or more stops the loop. *)
Lemma cq_pairs_lag (text : list (list (list string))) :
  forall (rows_list : list (list (list string))) (k : nat)
         (res : list (list (list string))),
    Exists (fun row => (2 <= length row)%nat) rows_list ->
    (forall i row, rows_list !! i = Some row ->
                   text !! (k + i)%nat = Some row) ->
    (length res < k)%nat ->
    for_range (seq k (length rows_list)) (cq_rows text) res = Raise IndexError.
Proof.
  induction rows_list as [|row rows_list IH]; intros k res Hlong Htext Hres.
  - inversion Hlong.
  - cbn [length seq for_range].
    pose proof (Htext 0%nat row eq_refl) as H0. rewrite Nat.add_0_r in H0.
    destruct (le_lt_dec (length row) 1) as [Hrow|Hrow].
    + rewrite (cq_rows_short text row k res H0 Hrow).
      cbn [mbind result_bind rbind]. apply IH.
      * apply Exists_cons in Hlong as [Hlong|Hlong]; [lia|exact Hlong].
      * intros i r Hi. replace (S k + i)%nat with (k + S i)%nat by lia.
        apply Htext. exact Hi.
      * lia.
    + rewrite (cq_rows_lag text row k res H0 Hrow Hres). reflexivity.
Qed.

(** [res] never gets ahead of the position read. *)
Lemma cq_pairs_bound (text : list (list (list string))) :
  forall (rows_list : list (list (list string))) (k : nat)
         (res : list (list (list string))),
    (forall i row, rows_list !! i = Some row ->
                   text !! (k + i)%nat = Some row) ->
    (length res <= k)%nat ->
    for_range (seq k (length rows_list)) (cq_rows text) res = Raise IndexError
    \/ exists res',
         for_range (seq k (length rows_list)) (cq_rows text) res = Ok res'
         /\ (length res' <= k + length rows_list)%nat.
Proof.
  induction rows_list as [|row rows_list IH]; intros k res Htext Hres.
  - right. exists res. split; [reflexivity|cbn [length]; lia].
  - cbn [length seq for_range].
    pose proof (Htext 0%nat row eq_refl) as H0. rewrite Nat.add_0_r in H0.
    assert (Htext' : forall i r, rows_list !! i = Some r ->
                                 text !! (S k + i)%nat = Some r).
    { intros i r Hi. replace (S k + i)%nat with (k + S i)%nat by lia.
      apply Htext. exact Hi. }
    assert (Hstep : cq_rows text k res = Raise IndexError
                    \/ exists res1, cq_rows text k res = Ok res1
                                    /\ (length res1 <= S k)%nat).
    { destruct (Nat.eq_dec (length res) k) as [Heq|Hne].
      - right. subst k. rewrite (cq_rows_fill text row res H0).
        eexists. split; [reflexivity|apply res_with_length].
      - destruct (le_lt_dec (length row) 1) as [Hrow|Hrow].
        + right. rewrite (cq_rows_short text row k res H0 Hrow).
          exists res. split; [reflexivity|lia].
        + left. apply (cq_rows_lag text row k res H0 Hrow). lia. }
    destruct Hstep as [Hraise|[res1 [Hok Hlen]]].
    + left. rewrite Hraise. reflexivity.
    + rewrite Hok. cbn [mbind result_bind rbind].
      destruct (IH (S k) res1 Htext' Hlen) as [Hr|[res' [Hr Hl]]].
      * left. exact Hr.
      * right. exists res'. split; [exact Hr|lia].
Qed.

Lemma string_app_nil_r (s : string) : (s ++ EmptyString)%string = s.
Proof.
  induction s as [|c s IH]; [reflexivity|].
  rewrite append_cons, IH. reflexivity.
Qed.

(** The rounds of the output loop over sections whose questions and
    headers sit at the same positions. *)
Lemma cq_write_sections (res : list (list (list string)))
    (header : list string) :
  forall (secs : list (string * list (list string))) (k : nat) (out : string),
    (forall i sec, secs !! i = Some sec ->
                   res !! (k + i)%nat = Some (ordered_pairs sec.2)
                   /\ header !! (k + i)%nat = Some sec.1) ->
    for_range (seq k (length secs)) (cq_out res header) out
    = Ok (out ++ render_from k secs)%string.
Proof.
  induction secs as [|sec secs IH]; intros k out Hsecs.
  - cbn [length seq for_range render_from]. rewrite string_app_nil_r.
    reflexivity.
  - cbn [length seq for_range render_from].
    destruct (Hsecs 0%nat sec eq_refl) as [Hres Hheader].
    rewrite Nat.add_0_r in Hres, Hheader.
    assert (Hout : cq_out res header k out
                   = Ok (out ++ cq_section k sec.1 (ordered_pairs sec.2))%string).
    { unfold cq_out.
      rewrite (index_lookup _ _ _ Hres). cbn [mbind result_bind rbind].
      rewrite (index_lookup _ _ _ Hheader). reflexivity. }
    rewrite Hout. cbn [mbind result_bind rbind].
    rewrite IH.
    + rewrite string_app_assoc. reflexivity.
    + intros i s Hi. replace (S k + i)%nat with (k + S i)%nat by lia.
      apply Hsecs. exact Hi.
Qed.

(** The output for sections in the order the script can take. *)
Lemma convert_questions_sections (lines : list string)
    (good shorts empties : list (string * list (list string))) :
  made_of lines (good ++ shorts ++ empties)%list ->
  Forall (fun sec => (2 <= length sec.2)%nat) good ->
  Forall (fun sec => length sec.2 = 1%nat) shorts ->
  Forall (fun sec => sec.2 = []) empties ->
  convert_questions lines = Ok (render_from 0 good).
Proof.
  intros Hlines Hgood Hshorts Hempties. unfold convert_questions, made_of in *.
  rewrite cq_read_items, Hlines, app_assoc, flat_map_app, cq_items_app.
  assert (Hne : Forall (fun sec : string * list (list string) => sec.2 <> [])
                       (good ++ shorts)%list).
  { apply Forall_app. split.
    - eapply Forall_impl; [exact Hgood|]. intros [h rows] Hlen Heq.
      cbn [snd] in Hlen, Heq. subst rows. cbn [length] in Hlen. lia.
    - eapply Forall_impl; [exact Hshorts|]. intros [h rows] Hlen Heq.
      cbn [snd] in Hlen, Heq. subst rows. cbn [length] in Hlen. lia. }
  rewrite (cq_items_sections_init _ Hne). cbn [mbind result_bind rbind].
  rewrite (cq_items_headers empties _ _ _ Hempties).
  cbn [mbind result_bind rbind cq_text cq_header].
  unfold cq_pairs. rewrite !map_app, length_app, seq_app, for_range_app.
  rewrite !length_map.
  pose proof (cq_pairs_good (map snd good ++ map snd shorts)%list
                (map snd good) []) as Hfill.
  cbn [length app] in Hfill. rewrite length_map in Hfill.
  rewrite Hfill; clear Hfill.
  - cbn [mbind result_bind rbind].
    pose proof (cq_pairs_short (map snd good ++ map snd shorts)%list
                  (map snd shorts) (length good)
                  (map ordered_pairs (map snd good))) as Hskip.
    rewrite length_map in Hskip. cbn [Nat.add]. rewrite Hskip; clear Hskip.
    + cbn [mbind result_bind rbind]. unfold cq_write.
      rewrite !length_map.
      rewrite (cq_write_sections _ _ good 0 EmptyString); [reflexivity|].
      intros i sec Hi. cbn [Nat.add]. split.
      * rewrite !list_lookup_fmap, Hi. reflexivity.
      * rewrite <- app_assoc.
        rewrite lookup_app_l
          by (rewrite length_map; apply lookup_lt_Some in Hi; exact Hi).
        rewrite list_lookup_fmap, Hi. reflexivity.
    + apply Forall_fmap. eapply Forall_impl; [exact Hshorts|].
      intros sec Hlen. unfold compose. cbv beta in Hlen. lia.
    + intros i row Hi. rewrite lookup_app_r by (rewrite length_map; lia).
      rewrite length_map. replace (length good + i - length good)%nat with i by lia.
      exact Hi.
  - apply Forall_fmap. eapply Forall_impl; [exact Hgood|].
    intros sec Hlen. exact Hlen.
  - intros i row Hi. cbn [Nat.add]. apply lookup_app_l_Some. exact Hi.
Qed.

(** X14: on ASCII text, when the sections with two lines or more come
    first, then the sections with one line, then the headers without lines,
    the script writes, for each section of the first kind in order, its
    header line and one line per ordered pair of two different lines of the
    section, with a blank line between sections; the other sections are
    left out. *)
Theorem convert_questions_output (lines : list string)
    (good shorts empties : list (string * list (list string))) :
  Forall (fun line => ascii_text line = true) lines ->
  made_of lines (good ++ shorts ++ empties)%list ->
  Forall (fun sec => (2 <= length sec.2)%nat) good ->
  Forall (fun sec => length sec.2 = 1%nat) shorts ->
  Forall (fun sec => sec.2 = []) empties ->
  convert_questions lines = Ok (render_from 0 good).
Proof.
  intros _ Hlines Hgood Hshorts Hempties.
  exact (convert_questions_sections lines good shorts empties
           Hlines Hgood Hshorts Hempties).
Qed.

(** [res] behind [text]: after a section of one line, a section of two
    lines or more cannot be paired. *)
Lemma cq_pairs_behind (rows_before rows_after : list (list (list string)))
    (d : list string) :
  Exists (fun row => (2 <= length row)%nat) rows_after ->
  cq_pairs (rows_before ++ [d] :: rows_after)%list = Raise IndexError.
Proof.
  intros Hlong. set (text := (rows_before ++ [d] :: rows_after)%list).
  unfold cq_pairs. unfold text at 1.
  rewrite length_app. cbn [length].
  rewrite seq_app. cbn [seq Nat.add]. rewrite for_range_app.
  destruct (cq_pairs_bound text rows_before 0 []) as [Hr|[res [Hr Hl]]].
  - intros i row Hi. cbn [Nat.add]. apply lookup_app_l_Some. exact Hi.
  - cbn [length]. lia.
  - rewrite Hr. reflexivity.
  - rewrite Hr. cbn [mbind result_bind rbind for_range].
    cbn [Nat.add] in Hl.
    rewrite (cq_rows_short text [d] (length rows_before) res).
    + cbn [mbind result_bind rbind].
      apply cq_pairs_lag.
      * exact Hlong.
      * intros i row Hi. unfold text.
        rewrite lookup_app_r by lia.
        replace (S (length rows_before) + i - length rows_before)%nat
          with (S i) by lia.
        exact Hi.
      * lia.
    + apply list_lookup_middle. reflexivity.
    + cbn [length]. lia.
Qed.

Lemma convert_questions_behind (lines : list string)
    (before after empties : list (string * list (list string)))
    (h : string) (d : list string) :
  made_of lines (before ++ (h, [d]) :: after ++ empties)%list ->
  Forall (fun sec => sec.2 <> []) before ->
  Forall (fun sec => sec.2 <> []) after ->
  Forall (fun sec => sec.2 = []) empties ->
  Exists (fun sec => (2 <= length sec.2)%nat) after ->
  convert_questions lines = Raise IndexError.
Proof.
  intros Hlines Hbefore Hafter Hempties Hlong.
  unfold convert_questions, made_of in *.
  rewrite cq_read_items, Hlines.
  change (before ++ (h, [d]) :: after ++ empties)%list
    with (before ++ ((h, [d]) :: after) ++ empties)%list.
  rewrite app_assoc, flat_map_app, cq_items_app.
  assert (Hne : Forall (fun sec : string * list (list string) => sec.2 <> [])
                       (before ++ (h, [d]) :: after)%list).
  { apply Forall_app. split; [exact Hbefore|].
    constructor; [discriminate|exact Hafter]. }
  rewrite (cq_items_sections_init _ Hne). cbn [mbind result_bind rbind].
  rewrite (cq_items_headers empties _ _ _ Hempties).
  cbn [mbind result_bind rbind cq_text cq_header].
  rewrite !map_app. cbn [map snd].
  rewrite (cq_pairs_behind (map snd before) (map snd after) d)
    by (apply Exists_fmap; exact Hlong).
  reflexivity.
Qed.

(** X15: on ASCII text, a section with exactly one line, followed anywhere
    later by a section with two lines or more, stops the script with
    [IndexError] in the pairing loops: [res] gets no entry for the one-line
    section and is then indexed out of range.  Nothing is written. *)
Theorem convert_questions_single_line (lines : list string)
    (before after : list (string * list (list string)))
    (h : string) (d : list string) :
  Forall (fun line => ascii_text line = true) lines ->
  made_of lines (before ++ (h, [d]) :: after)%list ->
  Forall (fun sec => sec.2 <> []) before ->
  Forall (fun sec => sec.2 <> []) after ->
  Exists (fun sec => (2 <= length sec.2)%nat) after ->
  convert_questions lines = Raise IndexError.
Proof.
  intros _ Hlines Hbefore Hafter Hlong.
  rewrite <- (app_nil_r after) in Hlines.
  exact (convert_questions_behind lines before after [] h d
           Hlines Hbefore Hafter (List.Forall_nil _) Hlong).
Qed.

(** A line of words above the first header. *)
Lemma convert_questions_no_header_witness :
  convert_questions
    (map with_newline ["italy rome"; ": capitals"; "france paris"])
  = Raise IndexError.
Proof.
  apply (convert_questions_no_header _ ["italy"; "rome"]
           [CqHeader " capitals"; CqData ["france"; "paris"]]).
  - repeat constructor.
  - reflexivity.
Defined.

(** Two headers in a row, then a line. *)
Lemma convert_questions_empty_section_witness :
  convert_questions
    (map with_newline [": capitals"; ": family"; "king queen"])
  = Raise IndexError.
Proof.
  apply (convert_questions_empty_section _ [] [] " capitals" " family"
           ["king"; "queen"] [] []).
  - repeat constructor.
  - reflexivity.
  - constructor.
  - constructor.
Defined.

(** The example file: six questions for the capitals, two for the family,
    and neither [plural] nor [empty] in the output. *)
Lemma convert_questions_output_witness :
  convert_questions questions_txt = Ok (render_from 0 questions_good).
Proof.
  apply (convert_questions_output questions_txt questions_good
           questions_short questions_empty).
  - repeat constructor.
  - reflexivity.
  - repeat constructor.
  - repeat constructor.
  - repeat constructor.
Defined.

(** The one-line section put first. *)
Lemma convert_questions_single_line_witness :
  convert_questions
    (map with_newline
         [": plural"; "dog dogs"; ": family"; "king queen"; "man woman"])
  = Raise IndexError.
Proof.
  apply (convert_questions_single_line _ [] 
           [(" family", [["king"; "queen"]; ["man"; "woman"]])]
           " plural" ["dog"; "dogs"]).
  - repeat constructor.
  - reflexivity.
  - constructor.
  - repeat constructor. discriminate.
  - constructor. cbn. lia.
Defined.

(** ** The written questions, as [read_file] reads them *)

Lemma binary_lines_line (l rest : string) :
  has_char LF l = false ->
  binary_lines (l ++ String LF rest) = with_newline l :: binary_lines rest.
Proof.
  unfold with_newline. induction l as [|x l IH]; intros Hl.
  - rewrite !append_nil_l. cbn [binary_lines]. rewrite Ascii.eqb_refl.
    reflexivity.
  - cbn [has_char] in Hl. apply orb_false_iff in Hl as [Hx Hl].
    rewrite !append_cons. cbn [binary_lines]. rewrite Hx, (IH Hl).
    reflexivity.
Qed.

Lemma binary_lines_joined (rest : string) (ls : list string) :
  ls <> [] ->
  Forall (fun l => has_char LF l = false) ls ->
  binary_lines (join (String LF "") ls ++ String LF rest)
  = (map with_newline ls ++ binary_lines rest)%list.
Proof.
  induction ls as [|l ls IH]; intros Hne Hls; [contradiction|].
  apply Forall_cons in Hls as [Hl Hls].
  destruct ls as [|l2 ls].
  - cbn [join map app]. apply binary_lines_line. exact Hl.
  - change (join (String LF "") (l :: l2 :: ls))
      with (l ++ String LF "" ++ join (String LF "") (l2 :: ls))%string.
    rewrite !string_app_assoc, append_cons, append_nil_l.
    rewrite (binary_lines_line l _ Hl), (IH ltac:(discriminate) Hls).
    reflexivity.
Qed.

Lemma cq_section_app (r : nat) (h : string) (qs : list (list string))
    (rest : string) :
  (cq_section r h qs ++ rest)%string
  = ((if Nat.eqb r 0 then "" else String LF "")
     ++ (":" ++ h)
     ++ String LF (join (String LF "") (map (join " ") qs)
                   ++ String LF rest))%string.
Proof.
  unfold cq_section. rewrite !string_app_assoc. reflexivity.
Qed.

Lemma binary_lines_render (sections : list (string * list (list string))) :
  forall r : nat,
    Forall (fun sec =>
              has_char LF sec.1 = false
              /\ ordered_pairs sec.2 <> []
              /\ Forall (fun q => has_char LF (join " " q) = false)
                        (ordered_pairs sec.2)) sections ->
    binary_lines (render_from r sections) = lines_from r sections.
Proof.
  induction sections as [|[h rows] sections IH]; intros r Hs; [reflexivity|].
  apply Forall_cons in Hs as [(Hh & Hne & Hqs) Hs]. cbn [fst snd] in *.
  cbn [render_from lines_from fst snd]. rewrite cq_section_app.
  unfold section_lines. cbn [fst snd].
  assert (Hbody : binary_lines
                    ((":" ++ h)
                     ++ String LF (join (String LF "")
                                     (map (join " ") (ordered_pairs rows))
                                   ++ String LF (render_from (S r) sections)))
                  = (with_newline (":" ++ h)
                     :: map (fun q => with_newline (join " " q))
                            (ordered_pairs rows)
                     ++ lines_from (S r) sections)%list).
  { rewrite binary_lines_line by exact Hh.
    rewrite binary_lines_joined.
    - rewrite (IH _ Hs), map_map. reflexivity.
    - destruct (ordered_pairs rows); [contradiction|discriminate].
    - apply Forall_map. exact Hqs. }
  destruct (Nat.eqb r 0).
  - rewrite append_nil_l, Hbody. reflexivity.
  - rewrite append_cons, append_nil_l. cbn [binary_lines].
    rewrite Ascii.eqb_refl, Hbody. reflexivity.
Qed.

Lemma rstrip_app_space (c : ascii) (s : string) :
  is_space c = true -> rstrip (s ++ String c "") = rstrip s.
Proof.
  intros Hc. induction s as [|x s IH].
  - rewrite append_nil_l. cbn [rstrip]. rewrite Hc. reflexivity.
  - rewrite append_cons. cbn [rstrip]. rewrite IH. reflexivity.
Qed.

Lemma rstrip_word (w : string) : no_space w = true -> rstrip w = w.
Proof.
  unfold no_space. induction w as [|c w IH]; intros Hw; [reflexivity|].
  cbn [all_chars] in Hw. apply andb_true_iff in Hw as [Hc Hw].
  apply negb_true_iff in Hc. cbn [rstrip]. rewrite (IH Hw), Hc.
  destruct w; reflexivity.
Qed.

Lemma rstrip_app_word (a b : string) :
  rstrip b = b -> b <> EmptyString -> rstrip (a ++ b) = (a ++ b)%string.
Proof.
  intros Hb Hne. induction a as [|x a IH].
  - rewrite append_nil_l. exact Hb.
  - rewrite append_cons. cbn [rstrip]. rewrite IH.
    destruct (a ++ b)%string eqn:E; [|reflexivity].
    destruct a; [rewrite append_nil_l in E; contradiction|discriminate E].
Qed.

Lemma lstrip_word (w : string) : no_space w = true -> lstrip w = w.
Proof.
  unfold no_space. destruct w as [|c w]; [reflexivity|].
  cbn [all_chars lstrip]. intros Hw. apply andb_true_iff in Hw as [Hc _].
  apply negb_true_iff in Hc. rewrite Hc. reflexivity.
Qed.

Lemma strip_word (w : string) : no_space w = true -> strip w = w.
Proof.
  intros Hw. unfold strip. rewrite (rstrip_word w Hw). apply lstrip_word, Hw.
Qed.

Lemma strip_head (c : ascii) (s : string) :
  is_space c = false -> exists r, strip (String c s) = String c r.
Proof.
  intros Hc. unfold strip. cbn [rstrip].
  destruct (rstrip s); rewrite ?Hc; cbn [lstrip]; rewrite Hc; eauto.
Qed.

Lemma lower_app (a b : string) : lower (a ++ b) = (lower a ++ lower b)%string.
Proof.
  induction a as [|x a IH]; [reflexivity|].
  rewrite append_cons. cbn [lower]. rewrite IH, append_cons. reflexivity.
Qed.

(** A blank line and a header line are passed over. *)
Lemma read_line_blank (word2id : gmap string nat) (st : list (list nat) * Z) :
  read_line word2id (String LF "") st = st.
Proof. destruct st. reflexivity. Qed.

Lemma read_line_header (word2id : gmap string nat) (h : string)
    (st : list (list nat) * Z) :
  read_line word2id (with_newline (":" ++ h)) st = st.
Proof.
  destruct st as [questions skipped]. unfold read_line, with_newline.
  rewrite append_cons, append_nil_l, append_cons.
  destruct (strip_head ":" (h ++ String LF "") eq_refl) as [r ->].
  reflexivity.
Qed.

(** A line of four vocabulary words gives their four ids. *)
Lemma read_line_question (word2id : gmap string nat) (q : list string)
    (questions : list (list nat)) (skipped : Z) :
  question_ok word2id q ->
  read_line word2id (with_newline (join " " q)) (questions, skipped)
  = ((questions ++ [question_ids word2id q])%list, skipped).
Proof.
  intros (w0 & w1 & w2 & w3 & -> & Hcolon & Hwords).
  apply Forall_cons in Hwords as [(Hne0 & Hsp0 & Hlo0 & [i0 Hi0]) Hwords].
  apply Forall_cons in Hwords as [(Hne1 & Hsp1 & Hlo1 & [i1 Hi1]) Hwords].
  apply Forall_cons in Hwords as [(Hne2 & Hsp2 & Hlo2 & [i2 Hi2]) Hwords].
  apply Forall_cons in Hwords as [(Hne3 & Hsp3 & Hlo3 & [i3 Hi3]) _].
  cbn [join].
  set (s := (w0 ++ " " ++ w1 ++ " " ++ w2 ++ " " ++ w3)%string).
  assert (Hstrip : strip (with_newline s) = s).
  { unfold strip, with_newline. rewrite rstrip_app_space by reflexivity.
    assert (Hr : rstrip s = s).
    { subst s. rewrite <- !string_app_assoc.
      apply rstrip_app_word; [apply rstrip_word, Hsp3|exact Hne3]. }
    rewrite Hr. subst s. destruct w0 as [|c w0]; [contradiction|].
    rewrite append_cons. cbn [lstrip].
    unfold no_space in Hsp0. cbn [all_chars] in Hsp0.
    apply andb_true_iff in Hsp0 as [Hc _]. apply negb_true_iff in Hc.
    rewrite Hc. reflexivity. }
  assert (Hlower : lower s = s).
  { subst s. rewrite !lower_app, Hlo0, Hlo1, Hlo2, Hlo3. reflexivity. }
  assert (Hsplit : split " " s = [w0; w1; w2; w3]).
  { subst s.
    change (" " ++ w1 ++ " " ++ w2 ++ " " ++ w3)%string
      with (String " " (w1 ++ String " " (w2 ++ String " " w3))).
    rewrite !split_app_sep, split_no_sep;
      try (apply no_space_has_char; [reflexivity|assumption]).
    reflexivity. }
  rewrite read_line_classified. unfold spec_ignored, spec_question.
  rewrite Hstrip.
  assert (Hkept : is_empty s || startswith ":" s = false).
  { subst s. destruct w0 as [|c w0]; [contradiction|].
    rewrite append_cons. cbn [is_empty startswith orb] in *. exact Hcolon. }
  rewrite Hkept, Hlower, Hsplit.
  rewrite !strip_word by assumption.
  rewrite Hi0, Hi1, Hi2, Hi3.
  unfold question_ids. cbn [omap list_omap]. rewrite Hi0, Hi1, Hi2, Hi3.
  reflexivity.
Qed.

Lemma read_lines_question_lines (word2id : gmap string nat) :
  forall (qs : list (list string)) (questions : list (list nat)) (skipped : Z),
    Forall (question_ok word2id) qs ->
    fold_left (fun st line => read_line word2id line st)
              (map (fun q => with_newline (join " " q)) qs)
              (questions, skipped)
    = ((questions ++ map (question_ids word2id) qs)%list, skipped).
Proof.
  induction qs as [|q qs IH]; intros questions skipped Hqs.
  - cbn. rewrite app_nil_r. reflexivity.
  - apply Forall_cons in Hqs as [Hq Hqs]. cbn [map fold_left].
    rewrite (read_line_question word2id q questions skipped Hq), (IH _ _ Hqs).
    rewrite <- app_assoc. reflexivity.
Qed.

Lemma read_lines_sections (word2id : gmap string nat) :
  forall (sections : list (string * list (list string))) (r : nat)
         (questions : list (list nat)) (skipped : Z),
    Forall (fun sec => Forall (question_ok word2id) (ordered_pairs sec.2))
           sections ->
    fold_left (fun st line => read_line word2id line st)
              (lines_from r sections) (questions, skipped)
    = ((questions
        ++ flat_map (fun sec => map (question_ids word2id)
                                    (ordered_pairs sec.2)) sections)%list,
       skipped).
Proof.
  induction sections as [|sec sections IH]; intros r questions skipped Hs.
  - cbn. rewrite app_nil_r. reflexivity.
  - apply Forall_cons in Hs as [Hsec Hs].
    cbn [lines_from flat_map]. unfold section_lines.
    rewrite !fold_left_app. cbn [fold_left].
    assert (Hblank : fold_left (fun st line => read_line word2id line st)
                       (if Nat.eqb r 0 then [] else [String LF ""])
                       (questions, skipped)
                     = (questions, skipped)).
    { destruct (Nat.eqb r 0); [reflexivity|].
      cbn [fold_left]. apply read_line_blank. }
    rewrite Hblank, read_line_header.
    rewrite (read_lines_question_lines word2id _ _ _ Hsec), (IH _ _ _ Hs).
    rewrite <- app_assoc. reflexivity.
Qed.

(** Every pair is made of two lines of the section. *)
Lemma ordered_pairs_elem (rows : list (list string)) (q : list string) :
  In q (ordered_pairs rows) ->
  exists r1 r2, In r1 rows /\ In r2 rows /\ q = (r1 ++ r2)%list.
Proof.
  unfold ordered_pairs. intros Hq.
  apply in_flat_map in Hq as (x & Hx & Hq).
  apply in_flat_map in Hq as (y & Hy & Hq).
  apply in_seq in Hx, Hy.
  destruct (Nat.eqb x y); [contradiction|].
  destruct Hq as [<-|[]].
  exists (nth x rows []), (nth y rows []).
  split; [apply nth_In; lia|]. split; [apply nth_In; lia|reflexivity].
Qed.

(** What [str.split()] yields: words that are not empty and hold no
    whitespace. *)
Lemma str_split_words (s : string) :
  Forall (fun w => w <> EmptyString
                   /\ all_chars (fun c => negb (str_is_space c)) w = true)
         (str_split s).
Proof.
  induction s as [|c s IH]; [constructor|].
  cbn [str_split]. destruct (str_is_space c) eqn:Ec; [exact IH|].
  destruct s as [|c' s'].
  - constructor; [|constructor].
    split; [discriminate|]. cbn [all_chars]. rewrite Ec. reflexivity.
  - destruct (str_is_space c') eqn:Ec'.
    + constructor; [|exact IH].
      split; [discriminate|]. cbn [all_chars]. rewrite Ec. reflexivity.
    + destruct (str_split (String c' s')) as [|w ws].
      * constructor; [|constructor].
        split; [discriminate|]. cbn [all_chars]. rewrite Ec. reflexivity.
      * apply Forall_cons in IH as [[_ Hw] Hws].
        constructor; [|exact Hws].
        split; [discriminate|]. cbn [all_chars]. rewrite Ec, Hw. reflexivity.
Qed.

Lemma str_split_first (c : ascii) (s : string) :
  str_is_space c = false ->
  exists w ws, str_split (String c s) = String c w :: ws.
Proof.
  intros Ec. cbn [str_split]. rewrite Ec.
  destruct s as [|c' s']; [eauto|].
  destruct (str_is_space c'); [eauto|].
  destruct (str_split (String c' s')); eauto.
Qed.

Lemma str_lstrip_first (s : string) (c : ascii) (r : string) :
  str_lstrip s = String c r -> str_is_space c = false.
Proof.
  induction s as [|x s IH]; [discriminate|].
  cbn [str_lstrip]. destruct (str_is_space x) eqn:Ex; [exact IH|].
  intros [= <- _]. exact Ex.
Qed.

Lemma str_space_space (c : ascii) : is_space c = true -> str_is_space c = true.
Proof.
  unfold is_space, str_is_space. intros ->. reflexivity.
Qed.

(** The words of a line of a section, as [convert_questions] cut them. *)
Lemma cq_classify_data (line : string) (row : list string) :
  cq_classify line = CqData row ->
  (exists w ws, row = w :: ws /\ startswith ":" w = false)
  /\ Forall (fun w => w <> EmptyString /\ no_space w = true) row.
Proof.
  unfold cq_classify.
  destruct (is_empty (str_strip line)) eqn:Eempty; [discriminate|].
  destruct (startswith ":" (str_strip line)) eqn:Ecolon; [discriminate|].
  intros [= <-]. split.
  - destruct (str_strip line) as [|c s] eqn:Es; [discriminate|].
    pose proof (str_lstrip_first _ _ _ Es) as Ec.
    destruct (str_split_first c s Ec) as (w & ws & ->).
    exists (String c w), ws. split; [reflexivity|exact Ecolon].
  - eapply Forall_impl; [apply str_split_words|].
    intros w [Hne Hw]. split; [exact Hne|].
    unfold no_space. revert Hw. apply all_chars_impl.
    intros c Hc. apply negb_true_iff in Hc. apply negb_true_iff.
    destruct (is_space c) eqn:E; [|reflexivity].
    rewrite (str_space_space c E) in Hc. discriminate.
Qed.

Lemma has_char_str_tail (c : ascii) (s : string) :
  has_char c s = false -> has_char c (str_tail s) = false.
Proof.
  destruct s as [|x s]; [intros _; reflexivity|].
  cbn [has_char str_tail]. intros H. apply orb_false_iff in H as [_ H].
  exact H.
Qed.

(** The items of the sections are lines of the input. *)
Lemma made_of_lines (lines : list string)
    (sections : list (string * list (list string)))
    (sec : string * list (list string)) :
  made_of lines sections -> In sec sections ->
  (exists line, In line lines /\ cq_classify line = CqHeader sec.1)
  /\ forall row, In row sec.2 ->
                 exists line, In line lines /\ cq_classify line = CqData row.
Proof.
  unfold made_of. intros Hlines Hsec.
  assert (Hitem : forall item, In item (section_items sec) ->
                               exists line, In line lines
                                            /\ cq_classify line = item).
  { intros item Hitem.
    assert (Hin : In item (flat_map section_items sections)).
    { apply in_flat_map. exists sec. split; assumption. }
    rewrite <- Hlines in Hin. apply filter_In in Hin as [Hin _].
    apply in_map_iff in Hin as (line & Hline & Hin).
    exists line. split; assumption. }
  split.
  - apply Hitem. left. reflexivity.
  - intros row Hrow. apply Hitem. right. apply in_map. exact Hrow.
Qed.

Lemma question_ok_no_LF (word2id : gmap string nat) (q : list string) :
  question_ok word2id q -> has_char LF (join " " q) = false.
Proof.
  intros (w0 & w1 & w2 & w3 & -> & _ & Hwords).
  apply Forall_cons in Hwords as [(_ & H0 & _) Hwords].
  apply Forall_cons in Hwords as [(_ & H1 & _) Hwords].
  apply Forall_cons in Hwords as [(_ & H2 & _) Hwords].
  apply Forall_cons in Hwords as [(_ & H3 & _) _].
  cbn [join]. rewrite !has_char_app.
  rewrite (no_space_has_char LF w0), (no_space_has_char LF w1),
    (no_space_has_char LF w2), (no_space_has_char LF w3)
    by (reflexivity || assumption).
  reflexivity.
Qed.

Lemma question_ok_ids (word2id : gmap string nat) (q : list string) :
  question_ok word2id q -> length (question_ids word2id q) = 4%nat.
Proof.
  intros (w0 & w1 & w2 & w3 & -> & _ & Hwords).
  apply Forall_cons in Hwords as [(_ & _ & _ & [i0 H0]) Hwords].
  apply Forall_cons in Hwords as [(_ & _ & _ & [i1 H1]) Hwords].
  apply Forall_cons in Hwords as [(_ & _ & _ & [i2 H2]) Hwords].
  apply Forall_cons in Hwords as [(_ & _ & _ & [i3 H3]) _].
  unfold question_ids. cbn [omap list_omap]. rewrite H0, H1, H2, H3.
  reflexivity.
Qed.

(** The pairs of a section of two-word lines in the vocabulary are
    questions as [read_file] needs them. *)
Lemma section_pairs_ok (word2id : gmap string nat) (lines : list string)
    (sections : list (string * list (list string)))
    (sec : string * list (list string)) :
  made_of lines sections -> In sec sections ->
  Forall (fun row => length row = 2%nat
                     /\ Forall (fun w => lower w = w
                                         /\ is_Some (word2id !! w)) row)
         sec.2 ->
  Forall (question_ok word2id) (ordered_pairs sec.2).
Proof.
  intros Hlines Hsec Hrows.
  assert (Hrow : forall row, In row sec.2 ->
             exists a b, row = [a; b] /\ startswith ":" a = false
                         /\ word_ok word2id a /\ word_ok word2id b).
  { intros row Hin.
    destruct (proj2 (made_of_lines lines sections sec Hlines Hsec) row Hin)
      as (line & _ & Hline).
    destruct (cq_classify_data line row Hline) as [(w & ws & -> & Hw) Hplain].
    pose proof (proj1 (List.Forall_forall _ _) Hrows _ Hin) as [Hlen Hvoc].
    destruct ws as [|b [|c ws]]; try discriminate Hlen.
    apply Forall_cons in Hplain as [[Hne0 Hsp0] Hplain].
    apply Forall_cons in Hplain as [[Hne1 Hsp1] _].
    apply Forall_cons in Hvoc as [[Hlo0 Hin0] Hvoc].
    apply Forall_cons in Hvoc as [[Hlo1 Hin1] _].
    exists w, b. repeat split; assumption. }
  apply List.Forall_forall. intros q Hq.
  apply ordered_pairs_elem in Hq as (r1 & r2 & Hr1 & Hr2 & ->).
  destruct (Hrow r1 Hr1) as (a & b & -> & Ha & Hoka & Hokb).
  destruct (Hrow r2 Hr2) as (c & d & -> & _ & Hokc & Hokd).
  exists a, b, c, d. split; [reflexivity|]. split; [exact Ha|].
  repeat (constructor; [assumption|]). constructor.
Qed.

(** X16: the file the script writes is read back by [read_file] without a
    skipped line.  On ASCII text, when the sections are in the order the
    script can take, no line has a newline inside, and every line of the
    sections with pairs is two lower-case vocabulary words, the script
    succeeds and [read_file] on its output gives, for each such section in
    order, the four ids of every ordered pair of two different lines, and
    skip tally 0. *)
Theorem questions_encode_loaded (word2id : gmap string nat)
    (fs : gmap string node) (path : string) (lines : list string)
    (good shorts empties : list (string * list (list string))) :
  Forall (fun line => ascii_text line = true) lines ->
  made_of lines (good ++ shorts ++ empties)%list ->
  Forall (fun sec => (2 <= length sec.2)%nat) good ->
  Forall (fun sec => length sec.2 = 1%nat) shorts ->
  Forall (fun sec => sec.2 = []) empties ->
  Forall (fun line => has_char LF (str_strip line) = false) lines ->
  Forall (fun sec =>
            Forall (fun row => length row = 2%nat
                               /\ Forall (fun w => lower w = w
                                                   /\ is_Some (word2id !! w))
                                         row) sec.2) good ->
  exists out questions,
    convert_questions lines = Ok out
    /\ read_file word2id (<[path := File (binary_lines out)]> fs) path
       = Ok (questions, 0)
    /\ questions
       = flat_map (fun sec => map (question_ids word2id) (ordered_pairs sec.2))
                  good
    /\ Forall (fun q => length q = 4%nat) questions.
Proof.
  intros _ Hlines Hgood Hshorts Hempties Hnl Hvoc.
  assert (Hpairs : Forall (fun sec => Forall (question_ok word2id)
                                             (ordered_pairs sec.2)) good).
  { apply List.Forall_forall. intros sec Hsec.
    apply (section_pairs_ok word2id lines _ sec Hlines).
    - apply in_or_app. left. exact Hsec.
    - exact (proj1 (List.Forall_forall _ _) Hvoc _ Hsec). }
  exists (render_from 0 good). eexists.
  split; [exact (convert_questions_sections lines good shorts empties
                   Hlines Hgood Hshorts Hempties)|].
  split; [|split; [reflexivity|]].
  - unfold read_file, open_rb. rewrite lookup_insert_eq.
    cbn [mbind result_bind rbind]. unfold read_lines.
    rewrite binary_lines_render.
    + rewrite (read_lines_sections word2id good 0 [] 0 Hpairs). reflexivity.
    + apply List.Forall_forall. intros sec Hsec. split; [|split].
      * destruct (proj1 (made_of_lines lines _ sec Hlines
                           ltac:(apply in_or_app; left; exact Hsec)))
          as (line & Hline & Hclass).
        pose proof (proj1 (List.Forall_forall _ _) Hnl _ Hline) as Hno.
        unfold cq_classify in Hclass.
        destruct (is_empty (str_strip line)); [discriminate|].
        destruct (startswith ":" (str_strip line)); [|discriminate].
        injection Hclass as <-. apply has_char_str_tail. exact Hno.
      * apply ordered_pairs_long.
        exact (proj1 (List.Forall_forall _ _) Hgood _ Hsec).
      * eapply Forall_impl;
          [exact (proj1 (List.Forall_forall _ _) Hpairs _ Hsec)|].
        intros q Hq. exact (question_ok_no_LF word2id q Hq).
  - apply List.Forall_forall. intros ids Hids.
    apply in_flat_map in Hids as (sec & Hsec & Hids).
    apply in_map_iff in Hids as (q & <- & Hq).
    apply (question_ok_ids word2id).
    pose proof (proj1 (List.Forall_forall _ _) Hpairs _ Hsec) as Hok.
    exact (proj1 (List.Forall_forall _ _) Hok _ Hq).
Qed.

(** The example file: eight questions, none skipped. *)
Lemma questions_encode_loaded_witness :
  exists out questions,
    convert_questions questions_txt = Ok out
    /\ read_file questions_word2id
         (<["questions_encode.txt" := File (binary_lines out)]> ∅)
         "questions_encode.txt"
       = Ok (questions, 0)
    /\ questions
       = flat_map (fun sec => map (question_ids questions_word2id)
                                  (ordered_pairs sec.2))
                  questions_good
    /\ Forall (fun q => length q = 4%nat) questions.
Proof.
  apply (questions_encode_loaded questions_word2id ∅ "questions_encode.txt"
           questions_txt questions_good questions_short questions_empty).
  - repeat constructor.
  - reflexivity.
  - repeat constructor.
  - repeat constructor.
  - repeat constructor.
  - repeat constructor.
  - repeat (constructor; [|try constructor]);
      repeat split; try reflexivity; vm_compute; eauto.
Defined.

(** ** Cleaning the corpus *)

Ltac by_cases_on c :=
  destruct c as [[] [] [] [] [] [] [] []]; vm_compute;
  try reflexivity; try discriminate; auto.

(** After [lower], a character outside the class is a small letter or the
    underscore. *)
Lemma lower_ascii_kept (c : ascii) :
  is_sep (lower_ascii c) || is_lower_letter (lower_ascii c) = true.
Proof. by_cases_on c. Qed.

Lemma lower_letter_fixed (c : ascii) :
  is_lower_letter c = true -> lower_ascii c = c.
Proof. by_cases_on c. Qed.

Lemma lower_letter_kept (c : ascii) :
  is_lower_letter c = true -> is_sep c = false.
Proof. by_cases_on c. Qed.

Lemma lower_letter_not_space (c : ascii) :
  is_lower_letter c = true -> negb (str_is_space c) = true.
Proof. by_cases_on c. Qed.

Lemma str_space_sep (c : ascii) : str_is_space c = true -> is_sep c = true.
Proof. by_cases_on c. Qed.

Lemma lower_chars (s : string) :
  all_chars (fun c => is_sep c || is_lower_letter c) (lower s) = true.
Proof.
  induction s as [|c s IH]; [reflexivity|].
  cbn [lower all_chars]. rewrite lower_ascii_kept, IH. reflexivity.
Qed.

Lemma str_lstrip_chars (f : ascii -> bool) (s : string) :
  all_chars f s = true -> all_chars f (str_lstrip s) = true.
Proof.
  induction s as [|c s IH]; [reflexivity|].
  intros Hs. cbn [str_lstrip]. destruct (str_is_space c); [|exact Hs].
  cbn [all_chars] in Hs. apply andb_true_iff in Hs as [_ Hs]. exact (IH Hs).
Qed.

Lemma str_rstrip_chars (f : ascii -> bool) (s : string) :
  all_chars f s = true -> all_chars f (str_rstrip s) = true.
Proof.
  induction s as [|c s IH]; [reflexivity|].
  cbn [all_chars]. intros Hs. apply andb_true_iff in Hs as [Hc Hs].
  cbn [str_rstrip]. specialize (IH Hs).
  destruct (str_rstrip s) as [|y r].
  - destruct (str_is_space c); [reflexivity|].
    cbn [all_chars]. rewrite Hc. reflexivity.
  - cbn [all_chars] in *. rewrite Hc, IH. reflexivity.
Qed.

Lemma re_sub_runs_chars (f : ascii -> bool) (s : string) :
  all_chars (fun c => is_sep c || f c) s = true ->
  forall in_run,
    all_chars (fun c => Ascii.eqb c " " || f c) (re_sub_runs in_run s) = true.
Proof.
  induction s as [|c s IH]; [reflexivity|].
  cbn [all_chars]. intros Hs in_run. apply andb_true_iff in Hs as [Hc Hs].
  cbn [re_sub_runs]. destruct (is_sep c) eqn:Ec.
  - destruct in_run; [exact (IH Hs true)|].
    cbn [all_chars]. rewrite (IH Hs true). reflexivity.
  - cbn [orb] in Hc. cbn [all_chars].
    rewrite Hc, orb_true_r, (IH Hs false). reflexivity.
Qed.

Lemma str_split_chars (f : ascii -> bool) (s : string) :
  all_chars (fun c => str_is_space c || f c) s = true ->
  Forall (fun w => all_chars f w = true) (str_split s).
Proof.
  induction s as [|c s IH]; [constructor|].
  cbn [all_chars]. intros Hs. apply andb_true_iff in Hs as [Hc Hs].
  specialize (IH Hs).
  cbn [str_split]. destruct (str_is_space c) eqn:Ec; [exact IH|].
  cbn [orb] in Hc.
  destruct s as [|c' s'].
  - constructor; [|constructor]. cbn [all_chars]. rewrite Hc. reflexivity.
  - destruct (str_is_space c') eqn:Ec'.
    + constructor; [|exact IH]. cbn [all_chars]. rewrite Hc. reflexivity.
    + destruct (str_split (String c' s')) as [|w ws].
      * constructor; [|constructor]. cbn [all_chars]. rewrite Hc.
        reflexivity.
      * apply Forall_cons in IH as [Hw Hws].
        constructor; [|exact Hws]. cbn [all_chars]. rewrite Hc, Hw.
        reflexivity.
Qed.

(** The words kept are not empty and made of small letters and
    underscores. *)
Lemma convert_text_words_letters (content : string) :
  Forall (fun w => w <> EmptyString
                   /\ all_chars is_lower_letter w = true)
         (convert_text_words content).
Proof.
  unfold convert_text_words.
  set (t := re_sub_runs false (str_strip (lower content))).
  assert (Ht : all_chars (fun c => str_is_space c || is_lower_letter c) t
               = true).
  { subst t.
    eapply all_chars_impl;
      [|apply re_sub_runs_chars, str_lstrip_chars, str_rstrip_chars,
          lower_chars].
    intros c Hc. apply orb_true_iff in Hc as [Hc|Hc].
    - apply Ascii.eqb_eq in Hc. subst c. reflexivity.
    - rewrite Hc. apply orb_true_r. }
  pose proof (str_split_words t) as Hne.
  pose proof (str_split_chars _ t Ht) as Hch.
  revert Hne Hch. generalize (str_split t). intros ws Hne Hch.
  induction ws as [|w ws IH]; [constructor|].
  apply Forall_cons in Hne as [[Hw _] Hne].
  apply Forall_cons in Hch as [Hc Hch].
  constructor; [split; assumption|exact (IH Hne Hch)].
Qed.

Lemma lower_word (w : string) :
  all_chars is_lower_letter w = true -> lower w = w.
Proof.
  induction w as [|c w IH]; [reflexivity|].
  cbn [all_chars]. intros Hw. apply andb_true_iff in Hw as [Hc Hw].
  cbn [lower]. rewrite (lower_letter_fixed c Hc), (IH Hw). reflexivity.
Qed.

Lemma lower_letters_no_space (w : string) :
  all_chars is_lower_letter w = true ->
  all_chars (fun c => negb (str_is_space c)) w = true.
Proof. apply all_chars_impl. exact lower_letter_not_space. Qed.

Lemma join_cons2 (sep s s2 : string) (l : list string) :
  join sep (s :: s2 :: l) = (s ++ sep ++ join sep (s2 :: l))%string.
Proof. reflexivity. Qed.

Lemma join_head (sep : string) (c : ascii) (w : string) (l : list string) :
  exists r, join sep (String c w :: l) = String c r.
Proof.
  destruct l as [|s2 l]; [cbn [join]; eauto|].
  rewrite join_cons2, append_cons. eauto.
Qed.

Lemma lower_join (ws : list string) :
  Forall (fun w => w <> EmptyString /\ all_chars is_lower_letter w = true) ws ->
  lower (join " " ws) = join " " ws.
Proof.
  intros Hws. induction Hws as [|w l [_ Hw] Hl IH]; [reflexivity|].
  destruct l as [|w2 l]; [exact (lower_word w Hw)|].
  rewrite join_cons2, !lower_app, (lower_word w Hw), IH. reflexivity.
Qed.

Lemma str_split_join (ws : list string) :
  Forall (fun w => w <> EmptyString /\ all_chars is_lower_letter w = true) ws ->
  str_split (join " " ws) = ws.
Proof.
  intros Hws. induction Hws as [|w l [Hne Hw] Hl IH]; [reflexivity|].
  pose proof (str_split_word w Hne (lower_letters_no_space w Hw)) as Hsplit.
  destruct l as [|w2 l]; [exact Hsplit|].
  rewrite join_cons2, append_cons, append_nil_l.
  rewrite (str_split_app_space w " " _ eq_refl), Hsplit, IH. reflexivity.
Qed.

Lemma str_strip_join (ws : list string) :
  Forall (fun w => w <> EmptyString /\ all_chars is_lower_letter w = true) ws ->
  str_strip (join " " ws) = join " " ws.
Proof.
  intros Hws.
  assert (Hr : str_rstrip (join " " ws) = join " " ws).
  { induction Hws as [|w l [Hne Hw] Hl IH]; [reflexivity|].
    assert (Hrw : forall u, u <> EmptyString ->
                    all_chars is_lower_letter u = true -> str_rstrip u = u).
    { clear. induction u as [|c u IHu]; [reflexivity|]. intros _ Hu.
      cbn [all_chars] in Hu. apply andb_true_iff in Hu as [Hc Hu].
      cbn [str_rstrip]. destruct u as [|c' u].
      - cbn [str_rstrip].
        pose proof (lower_letter_not_space c Hc) as Hsp.
        apply negb_true_iff in Hsp. rewrite Hsp. reflexivity.
      - rewrite (IHu ltac:(discriminate) Hu). reflexivity. }
    destruct l as [|w2 l]; [exact (Hrw w Hne Hw)|].
    rewrite join_cons2.
    assert (Happ : forall a b, str_rstrip b = b -> b <> EmptyString ->
                     str_rstrip (a ++ b) = (a ++ b)%string).
    { clear. intros a b Hb Hne. induction a as [|x a IHa].
      - rewrite append_nil_l. exact Hb.
      - rewrite append_cons. cbn [str_rstrip]. rewrite IHa.
        destruct (a ++ b)%string eqn:E; [|reflexivity].
        destruct a; [rewrite append_nil_l in E; contradiction|discriminate E]. }
    rewrite <- string_app_assoc. apply Happ; [exact IH|].
    apply Forall_cons in Hl as [[Hne2 _] _].
    destruct w2 as [|c w2]; [contradiction|].
    destruct (join_head " " c w2 l) as [r ->]. discriminate. }
  unfold str_strip. rewrite Hr.
  destruct Hws as [|w l [Hne Hw] Hl]; [reflexivity|].
  destruct w as [|c w]; [contradiction|].
  destruct (join_head " " c w l) as [r ->].
  cbn [all_chars] in Hw. apply andb_true_iff in Hw as [Hc _].
  pose proof (lower_letter_not_space c Hc) as Hsp.
  apply negb_true_iff in Hsp. cbn [str_lstrip]. rewrite Hsp. reflexivity.
Qed.

Lemma re_sub_runs_join (ws : list string) (in_run : bool) :
  Forall (fun w => w <> EmptyString /\ all_chars is_lower_letter w = true) ws ->
  re_sub_runs in_run (join " " ws) = join " " ws.
Proof.
  intros Hws.
  assert (Hword : forall (w rest : string) (b : bool),
            all_chars is_lower_letter w = true ->
            re_sub_runs b (w ++ rest)
            = (w ++ re_sub_runs (match w with
                                 | EmptyString => b
                                 | _ => false
                                 end) rest)%string).
  { clear. induction w as [|c w IHw]; intros rest b Hw; [reflexivity|].
    cbn [all_chars] in Hw. apply andb_true_iff in Hw as [Hc Hw].
    rewrite !append_cons. cbn [re_sub_runs].
    rewrite (lower_letter_kept c Hc), (IHw rest false Hw).
    destruct w; reflexivity. }
  revert in_run.
  induction Hws as [|w l [Hne Hw] Hl IH]; intros in_run; [reflexivity|].
  destruct l as [|w2 l].
  - cbn [join]. rewrite <- (string_app_nil_r w) at 1.
    rewrite (Hword w "" in_run Hw). cbn [re_sub_runs].
    apply string_app_nil_r.
  - rewrite join_cons2, (Hword w _ in_run Hw).
    destruct w as [|c w]; [contradiction|].
    rewrite (append_cons " " "" _), append_nil_l. cbn [re_sub_runs].
    change (is_sep " ") with true. cbv iota. rewrite (IH true). reflexivity.
Qed.

Lemma convert_text_join (ws : list string) :
  Forall (fun w => w <> EmptyString /\ all_chars is_lower_letter w = true) ws ->
  convert_text (join " " ws) = join " " ws.
Proof.
  intros Hws. unfold convert_text, convert_text_words.
  rewrite (lower_join ws Hws), (str_strip_join ws Hws),
    (re_sub_runs_join ws false Hws), (str_split_join ws Hws).
  reflexivity.
Qed.

(** X17: for ASCII text, the words [convert_text.py] writes are not empty
    and made of the letters a to z and the underscore only; splitting the
    written text at whitespace gives back exactly these words (single
    spaces between them, none at the ends); and the script run on its own
    output writes the same text again. *)
Theorem convert_text_normal_form (content : string) :
  ascii_text content = true ->
  Forall (fun w => w <> EmptyString /\ all_chars is_lower_letter w = true)
         (convert_text_words content)
  /\ str_split (convert_text content) = convert_text_words content
  /\ convert_text (convert_text content) = convert_text content.
Proof.
  intros _. pose proof (convert_text_words_letters content) as Hws.
  split; [exact Hws|]. split.
  - exact (str_split_join _ Hws).
  - exact (convert_text_join _ Hws).
Qed.

(** The example text. *)
Lemma convert_text_normal_form_witness :
  Forall (fun w => w <> EmptyString /\ all_chars is_lower_letter w = true)
         (convert_text_words text_txt)
  /\ str_split (convert_text text_txt) = convert_text_words text_txt
  /\ convert_text (convert_text text_txt) = convert_text text_txt.
Proof.
  apply (convert_text_normal_form text_txt). reflexivity.
Defined.

(** ** A vocabulary smaller than [ANALOGY_COUNT] *)



(** ** The batches of [eval] *)

Lemma score_all_app (answer : list nat -> list nat)
    (qs1 qs2 : list (list nat)) :
  forall correct skips_map,
    score_all answer (qs1 ++ qs2) correct skips_map
    = ('(c, s) ← score_all answer qs1 correct skips_map;
       score_all answer qs2 c s).
Proof.
  induction qs1 as [|q qs1 IH]; intros correct skips_map; [reflexivity|].
  cbn [app score_all].
  destruct (scan (seq 0 ANALOGY_COUNT) (answer q) q 0 0 correct)
    as [[skips c1]| |]; cbn [mbind result_bind rbind]; try reflexivity.
  destruct (dict_incr skips_map skips) as [s1| |];
    cbn [mbind result_bind rbind]; try reflexivity.
  apply IH.
Qed.

(** A batch answered row by row is scored question by question. *)
Lemma score_batch_rows (answer : list nat -> list nat) :
  forall (qs pre : list (list nat)) (correct skips_map : gmap nat Z),
    score_batch (seq (length pre) (length qs))
                (map answer (pre ++ qs)) (pre ++ qs) correct skips_map
    = score_all answer qs correct skips_map.
Proof.
  induction qs as [|q qs IH]; intros pre correct skips_map; [reflexivity|].
  cbn [length seq score_batch score_all].
  rewrite (index_lookup (map answer (pre ++ q :: qs)%list) (length pre)
             (answer q)).
  2:{ change (map answer (pre ++ q :: qs)%list)
        with (answer <$> (pre ++ q :: qs)%list).
      rewrite list_lookup_fmap, list_lookup_middle by reflexivity.
      reflexivity. }
  rewrite (index_lookup (pre ++ q :: qs)%list (length pre) q)
    by (apply list_lookup_middle; reflexivity).
  cbn [mbind result_bind rbind].
  destruct (scan (seq 0 ANALOGY_COUNT) (answer q) q 0 0 correct)
    as [[skips c1]| |]; cbn [mbind result_bind rbind]; try reflexivity.
  destruct (dict_incr skips_map skips) as [s1| |];
    cbn [mbind result_bind rbind]; try reflexivity.
  specialize (IH (pre ++ [q])%list c1 s1).
  rewrite length_app, <- app_assoc in IH. cbn [length app] in IH.
  rewrite Nat.add_1_r in IH. exact IH.
Qed.

Section Batching.
Variable _predict : list (list nat) -> result (list (list nat)).
Variable answer : list nat -> list nat.
Variable P : list nat -> Prop.
Hypothesis Hpredict :
  forall sub, Forall P sub -> _predict sub = Ok (map answer sub).

Lemma eval_batches_rows (questions : list (list nat)) :
  Forall P questions ->
  forall (fuel start : nat) (correct skips_map : gmap nat Z),
    (length questions - start <= fuel)%nat ->
    eval_batches _predict fuel questions (length questions) start
                 correct skips_map
    = score_all answer (drop start questions) correct skips_map.
Proof.
  intros Hq. induction fuel as [|fuel IH]; intros start correct skips_map Hfuel.
  - cbn [eval_batches].
    rewrite (proj2 (Nat.ltb_ge _ _)) by lia.
    rewrite drop_ge by lia. reflexivity.
  - cbn [eval_batches]. destruct (Nat.ltb start (length questions)) eqn:Elt.
    + apply Nat.ltb_lt in Elt.
      set (sub := slice questions start (start + 2500)).
      assert (Hsub : sub = take 2500 (drop start questions)).
      { subst sub. unfold slice. f_equal. lia. }
      assert (Hsplit : drop start questions
                       = (sub ++ drop (start + 2500) questions)%list).
      { rewrite Hsub, <- (take_drop 2500 (drop start questions)) at 1.
        f_equal. apply drop_drop. }
      rewrite Hpredict
        by (rewrite Hsub; apply Forall_take, Forall_drop; exact Hq).
      cbn [mbind result_bind rbind].
      pose proof (score_batch_rows answer sub [] correct skips_map) as Hrows.
      cbn [length app] in Hrows. rewrite Hrows, Hsplit, score_all_app.
      destruct (score_all answer sub correct skips_map) as [[c1 s1]| |];
        cbn [mbind result_bind rbind]; try reflexivity.
      apply IH. lia.
    + apply Nat.ltb_ge in Elt. rewrite drop_ge by lia. reflexivity.
Qed.

End Batching.

Section PredictRows.
Context {F : Type} `{ScalarOrder F}.

Lemma top_k_rows (k : nat) (scores : list (list F)) :
  Forall (fun row => (k <= length row)%nat) scores ->
  top_k k scores
  = Ok (map (fun row => map snd (firstn k (sort_desc row))) scores,
        map (fun row => map fst (firstn k (sort_desc row))) scores).
Proof.
  induction 1 as [|row scores Hrow _ IH]; [reflexivity|].
  cbn [top_k map]. unfold top_k_row.
  rewrite (proj2 (Nat.leb_le _ _) Hrow). cbn [mbind result_bind rbind].
  rewrite IH. reflexivity.
Qed.

(** [_predict] answers every question of a batch on its own. *)
Lemma predict_rows (w_in : list (list F)) (sub : list (list nat)) :
  (ANALOGY_COUNT <= length w_in)%nat ->
  Forall (ids_in_range (length w_in)) sub ->
  _predict w_in sub = Ok (map (top4 w_in) sub).
Proof.
  intros Hsize Hsub. rewrite (predict_closed_form w_in sub Hsub).
  rewrite top_k_rows.
  - cbn [mbind result_bind rbind]. rewrite map_map. reflexivity.
  - apply Forall_map, Forall_forall. intros q _. cbn beta.
    unfold spec_scores. rewrite length_map. exact Hsize.
Qed.

End PredictRows.

(** X19: on a model with at least [ANALOGY_COUNT] rows and questions with
    ids in range, the batches of 2500 questions do not show in the counts:
    the loop of [eval] over a block gives the same two dicts, or the same
    exception, as scoring the questions one after the other, each against
    the four row ids ranked first for it alone. *)
Theorem eval_batching {F : Type} `{ScalarOrder F} (w_in : list (list F))
    (questions : list (list nat)) (correct skips_map : gmap nat Z) :
  (ANALOGY_COUNT <= length w_in)%nat ->
  Forall (ids_in_range (length w_in)) questions ->
  eval_batches (_predict w_in) (length questions) questions (length questions)
               0 correct skips_map
  = score_all (top4 w_in) questions correct skips_map.
Proof.
  intros Hsize Hq.
  rewrite (eval_batches_rows (_predict w_in) (top4 w_in)
             (ids_in_range (length w_in))
             (fun sub Hsub => predict_rows w_in sub Hsize Hsub)
             questions Hq (length questions) 0 correct skips_map)
    by lia.
  rewrite drop_0. reflexivity.
Qed.

(** Three questions over the small model. *)
Lemma eval_batching_witness :
  eval_batches (_predict small_w_in) 3 small_questions 3 0
               (dict_zeros ANALOGY_COUNT) (dict_zeros (ANALOGY_COUNT + 1))
  = score_all (top4 small_w_in) small_questions
              (dict_zeros ANALOGY_COUNT) (dict_zeros (ANALOGY_COUNT + 1)).
Proof.
  apply (eval_batching small_w_in small_questions).
  - vm_compute. lia.
  - repeat constructor; vm_compute; lia.
Defined.
(** ** The neighbours [nearby] lists *)

Lemma zip_take_fst_snd {A B} (l : list (A * B)) :
  forall n, zip (take n (map fst l)) (take n (map snd l)) = take n l.
Proof.
  induction l as [|[a b] l IH]; intros [|n]; try reflexivity.
  cbn. rewrite IH. reflexivity.
Qed.

Section NearbyFacts.
Context {F : Type} `{ScalarOrder F}.
Variable m : Word2Vec F.
Hypothesis Hvalid : Forall (fun w => utf8_valid w = true) (_id2word m).

Lemma nearby_rows_lookup (pairs : list (nat * F)) :
  Forall (fun p => (p.1 < length (_id2word m))%nat) pairs ->
  exists rows,
    nearby_rows m pairs = Ok rows
    /\ Forall2 (fun p r => _id2word m !! p.1 = Some r.1 /\ r.2 = p.2)
               pairs rows.
Proof.
  induction 1 as [|[neighbor distance] pairs Hp _ (rows & Erows & Hrows)].
  - exists []. split; [reflexivity|constructor].
  - cbn [fst] in Hp.
    destruct (lookup_lt_is_Some_2 (_id2word m) neighbor Hp) as [w Ew].
    exists ((w, distance) :: rows). split.
    + cbn [nearby_rows]. rewrite (index_lookup _ _ _ Ew).
      cbn [mbind result_bind rbind]. unfold b2u_bytes, utf8_decode.
      rewrite (proj1 (Forall_lookup _ _) Hvalid neighbor w Ew).
      cbn [mbind result_bind rbind]. rewrite Erows. reflexivity.
    + constructor; [split; [exact Ew|reflexivity]|exact Hrows].
Qed.

Lemma nearby_loop_ranked (words : list string) (scores : list (list F))
    (k num : nat) :
  Forall (fun w => utf8_valid w = true) words ->
  length scores = length words ->
  Forall (fun row => length row = length (_id2word m)) scores ->
  forall n j, (j + n = length words)%nat ->
    exists out,
      nearby_loop m (seq j n) words
        (map (fun row => map snd (firstn k (sort_desc row))) scores)
        (map (fun row => map fst (firstn k (sort_desc row))) scores) num
      = Ok out
      /\ Forall2 (fun (ws : string * list F) o =>
                    o.1 = ws.1
                    /\ Forall2 (fun p r => _id2word m !! p.1 = Some r.1
                                           /\ r.2 = p.2)
                               (take (Nat.min num k) (sort_desc ws.2)) o.2)
                 (drop j (zip words scores)) out.
Proof.
  intros Hquery Hlen Hscores. induction n as [|n IH]; intros j Hj.
  - exists []. split; [reflexivity|].
    rewrite drop_ge by (rewrite length_zip_with; lia). constructor.
  - destruct (IH (S j) ltac:(lia)) as (out & Eout & Hout).
    destruct (lookup_lt_is_Some_2 words j ltac:(lia)) as [w Ew].
    destruct (lookup_lt_is_Some_2 scores j ltac:(lia)) as [row Erow].
    pose proof (proj1 (Forall_lookup _ _) Hscores j row Erow) as Hrow.
    destruct (nearby_rows_lookup (take (Nat.min num k) (sort_desc row)))
      as (rows & Erows & Hrows).
    { apply Forall_forall. intros [i v] Hin. cbn [fst].
      apply list_elem_of_lookup in Hin as [p Hp].
      apply lookup_take_Some in Hp as [Hp _].
      assert (Hmem : (i, v) ∈ sort_desc row)
        by (apply list_elem_of_lookup; exists p; exact Hp).
      apply sort_desc_lookup in Hmem. apply lookup_lt_Some in Hmem.
      rewrite <- Hrow. exact Hmem. }
    exists ((w, rows) :: out). split.
    + cbn [seq nearby_loop]. rewrite (index_lookup _ _ _ Ew).
      cbn [mbind result_bind rbind]. unfold b2u_bytes at 1, utf8_decode.
      rewrite (proj1 (Forall_lookup _ _) Hquery j w Ew).
      cbn [mbind result_bind rbind].
      rewrite (index_lookup _ j (map fst (firstn k (sort_desc row)))).
      2:{ change (map ?f scores) with (f <$> scores).
          rewrite list_lookup_fmap, Erow. reflexivity. }
      cbn [mbind result_bind rbind].
      rewrite (index_lookup _ j (map snd (firstn k (sort_desc row)))).
      2:{ change (map ?f scores) with (f <$> scores).
          rewrite list_lookup_fmap, Erow. reflexivity. }
      cbn [mbind result_bind rbind].
      rewrite zip_take_fst_snd. change firstn with (@take (nat * F)).
      rewrite take_take, Erows. cbn [mbind result_bind rbind].
      rewrite Eout. reflexivity.
    + rewrite (drop_S _ (w, row) j).
      2:{ rewrite lookup_zip_with, Ew, Erow. reflexivity. }
      constructor; [|exact Hout]. cbn [fst snd]. split; [reflexivity|].
      exact Hrows.
Qed.

End NearbyFacts.

Lemma zip_map_r {A B} (g : A -> B) (l : list A) :
  zip l (map g l) = map (fun x => (x, g x)) l.
Proof. induction l as [|x l IH]; [reflexivity|]. cbn. rewrite IH. reflexivity. Qed.

(** X20: on a built model with at least one word, all words well-formed
    UTF-8, [nearby] lists for every query word that is well-formed UTF-8
    (an unknown word counts as id 0) the [min(num, 1000, vocab_size)] rows
    that score highest against the row of the word, best first and without
    repetition, every row left out scoring no higher; each listed pair is
    the word of the row and its score.  The score of a row is the dot
    product of the two rows scaled to unit L2 norm. *)
Theorem nearby_ranked {F : Type} `{ScalarOrder F} (m : Word2Vec F)
    (words : list string) (num : nat) :
  _word2id m = build_word2id (_id2word m) ->
  length (_w_in m) = length (_id2word m) ->
  (0 < length (_id2word m))%nat ->
  Forall (fun w => utf8_valid w = true) (_id2word m) ->
  Forall (fun w => utf8_valid w = true) words ->
  exists out,
    nearby m words num = Ok out
    /\ Forall2
         (fun w o =>
            o.1 = w
            /\ exists ids,
                 is_top_k (Nat.min num (Nat.min 1000 (length (_id2word m))))
                          (nearby_scores (_w_in m) (word2id_get0 m w)) ids
                 /\ Forall2
                      (fun i r =>
                         _id2word m !! i = Some r.1
                         /\ nearby_scores (_w_in m) (word2id_get0 m w) !! i
                            = Some r.2)
                      ids o.2)
         words out.
Proof.
  intros Hword2id Hrows Hsize Hvalid Hquery.
  set (V := length (_id2word m)).
  set (ids := map (word2id_get0 m) words).
  set (nemb := l2_normalize (_w_in m)).
  assert (Hnemb : length nemb = V).
  { subst nemb. unfold l2_normalize. rewrite length_map. exact Hrows. }
  assert (Hrange : forall w, (word2id_get0 m w < V)%nat).
  { intros w. unfold word2id_get0.
    destruct (_word2id m !! w) as [i|] eqn:Ei; cbn [default].
    - rewrite Hword2id in Ei. exact (build_word2id_range _ _ _ Ei).
    - exact Hsize. }
  assert (Hgather : gather nemb ids = Ok (map (fun i => nth i nemb []) ids)).
  { apply gather_ok. subst ids. apply Forall_map, Forall_forall.
    intros w _. cbn beta. rewrite Hnemb. apply Hrange. }
  assert (Hdist : matmul_transpose_b (map (fun i => nth i nemb []) ids) nemb
                  = map (fun w => nearby_scores (_w_in m) (word2id_get0 m w))
                        words).
  { unfold matmul_transpose_b. subst ids. rewrite !map_map.
    apply map_ext. intros w. subst nemb. rewrite l2_normalize_nth.
    unfold l2_normalize, nearby_scores. rewrite map_map.
    apply map_ext. intros row.
    rewrite dot_inner, !l2_normalize_row_unit. reflexivity. }
  set (scores := map (fun w => nearby_scores (_w_in m) (word2id_get0 m w))
                     words) in *.
  assert (Hscores : Forall (fun row => length row = V) scores).
  { subst scores. apply Forall_map, Forall_forall. intros w _. cbn beta.
    unfold nearby_scores. rewrite length_map. exact Hrows. }
  destruct (nearby_loop_ranked m Hvalid words scores (Nat.min 1000 V) num)
    with (n := length words) (j := 0%nat) as (out & Eout & Hout).
  { exact Hquery. }
  { subst scores. apply length_map. }
  { exact Hscores. }
  { reflexivity. }
  exists out. split.
  - unfold nearby, nearby_run. fold V. fold ids. fold nemb.
    rewrite Hgather. cbn [mbind result_bind rbind]. rewrite Hdist.
    rewrite top_k_rows.
    + cbn [mbind result_bind rbind]. exact Eout.
    + eapply Forall_impl; [exact Hscores|]. intros row Hrow.
      cbv beta in Hrow |- *. rewrite Hrow. apply Nat.le_min_r.
  - rewrite drop_0 in Hout. subst scores. rewrite zip_map_r in Hout.
    change (map ?f words) with (f <$> words) in Hout.
    apply Forall2_fmap_l in Hout.
    eapply Forall2_impl; [exact Hout|].
    intros w o [Hw Hlist]. cbn [fst snd] in Hw, Hlist.
    split; [exact Hw|].
    set (row := nearby_scores (_w_in m) (word2id_get0 m w)) in *.
    set (K := Nat.min num (Nat.min 1000 V)) in *.
    assert (HK : (K <= length row)%nat).
    { subst row K. unfold nearby_scores. rewrite length_map, Hrows.
      fold V. etransitivity; [apply Nat.le_min_r|apply Nat.le_min_r]. }
    destruct (top_k_row_spec K row HK) as (vals & idxs & Etop & Htop & _).
    unfold top_k_row in Etop. rewrite (proj2 (Nat.leb_le _ _) HK) in Etop.
    injection Etop as _ <-.
    exists (map fst (firstn K (sort_desc row))). split; [exact Htop|].
    change (map fst (firstn K (sort_desc row)))
      with (fst <$> take K (sort_desc row)).
    apply Forall2_fmap_l.
    apply Forall2_same_length_lookup. split.
    + exact (Forall2_length _ _ _ Hlist).
    + intros p [i v] r Hp Hr. cbn [fst].
      destruct (Forall2_lookup_lr _ _ _ _ _ _ Hlist Hp Hr) as [Hword Hval].
      cbn [fst snd] in Hword, Hval. split; [exact Hword|].
      rewrite Hval. apply sort_desc_lookup.
      apply lookup_take_Some in Hp as [Hp _].
      apply list_elem_of_lookup. exists p. exact Hp.
Qed.

(** A known and an unknown word on the small model. *)
Lemma nearby_ranked_witness :
  exists out,
    nearby small_model ["paris"; "nowhere"] 3 = Ok out
    /\ Forall2
         (fun w o =>
            o.1 = w
            /\ exists ids,
                 is_top_k
                   (Nat.min 3 (Nat.min 1000 (length (_id2word small_model))))
                   (nearby_scores (_w_in small_model)
                                  (word2id_get0 small_model w)) ids
                 /\ Forall2
                      (fun i r =>
                         _id2word small_model !! i = Some r.1
                         /\ nearby_scores (_w_in small_model)
                                          (word2id_get0 small_model w) !! i
                            = Some r.2)
                      ids o.2)
         ["paris"; "nowhere"] out.
Proof.
  apply (nearby_ranked small_model ["paris"; "nowhere"] 3).
  - reflexivity.
  - reflexivity.
  - vm_compute. lia.
  - repeat constructor.
  - repeat constructor.
Defined.

(** ** Expanding question pairs: every input *)

(** Lines that are not blank are lines of words, then sections. *)
Lemma items_sections (items : list cq_item) :
  Forall (fun i => cq_is_blank i = false) items ->
  exists (ds : list (list string))
         (sections : list (string * list (list string))),
    items = (map CqData ds ++ flat_map section_items sections)%list.
Proof.
  induction 1 as [|item items Hitem _ (ds & sections & ->)].
  - exists [], []. reflexivity.
  - destruct item as [|h|ws]; [discriminate Hitem| |].
    + exists [], ((h, ds) :: sections). reflexivity.
    + exists (ws :: ds), sections. reflexivity.
Qed.

(** Either the headers without lines all come last, or one of them is
    followed by a section with lines. *)
Lemma sections_empty_last (sections : list (string * list (list string))) :
  (exists full empties,
      sections = (full ++ empties)%list
      /\ Forall (fun sec => sec.2 <> []) full
      /\ Forall (fun sec => sec.2 = []) empties)
  \/ (exists good h empties h' d ds rest,
        sections = (good ++ (h, []) :: empties ++ (h', d :: ds) :: rest)%list
        /\ Forall (fun sec => sec.2 <> []) good
        /\ Forall (fun sec => sec.2 = []) empties).
Proof.
  induction sections as [|[h0 rows0] sections IH].
  - left. exists [], []. repeat split; constructor.
  - destruct rows0 as [|d0 ds0].
    + destruct IH as [(full & empties & -> & Hfull & Hempties)
                     |(good & h & empties & h' & d & ds & rest & -> & Hgood
                       & Hempties)].
      * destruct full as [|[h' [|d ds]] full].
        -- left. exists [], ((h0, []) :: empties).
           repeat split; constructor; [reflexivity|exact Hempties].
        -- apply Forall_cons in Hfull as [Hne _]. contradiction.
        -- right. exists [], h0, [], h', d, ds, (full ++ empties)%list.
           repeat split; constructor.
      * destruct good as [|[h1 [|d1 ds1]] good].
        -- right. exists [], h0, ((h, []) :: empties), h', d, ds, rest.
           repeat split; constructor; [reflexivity|exact Hempties].
        -- apply Forall_cons in Hgood as [Hne _]. contradiction.
        -- right.
           exists [], h0, [], h1, d1, ds1,
                  (good ++ (h, []) :: empties ++ (h', d :: ds) :: rest)%list.
           repeat split; constructor.
    + destruct IH as [(full & empties & -> & Hfull & Hempties)
                     |(good & h & empties & h' & d & ds & rest & -> & Hgood
                       & Hempties)].
      * left. exists ((h0, d0 :: ds0) :: full), empties.
        repeat split; [constructor; [discriminate|exact Hfull]|exact Hempties].
      * right. exists ((h0, d0 :: ds0) :: good), h, empties, h', d, ds, rest.
        repeat split; [constructor; [discriminate|exact Hgood]|exact Hempties].
Qed.

(** Either the sections of one line all come last, or one of them is
    followed by a section of two lines or more. *)
Lemma sections_short_last (full : list (string * list (list string))) :
  Forall (fun sec => sec.2 <> []) full ->
  (exists good shorts,
      full = (good ++ shorts)%list
      /\ Forall (fun sec => (2 <= length sec.2)%nat) good
      /\ Forall (fun sec => length sec.2 = 1%nat) shorts)
  \/ (exists before h d after,
        full = (before ++ (h, [d]) :: after)%list
        /\ Forall (fun sec => sec.2 <> []) before
        /\ Forall (fun sec => sec.2 <> []) after
        /\ Exists (fun sec => (2 <= length sec.2)%nat) after).
Proof.
  induction 1 as [|[h0 rows0] full Hrows0 Hfull IH].
  - left. exists [], []. repeat split; constructor.
  - cbn [snd] in Hrows0.
    destruct rows0 as [|d0 [|d1 ds0]]; [contradiction| |].
    + destruct IH as [(good & shorts & -> & Hgood & Hshorts)
                     |(before & h & d & after & -> & Hbefore & Hafter & Hlong)].
      * destruct good as [|g good].
        -- left. exists [], ((h0, [d0]) :: shorts).
           repeat split; constructor; [reflexivity|exact Hshorts].
        -- right. exists [], h0, d0, ((g :: good) ++ shorts)%list.
           repeat split; [constructor|exact Hfull|].
           apply Forall_cons in Hgood as [Hg _].
           apply Exists_cons_hd. exact Hg.
      * right. exists [], h0, d0, (before ++ (h, [d]) :: after)%list.
        repeat split; [constructor|exact Hfull|].
        apply Exists_app. right. apply Exists_cons_tl. exact Hlong.
    + destruct IH as [(good & shorts & -> & Hgood & Hshorts)
                     |(before & h & d & after & -> & Hbefore & Hafter & Hlong)].
      * left. exists ((h0, d0 :: d1 :: ds0) :: good), shorts.
        repeat split; [constructor; [cbn; lia|exact Hgood]|exact Hshorts].
      * right. exists ((h0, d0 :: d1 :: ds0) :: before), h, d, after.
        repeat split; [constructor; [discriminate|exact Hbefore]
                      |exact Hafter|exact Hlong].
Qed.

(** X21: on ASCII text the script has two outcomes only.  Either it stops
    with [IndexError] and writes nothing, or the input is made of sections
    with two lines or more, then sections with one line, then headers
    without lines, and the script writes the pairs of the first kind of
    sections, as in X14. *)
Theorem convert_questions_outcome (lines : list string) :
  Forall (fun line => ascii_text line = true) lines ->
  convert_questions lines = Raise IndexError
  \/ exists good shorts empties,
       made_of lines (good ++ shorts ++ empties)%list
       /\ Forall (fun sec => (2 <= length sec.2)%nat) good
       /\ Forall (fun sec => length sec.2 = 1%nat) shorts
       /\ Forall (fun sec => sec.2 = []) empties
       /\ convert_questions lines = Ok (render_from 0 good).
Proof.
  intros _.
  destruct (items_sections
              (List.filter (fun i => negb (cq_is_blank i))
                           (map cq_classify lines)))
    as (ds & sections & Hitems).
  { apply List.Forall_forall. intros i Hi. apply filter_In in Hi as [_ Hi].
    apply negb_true_iff in Hi. exact Hi. }
  destruct ds as [|d ds].
  2:{ left. unfold convert_questions. rewrite cq_read_items, Hitems.
      reflexivity. }
  cbn [map app] in Hitems.
  destruct (sections_empty_last sections)
    as [(full & empties & -> & Hfull & Hempties)
       |(good & h & empties & h' & d & ds & rest & -> & Hgood & Hempties)].
  2:{ left. exact (convert_questions_ahead lines good empties h h' d ds rest
                     Hitems Hgood Hempties). }
  destruct (sections_short_last full Hfull)
    as [(good & shorts & -> & Hgood & Hshorts)
       |(before & h & d & after & -> & Hbefore & Hafter & Hlong)].
  - right. exists good, shorts, empties.
    assert (Hmade : made_of lines (good ++ shorts ++ empties)%list).
    { unfold made_of. rewrite Hitems, app_assoc. reflexivity. }
    repeat split; try assumption.
    exact (convert_questions_sections lines good shorts empties
             Hmade Hgood Hshorts Hempties).
  - left. apply (convert_questions_behind lines before after empties h d);
      try assumption.
    unfold made_of. rewrite Hitems, <- app_assoc. reflexivity.
Qed.

(** The example file. *)
Lemma convert_questions_outcome_witness :
  convert_questions questions_txt = Raise IndexError
  \/ exists good shorts empties,
       made_of questions_txt (good ++ shorts ++ empties)%list
       /\ Forall (fun sec => (2 <= length sec.2)%nat) good
       /\ Forall (fun sec => length sec.2 = 1%nat) shorts
       /\ Forall (fun sec => sec.2 = []) empties
       /\ convert_questions questions_txt = Ok (render_from 0 good).
Proof.
  apply (convert_questions_outcome questions_txt). repeat constructor.
Defined.

(** ** Expanding question pairs: how many questions *)

Lemma pairs_with_count (rows : list (list string)) (x : nat) (l : list nat) :
  NoDup l ->
  length (flat_map (pair_of rows x) l)
  = if bool_decide (x ∈ l) then (length l - 1)%nat else length l.
Proof.
  induction 1 as [|y l Hy Hl IH]; [reflexivity|].
  cbn [flat_map]. rewrite length_app, IH. unfold pair_of.
  destruct (Nat.eqb_spec x y) as [->|Hxy].
  - rewrite (bool_decide_eq_false_2 _ Hy).
    rewrite bool_decide_eq_true_2 by (left). cbn [length]. lia.
  - destruct (bool_decide (x ∈ l)) eqn:Ex.
    + apply bool_decide_eq_true_1 in Ex.
      rewrite bool_decide_eq_true_2 by (right; exact Ex).
      destruct l; [inversion Ex|]. cbn [length]. lia.
    + apply bool_decide_eq_false_1 in Ex.
      rewrite bool_decide_eq_false_2; [reflexivity|].
      intros Hin. apply elem_of_cons in Hin as [Heq|Hin]; [congruence|].
      exact (Ex Hin).
Qed.

Lemma ordered_pairs_count (rows : list (list string)) :
  length (ordered_pairs rows) = (length rows * (length rows - 1))%nat.
Proof.
  unfold ordered_pairs.
  change (fun x => flat_map (fun y => if Nat.eqb x y then []
                                      else [(nth x rows [] ++ nth y rows [])%list])
                            (seq 0 (length rows)))
    with (fun x => flat_map (pair_of rows x) (seq 0 (length rows))).
  assert (Hall : forall l : list nat,
            Forall (fun x => (x < length rows)%nat) l ->
            length (flat_map (fun x => flat_map (pair_of rows x)
                                                (seq 0 (length rows))) l)
            = (length l * (length rows - 1))%nat).
  { induction 1 as [|x l Hx _ IH]; [reflexivity|].
    cbn [flat_map length]. rewrite length_app, IH.
    rewrite (pairs_with_count rows x _ (NoDup_seq 0 (length rows))).
    rewrite bool_decide_eq_true_2 by (apply elem_of_seq; lia).
    rewrite length_seq. lia. }
  rewrite (Hall _ (seq_below (length rows))), length_seq. reflexivity.
Qed.

(** The pairs of a section are exactly the pairs of two different
    positions. *)
Lemma ordered_pairs_positions (rows : list (list string)) (q : list string) :
  In q (ordered_pairs rows)
  <-> exists x y r1 r2,
        x <> y /\ rows !! x = Some r1 /\ rows !! y = Some r2
        /\ q = (r1 ++ r2)%list.
Proof.
  unfold ordered_pairs. split.
  - intros Hq.
    apply in_flat_map in Hq as (x & Hx & Hq).
    apply in_flat_map in Hq as (y & Hy & Hq).
    apply in_seq in Hx, Hy.
    destruct (Nat.eqb_spec x y) as [|Hxy]; [contradiction|].
    destruct Hq as [<-|[]].
    destruct (lookup_lt_is_Some_2 rows x ltac:(lia)) as [r1 E1].
    destruct (lookup_lt_is_Some_2 rows y ltac:(lia)) as [r2 E2].
    exists x, y, r1, r2.
    rewrite (nth_lookup_Some _ _ [] _ E1), (nth_lookup_Some _ _ [] _ E2).
    repeat split; assumption.
  - intros (x & y & r1 & r2 & Hxy & E1 & E2 & ->).
    apply in_flat_map. exists x. split.
    { apply in_seq. apply lookup_lt_Some in E1. lia. }
    apply in_flat_map. exists y. split.
    { apply in_seq. apply lookup_lt_Some in E2. lia. }
    destruct (Nat.eqb_spec x y) as [|_]; [contradiction|].
    rewrite (nth_lookup_Some _ _ [] _ E1), (nth_lookup_Some _ _ [] _ E2).
    left. reflexivity.
Qed.

(** X22: when every section has two lines or more, the pairing loops give
    for a section of [n] lines exactly [n * (n - 1)] questions: the words
    of the line at one position followed by the words of the line at a
    different position, for every two different positions of the section,
    in the order of [ordered_pairs]. *)
Theorem cq_pairs_count (text : list (list (list string))) :
  Forall (fun row => (2 <= length row)%nat) text ->
  exists res,
    cq_pairs text = Ok res
    /\ Forall2 (fun row questions =>
                  questions = ordered_pairs row
                  /\ length questions = (length row * (length row - 1))%nat
                  /\ forall q,
                       In q questions
                       <-> exists x y r1 r2,
                             x <> y /\ row !! x = Some r1
                             /\ row !! y = Some r2 /\ q = (r1 ++ r2)%list)
               text res.
Proof.
  intros Htext. exists (map ordered_pairs text). split.
  - unfold cq_pairs.
    exact (cq_pairs_good text text [] Htext (fun i row Hi => Hi)).
  - apply Forall2_fmap_r, Forall_Forall2_diag, Forall_forall.
    intros row _. split; [reflexivity|].
    split; [apply ordered_pairs_count|].
    intros q. apply ordered_pairs_positions.
Qed.

(** The sections of the example file: six and two questions. *)
Lemma cq_pairs_count_witness :
  exists res,
    cq_pairs (map snd questions_good) = Ok res
    /\ Forall2 (fun row questions =>
                  questions = ordered_pairs row
                  /\ length questions = (length row * (length row - 1))%nat
                  /\ forall q,
                       In q questions
                       <-> exists x y r1 r2,
                             x <> y /\ row !! x = Some r1
                             /\ row !! y = Some r2 /\ q = (r1 ++ r2)%list)
               (map snd questions_good) res.
Proof.
  apply (cq_pairs_count (map snd questions_good)). repeat constructor.
Defined.
